(** * kuato: session transcript extraction, filtering, scoring and ranking

    A shallow embedding of [src/shared/parser.ts] (the two transcript
    extractors and the format detector) and of the file-based OpenCode search
    ([scoreRelevance], [matchesFilters], [searchSessions]), followed by the
    properties of the specification that concern them.

    Conventions of the embedding.
    - A JavaScript string is a [string]: a sequence of 8-bit code units
      (Latin-1).  Code units above 255 are not represented, so that every
      statement about text is a statement about Latin-1 text; on it
      [toLowerCase] works code unit by code unit.
    - A value obtained from [JSON.parse] is a [JSON] tree.  A number is
      written as an integer ([Z]); its value is the nearest double, and a
      sum is rounded as [+] rounds it, see [roundDouble].  Fractional
      numbers, NaN and the infinities are outside the embedding.  An object
      lists its own properties in the order [Object.entries] enumerates
      them.
    - [undefined] is [None] in an [option JSON].
    - A computation ends in one of three ways, see [outcome]. *)

From Stdlib Require Import String Ascii List ZArith Lia Bool Arith Sorted
  Permutation.
Import ListNotations.
Open Scope string_scope.

Set Implicit Arguments.
Set Warnings "-register-all".

(** ** Values *)

Inductive JSON : Type :=
| JNull : JSON
| JBool : bool -> JSON
| JNum : Z -> JSON
| JStr : string -> JSON
| JArr : list JSON -> JSON
| JObj : list (string * JSON) -> JSON.

(** How a piece of the program ends: it returns a value, it throws (every
    throw the modelled code can make is a [TypeError]), or it leaves the part
    of JavaScript that is modelled: a value that contradicts the declared
    TypeScript type reaches a place where the code does not test it (a number
    where a [Set<string>] member is expected, an object where a time stamp
    is), or a counter overflows to Infinity.  What the code does from there
    on, a throw included, is not described. *)
Inductive outcome (A : Type) : Type :=
| Return : A -> outcome A
| TypeError : outcome A
| Unmodelled : outcome A.

Arguments TypeError {A}.
Arguments Unmodelled {A}.

Definition bind {A B : Type} (m : outcome A) (k : A -> outcome B) : outcome B :=
  match m with
  | Return a => k a
  | TypeError => TypeError
  | Unmodelled => Unmodelled
  end.

Declare Scope outcome_scope.
Delimit Scope outcome_scope with outcome.
Notation "'let*' x ':=' m 'in' k" := (bind m (fun x => k))
  (at level 10, x name, m at level 100, k at level 200) : outcome_scope.
Notation "'let*' ' p ':=' m 'in' k" := (bind m (fun x => match x with p => k end))
  (at level 10, p pattern, m at level 100, k at level 200) : outcome_scope.
Open Scope outcome_scope.

(** [for (const x of xs) body] over an accumulator. *)
Fixpoint forOf {A S : Type} (body : S -> A -> outcome S) (xs : list A) (s : S)
  : outcome S :=
  match xs with
  | [] => Return s
  | x :: rest => let* s' := body s x in forOf body rest s'
  end.

(** ** Strings *)

Module Str.

(** White space as [String.prototype.trim] and the regular expression
    class [\s] see it, restricted to 8-bit code units. *)
Definition isWhiteSpace (c : ascii) : bool :=
  let n := nat_of_ascii c in
  ((9 <=? n) && (n <=? 13) || (n =? 32) || (n =? 160))%nat.

Definition isEmpty (s : string) : bool :=
  match s with EmptyString => true | String _ _ => false end.

Fixpoint trimStart (s : string) : string :=
  match s with
  | EmptyString => EmptyString
  | String c rest => if isWhiteSpace c then trimStart rest else s
  end.

Fixpoint trimEnd (s : string) : string :=
  match s with
  | EmptyString => EmptyString
  | String c rest =>
      let r := trimEnd rest in
      if isEmpty r && isWhiteSpace c then EmptyString else String c r
  end.

Definition trim (s : string) : string := trimEnd (trimStart s).

(** Puts a code unit in front of the first piece of a split. *)
Definition consHead (c : ascii) (pieces : list string) : list string :=
  match pieces with
  | [] => [String c EmptyString]
  | h :: t => String c h :: t
  end.

(** [s.split(sep)] for a one-character separator. *)
Fixpoint split (sep : ascii) (s : string) : list string :=
  match s with
  | EmptyString => [EmptyString]
  | String c rest =>
      if Ascii.eqb c sep then EmptyString :: split sep rest
      else consHead c (split sep rest)
  end.

(** [s.split(/\s+/)]: [inRun] says that the previous code unit was white
    space, so that a run of white space separates once. *)
Fixpoint splitWsFrom (inRun : bool) (s : string) : list string :=
  match s with
  | EmptyString => [EmptyString]
  | String c rest =>
      if isWhiteSpace c then
        if inRun then splitWsFrom true rest
        else EmptyString :: splitWsFrom true rest
      else consHead c (splitWsFrom false rest)
  end.

Definition splitWs (s : string) : list string := splitWsFrom false s.

(** [.filter(Boolean)] on an array of strings. *)
Definition filterBoolean (l : list string) : list string :=
  filter (fun s => negb (isEmpty s)) l.

Fixpoint startsWith (s p : string) : bool :=
  match p, s with
  | EmptyString, _ => true
  | String _ _, EmptyString => false
  | String a p', String b s' => Ascii.eqb a b && startsWith s' p'
  end.

(** [s.includes(t)] *)
Fixpoint includes (s t : string) : bool :=
  startsWith s t
  || match s with
     | EmptyString => false
     | String _ rest => includes rest t
     end.

(** [s.toLowerCase()] on Latin-1 text: the letters [A] to [Z] and those
    from U+00C0 to U+00DE other than the multiplication sign have their
    lowercase form 32 places further, every other code unit stays.  The one
    rule of [toLowerCase] that looks at the neighbours of a character, for
    the Greek capital sigma, concerns no code unit below 256. *)
Definition lowerChar (c : ascii) : ascii :=
  let n := nat_of_ascii c in
  if ((65 <=? n) && (n <=? 90)
      || (192 <=? n) && (n <=? 222) && negb (n =? 215))%nat
  then ascii_of_nat (n + 32) else c.

Fixpoint toLowerCase (s : string) : string :=
  match s with
  | EmptyString => EmptyString
  | String c rest => String (lowerChar c) (toLowerCase rest)
  end.

Fixpoint allChars (p : ascii -> bool) (s : string) : bool :=
  match s with
  | EmptyString => true
  | String c rest => p c && allChars p rest
  end.

Fixpoint drop (n : nat) (s : string) : string :=
  match n, s with
  | O, _ => s
  | S _, EmptyString => EmptyString
  | S n', String _ rest => drop n' rest
  end.

End Str.

Definition dquote : ascii := ascii_of_nat 34.
Definition newline : ascii := ascii_of_nat 10.

(** The text [k] between double quotes, as in the literal ['"info"']. *)
Definition quoted (k : string) : string :=
  String dquote (k ++ String dquote EmptyString).

(** ** JavaScript values *)

Fixpoint lookup {V : Type} (k : string) (kvs : list (string * V)) : option V :=
  match kvs with
  | [] => None
  | (k', v) :: rest => if String.eqb k k' then Some v else lookup k rest
  end.

(** The property read [v.k], for the property names the program reads
    ([type], [message], [content], ...): none of them exists on a string, a
    number, a boolean or an array, and reading from [null] or [undefined]
    throws. *)
Definition prop (k : string) (v : option JSON) : outcome (option JSON) :=
  match v with
  | None | Some JNull => TypeError
  | Some (JObj kvs) => Return (lookup k kvs)
  | Some _ => Return None
  end.

(** Truthiness, as [if (v)], [v && ...] and [v || d] test it. *)
Definition truthy (v : option JSON) : bool :=
  match v with
  | None | Some JNull => false
  | Some (JBool b) => b
  | Some (JNum z) => negb (z =? 0)%Z
  | Some (JStr s) => negb (Str.isEmpty s)
  | Some (JArr _) | Some (JObj _) => true
  end.

(** [v === 'lit'] *)
Definition isStr (lit : string) (v : option JSON) : bool :=
  match v with
  | Some (JStr s) => String.eqb s lit
  | _ => false
  end.

(** A truthy value used where the types declare a string. *)
Definition asString (v : option JSON) : outcome string :=
  match v with
  | Some (JStr s) => Return s
  | _ => Unmodelled
  end.

(** [v || d] where the types declare [v] a string. *)
Definition stringOr (v : option JSON) (d : string) : outcome string :=
  if truthy v then asString v else Return d.

(** The double nearest to the integer [z], ties going to the even
    significand: every integer up to 2^53 in magnitude is a double, a larger
    one keeps its 53 leading bits. *)
Definition roundDouble (z : Z) : Z :=
  let a := Z.abs z in
  if (a <=? 2 ^ 53)%Z then z
  else
    let e := (Z.log2 a - 52)%Z in
    let q := Z.shiftr a e in
    let r := (a - Z.shiftl q e)%Z in
    let half := Z.shiftl 1 (e - 1) in
    let q' :=
      if (r <? half)%Z then q
      else if (half <? r)%Z then (q + 1)%Z
      else if Z.even q then q else (q + 1)%Z in
    (Z.sgn z * Z.shiftl q' e)%Z.

(** The number that the integer [z] gives, as a literal or as the exact
    result of an operation; from 2^1024 - 2^970 on that is Infinity. *)
Definition number (z : Z) : outcome Z :=
  let r := roundDouble z in
  if (Z.abs r <? 2 ^ 1024)%Z then Return r else Unmodelled.

(** [a + b] on numbers. *)
Definition plus (a b : Z) : outcome Z := number (a + b).

(** [v || 0] where the types declare [v] a number. *)
Definition numberOrZero (v : option JSON) : outcome Z :=
  match v with
  | Some (JNum z) => number z
  | _ => if truthy v then Unmodelled else Return 0%Z
  end.

(** ** Own properties of a plain object *)

Definition isDigit (c : ascii) : bool :=
  let n := nat_of_ascii c in ((48 <=? n) && (n <=? 57))%nat.

Fixpoint decimalValue (s : string) (acc : N) : N :=
  match s with
  | EmptyString => acc
  | String c rest => decimalValue rest (10 * acc + (N_of_ascii c - 48))%N
  end.

(** The array index that a property name is, if it is one: the canonical
    decimal text of an integer from 0 to 2^32 - 2. *)
Definition arrayIndex (k : string) : option N :=
  match k with
  | EmptyString => None
  | String c rest =>
      if Str.allChars isDigit k
         && (negb (Ascii.eqb c "0") || Str.isEmpty rest)
      then
        let n := decimalValue k 0 in
        if (n <? 2 ^ 32 - 1)%N then Some n else None
      else None
  end.

(** An array index [n] takes its place among the array indices, which come
    first and in ascending order. *)
Fixpoint placeIndex {V : Type} (n : N) (k : string) (v : V)
  (o : list (string * V)) : list (string * V) :=
  match o with
  | [] => [(k, v)]
  | (k', v') :: rest =>
      match arrayIndex k' with
      | Some n' =>
          if (n' <? n)%N then (k', v') :: placeIndex n k v rest
          else (k, v) :: o
      | None => (k, v) :: o
      end
  end.

(** [o[k] = v] for a name [k] that [o] does not own yet.  The list is in
    the order of [Object.keys], [Object.entries] and [JSON.stringify]:
    array indices in ascending order, then the other names in the order of
    their creation. *)
Definition defineProperty {V : Type} (k : string) (v : V)
  (o : list (string * V)) : list (string * V) :=
  match arrayIndex k with
  | Some n => placeIndex n k v o
  | None => o ++ [(k, v)]
  end.

(** [Set<string>]: members in insertion order, [add] keeps the first. *)
Definition setAdd (x : string) (s : list string) : list string :=
  if existsb (String.eqb x) s then s else s ++ [x].

(** ** Dates *)

(** A [Date] holds a time value in milliseconds, or is an Invalid Date
    ([None]), whose time value is NaN. *)
Definition Date : Type := option Z.

Definition maxTime : Z := 8640000000000000.

Definition dateOfNumber (t : Z) : Date :=
  if ((- maxTime <=? t) && (t <=? maxTime))%Z then Some t else None.

(** [a < b] and [a > b] on dates: false as soon as one side is NaN. *)
Definition dateLt (a b : Date) : bool :=
  match a, b with
  | Some x, Some y => (x <? y)%Z
  | _, _ => false
  end.

Definition dateGt (a b : Date) : bool := dateLt b a.

(** [new Date(v)] for a value read from a transcript.  [Date_parse] is the
    built-in parser of date strings. *)
Definition newDate (Date_parse : string -> Date) (v : option JSON)
  : outcome Date :=
  match v with
  | None => Return None
  | Some JNull => Return (Some 0%Z)
  | Some (JBool b) => Return (Some (if b then 1 else 0)%Z)
  | Some (JNum t) => Return (dateOfNumber t)
  | Some (JStr s) => Return (Date_parse s)
  | Some (JArr _) | Some (JObj _) => Unmodelled
  end.

(** ** The data model ([src/shared/types.ts]) *)

Record TokenCount : Type := mkTokenCount {
  input : Z;
  output : Z;
  cacheCreation : Z;
  cacheRead : Z
}.

Inductive SessionType : Type := ClaudeCode | OpenCode.

Record ParsedSession : Type := mkParsedSession {
  id : string;
  startedAt : Date;
  endedAt : Date;
  gitBranch : string;
  cwd : string;
  version : string;
  messageCount : nat;
  inputTokens : Z;
  outputTokens : Z;
  cacheCreationTokens : Z;
  cacheReadTokens : Z;
  userMessages : list string;
  toolsUsed : list string;
  filesFromToolCalls : list string;
  modelsUsed : list string;
  modelTokens : list (string * TokenCount);
  title : option string;
  sessionType : option SessionType
}.

Record SearchResult : Type := mkSearchResult {
  session : ParsedSession;
  relevance : Z
}.

Record SearchOptions : Type := mkSearchOptions {
  query : option string;
  days : option Z;
  since : option Date;
  until : option Date;
  tools : option (list string);
  filePattern : option string;
  limit : option Z
}.

(** ** Extraction of file paths from a tool input *)

Definition pathKeys : list string :=
  ["file_path"; "path"; "file"; "filename"; "filePath"].

Definition isPathKey (k : string) : bool := existsb (String.eqb k) pathKeys.

Definition looksLikePath (value : string) : bool :=
  Str.includes value "/" || Str.includes value "\".

(** [extractFilePaths(input, files)].  [Object.entries] of an object gives
    its properties; of an array, its elements under numeric keys (never a
    path key, but an element that is a plain object is still walked); of a
    string, one-character strings; of a number or boolean, nothing.  Below
    the top, arrays are excluded by [!Array.isArray(value)]. *)
Fixpoint extractFilePaths (input : JSON) (files : list string) : list string :=
  match input with
  | JObj kvs =>
      (fix entries (kvs : list (string * JSON)) (files : list string) :=
         match kvs with
         | [] => files
         | (key, value) :: rest =>
             let files1 :=
               match value with
               | JStr s =>
                   if isPathKey key && looksLikePath s then setAdd s files
                   else files
               | _ => files
               end in
             let files2 :=
               match value with
               | JObj _ => extractFilePaths value files1
               | _ => files1
               end in
             entries rest files2
         end) kvs files
  | JArr elems =>
      (fix elements (elems : list JSON) (files : list string) :=
         match elems with
         | [] => files
         | value :: rest =>
             elements rest
               match value with
               | JObj _ => extractFilePaths value files
               | _ => files
               end
         end) elems files
  | _ => files
  end.

(** ** The line-delimited extractor ([parseSessionContent]) *)

(** The names a plain object inherits from [Object.prototype]: for such a
    model name [modelTokens[model]] reads the inherited member, a function
    or, for [__proto__], the prototype, and that is truthy. *)
Definition inheritedKeys : list string :=
  ["constructor"; "__proto__"; "hasOwnProperty"; "isPrototypeOf";
   "propertyIsEnumerable"; "toLocaleString"; "toString"; "valueOf";
   "__defineGetter__"; "__defineSetter__"; "__lookupGetter__";
   "__lookupSetter__"].

Definition isInherited (k : string) : bool :=
  existsb (String.eqb k) inheritedKeys.

Definition zeroTokens : TokenCount := mkTokenCount 0 0 0 0.

(** Four [+=], one for each counter. *)
Definition accumulate (t u : TokenCount) : outcome TokenCount :=
  let* i := plus (input t) (input u) in
  let* o := plus (output t) (output u) in
  let* cc := plus (cacheCreation t) (cacheCreation u) in
  let* cr := plus (cacheRead t) (cacheRead u) in
  Return (mkTokenCount i o cc cr).

(** [modelTokens[model].input += ...] and its three siblings, on the own
    bucket of [model]. *)
Fixpoint addToBucket (model : string) (u : TokenCount)
  (buckets : list (string * TokenCount))
  : outcome (list (string * TokenCount)) :=
  match buckets with
  | [] => Return []
  | (m, t) :: rest =>
      if String.eqb model m then
        let* t' := accumulate t u in Return ((m, t') :: rest)
      else
        let* rest' := addToBucket model u rest in Return ((m, t) :: rest')
  end.

(** The accumulators of the second loop. *)
Record Acc : Type := mkAcc {
  accUserMessages : list string;
  accToolsUsed : list string;
  accFiles : list string;
  accModelsUsed : list string;
  accTotals : TokenCount;
  accModelTokens : list (string * TokenCount)
}.

Definition emptyAcc : Acc := mkAcc [] [] [] [] zeroTokens [].

Definition isUuidChar (c : ascii) : bool :=
  let n := nat_of_ascii c in
  ((97 <=? n) && (n <=? 102) || (48 <=? n) && (n <=? 57) || (n =? 45))%nat.

(** [path.match(/([a-f0-9-]{36})\.jsonl$/)?.[1]] *)
Definition matchSessionPath (path : string) : option string :=
  let n := String.length path in
  if (42 <=? n)%nat then
    let tail := Str.drop (n - 42) path in
    let group := substring 0 36 tail in
    if Str.allChars isUuidChar group && String.eqb (Str.drop 36 tail) ".jsonl"
    then Some group else None
  else None.

(** [extractFromContentBlock(block, toolsUsed, filesFromToolCalls)] *)
Definition extractFromContentBlock (acc : Acc) (block : JSON) : outcome Acc :=
  let* type := prop "type" (Some block) in
  if isStr "tool_use" type then
    let* name := prop "name" (Some block) in
    if truthy name then
      let* toolName := asString name in
      let* input := prop "input" (Some block) in
      let files :=
        match input with
        | Some obj => if truthy input then extractFilePaths obj (accFiles acc)
                      else accFiles acc
        | None => accFiles acc
        end in
      Return (mkAcc (accUserMessages acc) (setAdd toolName (accToolsUsed acc))
                files (accModelsUsed acc) (accTotals acc) (accModelTokens acc))
    else Return acc
  else Return acc.

(** The four counters of a [usage] object, each read as [usage.k || 0]. *)
Definition readUsage (usage : option JSON) : outcome TokenCount :=
  let* i := (let* v := prop "input_tokens" usage in numberOrZero v) in
  let* o := (let* v := prop "output_tokens" usage in numberOrZero v) in
  let* cc := (let* v := prop "cache_creation_input_tokens" usage in numberOrZero v) in
  let* cr := (let* v := prop "cache_read_input_tokens" usage in numberOrZero v) in
  Return (mkTokenCount i o cc cr).

(** The model of an assistant message is registered, and its bucket created
    on first encounter: [if (!modelTokens[model]) modelTokens[model] = {...}].
    For an inherited name the test reads the inherited member and no bucket
    is created. *)
Definition trackModel (model : option JSON) (acc : Acc) : outcome Acc :=
  if truthy model then
    let* m := asString model in
    Return (mkAcc (accUserMessages acc) (accToolsUsed acc) (accFiles acc)
              (setAdd m (accModelsUsed acc)) (accTotals acc)
              (if isInherited m then accModelTokens acc
               else
                 match lookup m (accModelTokens acc) with
                 | Some _ => accModelTokens acc
                 | None => defineProperty m zeroTokens (accModelTokens acc)
                 end))
  else Return acc.

(** The totals first, then the bucket.  For an inherited name the four
    [+=] land on the inherited member, which neither the session nor any
    function of the program shows; [modelTokens] keeps its buckets. *)
Definition accumulateUsage (model usage : option JSON) (acc : Acc)
  : outcome Acc :=
  if truthy usage then
    let* u := readUsage usage in
    let* totals := accumulate (accTotals acc) u in
    let* buckets :=
      if truthy model then
        let* m := asString model in
        if isInherited m then Return (accModelTokens acc)
        else
          match lookup m (accModelTokens acc) with
          | Some _ => addToBucket m u (accModelTokens acc)
          | None => Return (accModelTokens acc)
          end
      else Return (accModelTokens acc) in
    Return (mkAcc (accUserMessages acc) (accToolsUsed acc) (accFiles acc)
              (accModelsUsed acc) totals buckets)
  else Return acc.

(** The body of [for (const msg of messages)]. *)
Definition processMessage (acc : Acc) (msg : JSON) : outcome Acc :=
  let* type := prop "type" (Some msg) in
  if isStr "user" type then
    let* userMsg := prop "message" (Some msg) in
    let* content := prop "content" userMsg in
    match content with
    | Some (JStr text) =>
        if negb (Str.isEmpty (Str.trim text)) then
          Return (mkAcc (accUserMessages acc ++ [text]) (accToolsUsed acc)
                    (accFiles acc) (accModelsUsed acc) (accTotals acc)
                    (accModelTokens acc))
        else Return acc
    | _ => Return acc
    end
  else if isStr "assistant" type then
    let* assistantMsg := prop "message" (Some msg) in
    let* model := prop "model" assistantMsg in
    let* acc1 := trackModel model acc in
    let* usage := prop "usage" assistantMsg in
    let* acc2 := accumulateUsage model usage acc1 in
    let* content := prop "content" assistantMsg in
    match content with
    | Some (JArr blocks) => forOf extractFromContentBlock blocks acc2
    | _ => Return acc2
    end
  else Return acc.

(** ** The structured-export extractor ([parseOpenCodeSession]), per message *)

(** What [for (const x of v)] iterates: the elements of an array, the
    one-character strings of a string; anything else is not iterable. *)
Definition iterate (v : option JSON) : outcome (list JSON) :=
  match v with
  | Some (JArr elems) => Return elems
  | Some (JStr s) =>
      Return (map (fun c => JStr (String c EmptyString)) (list_ascii_of_string s))
  | _ => TypeError
  end.

Definition collectPart (acc : Acc) (part : JSON) : outcome Acc :=
  let* type := prop "type" (Some part) in
  if isStr "text" type then
    let* text := prop "text" (Some part) in
    if truthy text then
      let* t := asString text in
      Return (mkAcc (accUserMessages acc ++ [t]) (accToolsUsed acc)
                (accFiles acc) (accModelsUsed acc) (accTotals acc)
                (accModelTokens acc))
    else Return acc
  else Return acc.

(** [if (params.k) filesFromToolCalls.add(params.k)] *)
Definition addParam (k : string) (params : option JSON) (files : list string)
  : outcome (list string) :=
  let* v := prop k params in
  if truthy v then
    let* s := asString v in Return (setAdd s files)
  else Return files.

Definition collectToolCall (acc : Acc) (toolCall : JSON) : outcome Acc :=
  let* name := prop "name" (Some toolCall) in
  let* toolName := asString name in
  let* parameters := prop "parameters" (Some toolCall) in
  let* files :=
    if truthy parameters then
      let* f1 := addParam "filePath" parameters (accFiles acc) in
      let* f2 := addParam "path" parameters f1 in
      addParam "file" parameters f2
    else Return (accFiles acc) in
  Return (mkAcc (accUserMessages acc) (setAdd toolName (accToolsUsed acc))
            files (accModelsUsed acc) (accTotals acc) (accModelTokens acc)).

(** The body of [for (const message of session.messages)]. *)
Definition processEnvelope (acc : Acc) (message : JSON) : outcome Acc :=
  let* info := prop "info" (Some message) in
  let* role := prop "role" info in
  let* parts := prop "parts" (Some message) in
  let* acc1 :=
    if isStr "user" role && truthy parts then
      let* ps := iterate parts in forOf collectPart ps acc
    else Return acc in
  let* toolCalls := prop "toolCalls" (Some message) in
  let* acc2 :=
    if truthy toolCalls then
      let* tcs := iterate toolCalls in forOf collectToolCall tcs acc1
    else Return acc1 in
  let* model := prop "model" info in
  if truthy model then
    let* modelID := prop "modelID" model in
    let* m := asString modelID in
    Return (mkAcc (accUserMessages acc2) (accToolsUsed acc2) (accFiles acc2)
              (setAdd m (accModelsUsed acc2)) (accTotals acc2)
              (accModelTokens acc2))
  else Return acc2.

(** ** The two extractors and the format detector *)

Section Parser.

(** The built-ins [JSON.parse] ([None] when it throws) and the parser of
    date strings behind [new Date(string)]. *)
Variable JSON_parse : string -> option JSON.
Variable Date_parse : string -> Date.

(** The test of the first loop: [parsed.type === 'user' ||
    parsed.type === 'assistant'], inside the [try]. *)
Definition isConversational (parsed : JSON) : bool :=
  match prop "type" (Some parsed) with
  | Return type => isStr "user" type || isStr "assistant" type
  | _ => false
  end.

(** The first loop: a line that does not parse, or that throws on
    [parsed.type], lands in the [catch]. *)
Fixpoint collectMessages (lines : list string) : list JSON :=
  match lines with
  | [] => []
  | line :: rest =>
      match JSON_parse line with
      | Some parsed =>
          if isConversational parsed then parsed :: collectMessages rest
          else collectMessages rest
      | None => collectMessages rest
      end
  end.

Definition linesOf (content : string) : list string :=
  Str.filterBoolean (Str.split newline (Str.trim content)).

Definition deriveId (sessionId : option string) (firstMessage : JSON)
  : outcome string :=
  match match sessionId with
        | Some path => matchSessionPath path
        | None => None
        end with
  | Some group => Return group
  | None =>
      let* sid := prop "sessionId" (Some firstMessage) in
      stringOr sid "unknown"
  end.

(** [parseSessionContent] after its first loop: from the retained
    messages to the session. *)
Definition buildSession (messages : list JSON) (sessionId : option string)
  : outcome (option ParsedSession) :=
  match messages with
  | [] => Return None
  | firstMessage :: _ =>
      let lastMessage := last messages firstMessage in
      let* acc := forOf processMessage messages emptyAcc in
      let* id := deriveId sessionId firstMessage in
      let* started :=
        (let* ts := prop "timestamp" (Some firstMessage) in
         newDate Date_parse ts) in
      let* ended :=
        (let* ts := prop "timestamp" (Some lastMessage) in
         newDate Date_parse ts) in
      let* branch :=
        (let* v := prop "gitBranch" (Some firstMessage) in
         stringOr v "unknown") in
      let* dir :=
        (let* v := prop "cwd" (Some firstMessage) in stringOr v "") in
      let* ver :=
        (let* v := prop "version" (Some firstMessage) in stringOr v "") in
      Return (Some {|
        id := id;
        startedAt := started;
        endedAt := ended;
        gitBranch := branch;
        cwd := dir;
        version := ver;
        messageCount := length messages;
        inputTokens := input (accTotals acc);
        outputTokens := output (accTotals acc);
        cacheCreationTokens := cacheCreation (accTotals acc);
        cacheReadTokens := cacheRead (accTotals acc);
        userMessages := accUserMessages acc;
        toolsUsed := accToolsUsed acc;
        filesFromToolCalls := accFiles acc;
        modelsUsed := accModelsUsed acc;
        modelTokens := accModelTokens acc;
        title := None;
        sessionType := Some ClaudeCode |})
  end.

Definition parseSessionContent (content : string) (sessionId : option string)
  : outcome (option ParsedSession) :=
  let lines := linesOf content in
  match lines with
  | [] => Return None
  | _ :: _ => buildSession (collectMessages lines) sessionId
  end.

Definition parseOpenCodeSession (session : JSON) : outcome ParsedSession :=
  let* messages := prop "messages" (Some session) in
  let* envelopes := iterate messages in
  let* acc := forOf processEnvelope envelopes emptyAcc in
  let* info := prop "info" (Some session) in
  let* id := (let* v := prop "id" info in asString v) in
  let* time := prop "time" info in
  let* started := (let* v := prop "created" time in newDate Date_parse v) in
  let* ended := (let* v := prop "updated" time in newDate Date_parse v) in
  let* directory := (let* v := prop "directory" info in asString v) in
  let* title := (let* v := prop "title" info in stringOr v "Untitled Session") in
  Return {|
    id := id;
    startedAt := started;
    endedAt := ended;
    gitBranch := "";
    cwd := directory;
    version := "";
    messageCount := length envelopes;
    inputTokens := 0;
    outputTokens := 0;
    cacheCreationTokens := 0;
    cacheReadTokens := 0;
    userMessages := accUserMessages acc;
    toolsUsed := accToolsUsed acc;
    filesFromToolCalls := accFiles acc;
    modelsUsed := accModelsUsed acc;
    modelTokens := [];
    title := Some title;
    sessionType := Some OpenCode |}.

(** [parseSessionFile], from the text read from [filePath]. *)
Definition parseSessionFile (content filePath : string)
  : outcome (option ParsedSession) :=
  let trimmed := Str.trim content in
  if Str.startsWith trimmed "{"
     && Str.includes trimmed (quoted "info")
     && Str.includes trimmed (quoted "messages")
  then
    match JSON_parse trimmed with
    | Some session =>
        match parseOpenCodeSession session with
        | Return s => Return (Some s)
        | TypeError => parseSessionContent content (Some filePath)
        | Unmodelled => Unmodelled
        end
    | None => parseSessionContent content (Some filePath)
    end
  else parseSessionContent content (Some filePath).

End Parser.

(** ** Relevance, filters and the search pipeline (file-based OpenCode search) *)

(** [for (const term of queryTerms) if (textLower.includes(term)) score += points] *)
Definition scoreTerms (points : Z) (queryTerms : list string)
  (textLower : string) (score : Z) : Z :=
  fold_left
    (fun score term =>
       if Str.includes textLower term then (score + points)%Z else score)
    queryTerms score.

(** The same loop, inside a loop over the texts of a field. *)
Definition scoreTexts (points : Z) (queryTerms : list string)
  (texts : list string) (score : Z) : Z :=
  fold_left
    (fun score text => scoreTerms points queryTerms (Str.toLowerCase text) score)
    texts score.

Definition queryTermsOf (query : string) : list string :=
  Str.filterBoolean (Str.splitWs (Str.toLowerCase query)).

Definition scoreRelevance (s : ParsedSession) (query : string) : Z :=
  if Str.isEmpty query then 1%Z
  else
    let queryTerms := queryTermsOf query in
    let score := 0%Z in
    let score :=
      match title s with
      | Some t =>
          if Str.isEmpty t then score
          else scoreTerms 15 queryTerms (Str.toLowerCase t) score
      | None => score
      end in
    let score := scoreTexts 10 queryTerms (userMessages s) score in
    let score := scoreTerms 5 queryTerms (Str.toLowerCase (cwd s)) score in
    let score := scoreTexts 3 queryTerms (toolsUsed s) score in
    let score := scoreTexts 3 queryTerms (filesFromToolCalls s) score in
    score.

Definition msPerDay : Z := 24 * 60 * 60 * 1000.

(** [matchesFilters]; [now] is the value of [Date.now()]. *)
Definition matchesFilters (now : Z) (s : ParsedSession) (options : SearchOptions)
  : bool :=
  if match since options with
     | Some d => dateLt (endedAt s) d
     | None => false
     end then false
  else if match until options with
          | Some d => dateGt (endedAt s) d
          | None => false
          end then false
  else if match days options with
          | Some n =>
              negb (n =? 0)%Z
              && dateLt (endedAt s) (dateOfNumber (now - n * msPerDay))
          | None => false
          end then false
  else if match tools options with
          | Some ((_ :: _) as requested) =>
              negb (existsb
                      (fun tool =>
                         existsb
                           (fun t => Str.includes (Str.toLowerCase t)
                                       (Str.toLowerCase tool))
                           (toolsUsed s))
                      requested)
          | _ => false
          end then false
  else if match filePattern options with
          | Some p =>
              negb (Str.isEmpty p)
              && negb (existsb
                         (fun f => Str.includes (Str.toLowerCase f)
                                     (Str.toLowerCase p))
                         (filesFromToolCalls s))
          | None => false
          end then false
  else true.

(** [options.query] as a condition: present and not the empty string. *)
Definition hasQuery (options : SearchOptions) : option string :=
  match query options with
  | Some q => if Str.isEmpty q then None else Some q
  | None => None
  end.

(** The comparator given to [results.sort].  On a tie with an Invalid Date
    on either side, the difference of the time values is NaN, which the sort
    reads as +0. *)
Definition compareResults (a b : SearchResult) : Z :=
  if negb (relevance a =? relevance b)%Z
  then (relevance b - relevance a)%Z
  else
    match endedAt (session b), endedAt (session a) with
    | Some tb, Some ta => (tb - ta)%Z
    | _, _ => 0%Z
    end.

(** [Array.prototype.sort] is stable, and with a consistent comparator its
    result is determined; insertion from the right is one such sort.  A
    comparator that is not consistent (here: an Invalid Date among results
    of equal relevance) leaves the order to the engine, of which insertion
    gives one instance: below, the order of the results is spoken of only
    where every retained session has a valid date. *)
Fixpoint insertBy {A : Type} (cmp : A -> A -> Z) (x : A) (l : list A) : list A :=
  match l with
  | [] => [x]
  | y :: rest =>
      if (cmp x y <=? 0)%Z then x :: l else y :: insertBy cmp x rest
  end.

Definition sortBy {A : Type} (cmp : A -> A -> Z) (l : list A) : list A :=
  fold_right (insertBy cmp) [] l.

(** [a.slice(0, n)] *)
Definition slice0 {A : Type} (n : Z) (a : list A) : list A :=
  if (n <? 0)%Z then firstn (Z.to_nat (Z.of_nat (length a) + n)) a
  else firstn (Z.to_nat n) a.

Section Search.

Variable Date_parse : string -> Date.

(** The body of the loop of [searchSessions]; [rawSession] is what
    [exportSession] returned for the identifier ([None] for [null]). *)
Definition processSession (now : Z) (options : SearchOptions)
  (results : list SearchResult) (rawSession : option JSON)
  : outcome (list SearchResult) :=
  if negb (truthy rawSession) then Return results
  else
    match rawSession with
    | None => Return results
    | Some raw =>
        let* s := parseOpenCodeSession Date_parse raw in
        match userMessages s with
        | [] => Return results
        | _ :: _ =>
            if negb (matchesFilters now s options) then Return results
            else
              let relevance :=
                match hasQuery options with
                | Some q => scoreRelevance s q
                | None => 1%Z
                end in
              match hasQuery options with
              | Some _ =>
                  if (relevance =? 0)%Z then Return results
                  else Return (results ++ [mkSearchResult s relevance])%list
              | None => Return (results ++ [mkSearchResult s relevance])%list
              end
        end
    end.

Definition effectiveLimit (options : SearchOptions) : Z :=
  match limit options with
  | Some n => if (n =? 0)%Z then 20%Z else n
  | None => 20%Z
  end.

(** [searchSessions]; [exported] lists, in the order of the session list,
    what [exportSession] returns. *)
Definition searchSessions (now : Z) (exported : list (option JSON))
  (options : SearchOptions) : outcome (list SearchResult) :=
  let* results := forOf (processSession now options) exported [] in
  Return (slice0 (effectiveLimit options) (sortBy compareResults results)).

End Search.

(** ** Notions used in the statements *)

(** A string that holds a path separator. *)
Definition pathLike (s : string) : Prop := looksLikePath s = true.

(** The two encodings of a raw session and the extractor of each. *)
Inductive RawSession : Type :=
| Transcript (content : string) (path : option string)
| Export (session : JSON).

Definition extract (JSON_parse : string -> option JSON)
  (Date_parse : string -> Date) (raw : RawSession)
  : outcome (option ParsedSession) :=
  match raw with
  | Transcript content path =>
      parseSessionContent JSON_parse Date_parse content path
  | Export session =>
      let* s := parseOpenCodeSession Date_parse session in Return (Some s)
  end.

(** The element-wise sum of two records of counters, and of the buckets of
    [modelTokens], as sums of integers. *)
Definition addTokens (a b : TokenCount) : TokenCount :=
  mkTokenCount (input a + input b) (output a + output b)
    (cacheCreation a + cacheCreation b) (cacheRead a + cacheRead b).

Definition sumTokens (buckets : list (string * TokenCount)) : TokenCount :=
  fold_right (fun kv total => addTokens (snd kv) total) zeroTokens buckets.

Definition tokenTotals (s : ParsedSession) : TokenCount :=
  mkTokenCount (inputTokens s) (outputTokens s) (cacheCreationTokens s)
    (cacheReadTokens s).

(** A model name that gets a bucket of its own: a non-empty string that a
    plain object does not inherit. *)
Definition namesBucket (model : option JSON) : bool :=
  match model with
  | Some (JStr m) => negb (Str.isEmpty m) && negb (isInherited m)
  | _ => false
  end.

(** An assistant event that carries usage also declares a model, under a
    name that gets a bucket. *)
Definition usageHasModel (msg : JSON) : bool :=
  match prop "type" (Some msg) with
  | Return type =>
      if isStr "assistant" type then
        match prop "message" (Some msg) with
        | Return m =>
            match prop "model" m, prop "usage" m with
            | Return model, Return usage =>
                implb (truthy usage) (namesBucket model)
            | _, _ => true
            end
        | _ => true
        end
      else true
  | _ => true
  end.

(** The counter [k] of a usage record as it is written: 0 when it is
    absent or not a number. *)
Definition counter (k : string) (usage : JSON) : Z :=
  match usage with
  | JObj fields =>
      match lookup k fields with
      | Some (JNum z) => z
      | _ => 0%Z
      end
  | _ => 0%Z
  end.

Definition writtenCounters (usage : JSON) : TokenCount :=
  mkTokenCount (counter "input_tokens" usage) (counter "output_tokens" usage)
    (counter "cache_creation_input_tokens" usage)
    (counter "cache_read_input_tokens" usage).

(** The counters of [message.usage] as written; zero without usage. *)
Definition writtenUsage (usage : option JSON) : TokenCount :=
  match usage with
  | Some u => if truthy usage then writtenCounters u else zeroTokens
  | None => zeroTokens
  end.

(** The usage that an assistant event carries, as written; zero for every
    other event. *)
Definition usageOfEvent (msg : JSON) : TokenCount :=
  match msg with
  | JObj fields =>
      if isStr "assistant" (lookup "type" fields) then
        match lookup "message" fields with
        | Some (JObj m) => writtenUsage (lookup "usage" m)
        | _ => zeroTokens
        end
      else zeroTokens
  | _ => zeroTokens
  end.

(** The four counters of a record, in absolute value, together. *)
Definition size (t : TokenCount) : Z :=
  Z.abs (input t) + Z.abs (output t) + Z.abs (cacheCreation t)
  + Z.abs (cacheRead t).

(** All the token counts written in the events, in absolute value,
    together.  While this stays within 2^53 every sum the extractor makes is
    an integer that a double holds: no [+=] rounds. *)
Definition tokenMass (messages : list JSON) : Z :=
  fold_right (fun msg total => size (usageOfEvent msg) + total)%Z 0%Z messages.

Definition countsStayExact (messages : list JSON) : Prop :=
  (tokenMass messages <= 2 ^ 53)%Z.

(** The totals and each bucket of an accumulator are within [B], their
    four counters together. *)
Definition countersWithin (B : Z) (acc : Acc) : Prop :=
  (size (accTotals acc) <= B)%Z
  /\ Forall (fun kv => (size (snd kv) <= B)%Z) (accModelTokens acc).

(** The events that the extractor of a raw session reads usage from: the
    retained events of a transcript; an export shows no usage. *)
Definition usageEvents (JSON_parse : string -> option JSON) (raw : RawSession)
  : list JSON :=
  match raw with
  | Transcript content _ => collectMessages JSON_parse (linesOf content)
  | Export _ => []
  end.

Definition everyUsageHasModel (JSON_parse : string -> option JSON)
  (raw : RawSession) : Prop :=
  forallb usageHasModel (usageEvents JSON_parse raw) = true.

(** The invariant of the second loop: the running totals are the sum of the
    buckets. *)
Definition totalsAreBucketSums (acc : Acc) : Prop :=
  accTotals acc = sumTokens (accModelTokens acc).

(** What a retained event adds to [userMessages]: the content of a user
    event when it is a string that is not blank, as it stands. *)
Definition userContribution (msg : JSON) : list string :=
  match msg with
  | JObj fields =>
      if isStr "user" (lookup "type" fields) then
        match lookup "message" fields with
        | Some (JObj m) =>
            match lookup "content" m with
            | Some (JStr text) =>
                if Str.isEmpty (Str.trim text) then [] else [text]
            | _ => []
            end
        | _ => []
        end
      else []
  | _ => []
  end.











(** [e] lies in the window of the options: not before [since], not after
    [until], and not before the cut-off of a non-zero [days].  An Invalid
    Date as bound, or as cut-off, constrains nothing. *)
Definition insideWindow (now e : Z) (options : SearchOptions) : Prop :=
  (forall a, since options = Some (Some a) -> (a <= e)%Z)
  /\ (forall b, until options = Some (Some b) -> (e <= b)%Z)
  /\ (forall n t,
         days options = Some n -> n <> 0%Z ->
         dateOfNumber (now - n * msPerDay) = Some t -> (t <= e)%Z).

(** The options with [days = n] replaced by the [since] it stands for. *)
Definition sinceInsteadOfDays (now n : Z) (options : SearchOptions)
  : SearchOptions :=
  mkSearchOptions (query options) None
    (Some (dateOfNumber (now - n * msPerDay))) (until options)
    (tools options) (filePattern options) (limit options).

(** The options without the tool and file-pattern filters. *)
Definition dateOptionsOf (options : SearchOptions) : SearchOptions :=
  mkSearchOptions (query options) (days options) (since options)
    (until options) None None (limit options).

(** How many of the terms occur in a lowercased text. *)
Definition matchCount (queryTerms : list string) (textLower : string) : nat :=
  length (filter (fun term => Str.includes textLower term) queryTerms).

Definition totalMatches (queryTerms : list string) (texts : list string) : nat :=
  list_sum (map (fun text => matchCount queryTerms (Str.toLowerCase text)) texts).

(** The title as the scorer sees it: absent when empty. *)
Definition titleTexts (s : ParsedSession) : list string :=
  match title s with
  | Some t => if Str.isEmpty t then [] else [t]
  | None => []
  end.

(** The texts a query is matched against. *)
Definition searchedTexts (s : ParsedSession) : list string :=
  titleTexts s ++ userMessages s ++ [cwd s] ++ toolsUsed s
    ++ filesFromToolCalls s.

(** No query term occurs, whatever the case, in the title, a user message,
    the working directory, a tool name or a touched file. *)
Definition noTermAppears (s : ParsedSession) (q : string) : Prop :=
  forall term text,
    In term (queryTermsOf q) -> In text (searchedTexts s) ->
    Str.includes (Str.toLowerCase text) term = false.

(** The session with other user messages. *)
Definition withUserMessages (s : ParsedSession) (messages : list string)
  : ParsedSession :=
  mkParsedSession (id s) (startedAt s) (endedAt s) (gitBranch s) (cwd s)
    (version s) (messageCount s) (inputTokens s) (outputTokens s)
    (cacheCreationTokens s) (cacheReadTokens s) messages (toolsUsed s)
    (filesFromToolCalls s) (modelsUsed s) (modelTokens s) (title s)
    (sessionType s).

(** [text] with [piece] put in after its first [n] code units. *)
Definition insertAt (n : nat) (piece text : string) : string :=
  substring 0 n text ++ piece ++ Str.drop n text.

(** How many times [t] occurs in [s], overlaps included. *)
Fixpoint occurrences (s t : string) : nat :=
  (if Str.startsWith s t then 1 else 0)
  + match s with
    | EmptyString => 0
    | String _ rest => occurrences rest t
    end.

(** [r] is the result the loop of [searchSessions] keeps for one of the
    exported sessions. *)
Definition retainedBy (Date_parse : string -> Date) (now : Z)
  (options : SearchOptions) (exported : list (option JSON)) (r : SearchResult)
  : Prop :=
  exists raw,
    In (Some raw) exported
    /\ parseOpenCodeSession Date_parse raw = Return (session r)
    /\ userMessages (session r) <> []
    /\ matchesFilters now (session r) options = true
    /\ match hasQuery options with
       | Some q =>
           relevance r = scoreRelevance (session r) q /\ relevance r <> 0%Z
       | None => relevance r = 1%Z
       end.

(** The order of the results: higher relevance first, then the later
    [endedAt] first. *)
Definition rankedBefore (a b : SearchResult) : Prop :=
  exists ta tb,
    endedAt (session a) = Some ta /\ endedAt (session b) = Some tb
    /\ ((relevance a > relevance b)%Z
        \/ (relevance a = relevance b /\ (ta >= tb)%Z)).

(** Every session that the loop of the search retains has a valid
    [endedAt]. *)
Definition retainedDatesAreValid (Date_parse : string -> Date) (now : Z)
  (options : SearchOptions) (exported : list (option JSON)) : Prop :=
  forall r, retainedBy Date_parse now options exported r ->
            exists t, endedAt (session r) = Some t.

(** Names that are array indices come first, in ascending order; the
    other names follow. *)
Definition keyBefore (a b : string) : Prop :=
  match arrayIndex a, arrayIndex b with
  | Some x, Some y => (x <= y)%N
  | Some _, None => True
  | None, Some _ => False
  | None, None => True
  end.

Definition isArrayIndex (k : string) : bool :=
  match arrayIndex k with Some _ => true | None => false end.

(** The keys of the buckets against the models met so far: the keys are
    the models that are not inherited names, each once, array indices first
    and in ascending order, the others in the order of the models. *)
Definition keysFollowModels (acc : Acc) : Prop :=
  let keys := map fst (accModelTokens acc) in
  (forall m, In m keys <-> In m (accModelsUsed acc) /\ isInherited m = false)
  /\ NoDup keys
  /\ StronglySorted keyBefore keys
  /\ filter (fun k => negb (isArrayIndex k)) keys
     = filter (fun m => negb (isArrayIndex m) && negb (isInherited m))
         (accModelsUsed acc).

(** ** Transcripts, exports and options used as examples *)

(** A stand-in for [JSON.parse] that knows the texts of a table and throws
    on every other text. *)
Definition tableParse (table : list (string * JSON)) (text : string)
  : option JSON :=
  lookup text table.

Definition noDates : string -> Date := fun _ => None.

Definition exportInfo (title : string) (updated : Z) : JSON :=
  JObj [("id", JStr "ses_1"); ("directory", JStr "/home/u/app");
        ("title", JStr title);
        ("time", JObj [("created", JNum 1000); ("updated", JNum updated)])].

Definition userEnvelope (text : string) : JSON :=
  JObj [("info", JObj [("id", JStr "msg_1"); ("role", JStr "user")]);
        ("parts", JArr [JObj [("type", JStr "text"); ("text", JStr text)]])].

(** An export whose only tool call reads [README.md]. *)
Definition readmeExport : JSON :=
  JObj [("info", exportInfo "Docs" 2000);
        ("messages",
         JArr [userEnvelope "update the readme";
               JObj [("info", JObj [("id", JStr "msg_2");
                                    ("role", JStr "assistant")]);
                     ("toolCalls",
                      JArr [JObj [("name", JStr "read");
                                  ("parameters",
                                   JObj [("filePath", JStr "README.md")])]])]])].

(** The decimal digits of [n], in front of [acc]. *)
Fixpoint digitsOf (fuel : nat) (n : N) (acc : string) : string :=
  match fuel with
  | O => acc
  | S fuel' =>
      let d := ascii_of_N (48 + N.modulo n 10) in
      if (n <? 10)%N then String d acc
      else digitsOf fuel' (N.div n 10) (String d acc)
  end.

Definition numberText (z : Z) : string :=
  let digits := digitsOf (S (N.to_nat (N.log2 (Z.abs_N z)))) (Z.abs_N z) "" in
  if (z <? 0)%Z then String "-" digits else digits.

(** The text of a JSON tree, as [JSON.stringify] writes it, for trees whose
    strings need no escape. *)
Fixpoint stringify (j : JSON) : string :=
  match j with
  | JNull => "null"
  | JBool true => "true"
  | JBool false => "false"
  | JNum z => numberText z
  | JStr s => quoted s
  | JArr elems =>
      "[" ++ (fix items (l : list JSON) : string :=
                match l with
                | [] => ""
                | [x] => stringify x
                | x :: rest => stringify x ++ "," ++ items rest
                end) elems ++ "]"
  | JObj kvs =>
      "{" ++ (fix members (l : list (string * JSON)) : string :=
                match l with
                | [] => ""
                | [(k, v)] => quoted k ++ ":" ++ stringify v
                | (k, v) :: rest =>
                    quoted k ++ ":" ++ stringify v ++ "," ++ members rest
                end) kvs ++ "}"
  end.

(** [JSON.parse] on the texts of the given trees. *)
Definition parseOf (trees : list JSON) : string -> option JSON :=
  tableParse (map (fun j => (stringify j, j)) trees).

(** The lines of a transcript, joined by line feeds. *)
Fixpoint joinLines (lines : list string) : string :=
  match lines with
  | [] => ""
  | [l] => l
  | l :: rest => l ++ String newline (joinLines rest)
  end.

Definition userEvent (text : JSON) : JSON :=
  JObj [("type", JStr "user"); ("sessionId", JStr "s-1");
        ("message", JObj [("role", JStr "user"); ("content", text)])].

Definition usageOf (i o : Z) : JSON :=
  JObj [("input_tokens", JNum i); ("output_tokens", JNum o);
        ("cache_creation_input_tokens", JNum 0);
        ("cache_read_input_tokens", JNum 0)].

(** An assistant event that carries usage and declares no model. *)
Definition anonymousUsageEvent : JSON :=
  JObj [("type", JStr "assistant"); ("sessionId", JStr "s-1");
        ("message", JObj [("role", JStr "assistant"); ("content", JArr []);
                          ("usage", usageOf 5 7)])].

(** An assistant event that carries usage and declares its model. *)
Definition modelUsageEvent : JSON :=
  JObj [("type", JStr "assistant"); ("sessionId", JStr "s-1");
        ("message", JObj [("role", JStr "assistant"); ("content", JArr []);
                          ("model", JStr "model-a"); ("usage", usageOf 5 7)])].

(** An export without any message. *)
Definition emptyExport : JSON :=
  JObj [("info", exportInfo "Empty" 2000); ("messages", JArr [])].

(** A transcript with a padded user text, a user event whose content is an
    array, and a user event whose text is blank. *)
Definition paddedText : string := "  ship it  ".

Definition mixedUserEvents : list JSON :=
  [userEvent (JStr paddedText);
   userEvent (JArr [JObj [("type", JStr "tool_result")]]);
   userEvent (JStr "   ")].

(** A transcript with a line that is not JSON between two user events. *)
Definition firstEvent : JSON := userEvent (JStr "Let's build septa tracker").
Definition secondEvent : JSON := userEvent (JStr "ship it").
Definition brokenLine : string := "{broken".




Definition onlyDays (n : Z) : SearchOptions :=
  mkSearchOptions None (Some n) None None None None None.

(** A session with one user message that ended at [e]. *)
Definition sessionEndedAt (e : Z) : ParsedSession :=
  mkParsedSession "ses_1" (Some 0%Z) (Some e) "" "/home/u/app" "" 1 0 0 0 0
    ["fix the bug"] [] [] [] [] (Some "Septa App") (Some OpenCode).

Definition someNow : Z := 1700000000000.

(** A session with the given user messages and nothing else to match. *)
Definition bareSession (messages : list string) : ParsedSession :=
  mkParsedSession "ses_0" (Some 0%Z) (Some 0%Z) "" "" "" 1 0 0 0 0
    messages [] [] [] [] None (Some OpenCode).

Definition exportWith (title text : string) (updated : Z) : JSON :=
  JObj [("info", exportInfo title updated);
        ("messages", JArr [userEnvelope text])].

Definition optionsWith (q : option string) (lim : option Z) : SearchOptions :=
  mkSearchOptions q None None None None None lim.

Definition twoExports : list (option JSON) :=
  [Some (exportWith "Notes" "add tests" 1500);
   Some (exportWith "Septa App" "fix the bug" 2000)].

(** An assistant event that calls a tool on [src/septa.ts]. *)
Definition toolEvent : JSON :=
  JObj [("type", JStr "assistant"); ("sessionId", JStr "s-1");
        ("message",
         JObj [("role", JStr "assistant"); ("model", JStr "model-a");
               ("content",
                JArr [JObj [("type", JStr "tool_use"); ("name", JStr "Edit");
                            ("input",
                             JObj [("file_path", JStr "src/septa.ts")])]])])].

(** An assistant event of the given model with the given usage. *)
Definition modelEvent (model : string) (i o : Z) : JSON :=
  JObj [("type", JStr "assistant"); ("sessionId", JStr "s-1");
        ("message", JObj [("role", JStr "assistant"); ("content", JArr []);
                          ("model", JStr model); ("usage", usageOf i o)])].

(** Usage of 2^53 tokens under one model, then twice one token under
    another. *)
Definition largeCountEvents : list JSON :=
  [modelEvent "model-a" (2 ^ 53) 0; modelEvent "model-b" 1 0;
   modelEvent "model-b" 1 0].

(** Usage under a model named like a member of [Object.prototype]. *)
Definition inheritedNameEvents : list JSON :=
  [modelEvent "constructor" 5 7].

(** Models met in the order [gpt], [10], [4], [constructor]. *)
Definition namedModelEvents : list JSON :=
  [modelEvent "gpt" 1 0; modelEvent "10" 2 0; modelEvent "4" 3 0;
   modelEvent "constructor" 4 0].





(** An export whose [time] has no [updated]: its [endedAt] is an Invalid
    Date. *)
Definition undatedExport (text : string) : JSON :=
  JObj [("info",
         JObj [("id", JStr "ses_3"); ("directory", JStr "/home/u/app");
               ("title", JStr "Undated");
               ("time", JObj [("created", JNum 1000)])]);
        ("messages", JArr [userEnvelope text])].

(** * The remaining functions *)

(** ** Joining ([Array.prototype.join]) and the searchable text *)

(** [parts.join(sep)] *)
Fixpoint joinWith (sep : string) (parts : list string) : string :=
  match parts with
  | [] => ""
  | [p] => p
  | p :: rest => p ++ sep ++ joinWith sep rest
  end.

(** [getSearchableText(session)] *)
Definition getSearchableText (s : ParsedSession) : string :=
  joinWith " " (userMessages s ++ toolsUsed s ++ filesFromToolCalls s)%list.

(** ** Notions used in the further statements *)

(** No code unit of the text is a line feed. *)
Definition noNewline (l : string) : bool :=
  Str.allChars (fun c => negb (Ascii.eqb c newline)) l.

(** A line as the first loop of [parseSessionContent] can meet one: not
    empty, without line feed. *)
Definition properLine (l : string) : bool :=
  negb (Str.isEmpty l) && noNewline l.

(** The three sets of an accumulator satisfy [P]. *)
Definition setsSatisfy (P : list string -> Prop) (acc : Acc) : Prop :=
  P (accToolsUsed acc) /\ P (accFiles acc) /\ P (accModelsUsed acc).

(** A transcript in which the same tool call occurs twice. *)
Definition repeatedToolEvents : list JSON := [toolEvent; firstEvent; toolEvent].

Definition someUuid : string := "0f8fad5b-d9cb-469f-a165-70867728950e".

(** The tool rule and the file-pattern rule of the filter: one requested
    tool occurs, whatever the case, in the name of one tool of the session;
    the pattern occurs, whatever the case, in one file of the session. *)
Definition toolRule (s : ParsedSession) (options : SearchOptions) : Prop :=
  forall requested,
    tools options = Some requested -> requested <> [] ->
    exists tool t,
      In tool requested /\ In t (toolsUsed s)
      /\ Str.includes (Str.toLowerCase t) (Str.toLowerCase tool) = true.

Definition fileRule (s : ParsedSession) (options : SearchOptions) : Prop :=
  forall pattern,
    filePattern options = Some pattern -> pattern <> EmptyString ->
    exists f,
      In f (filesFromToolCalls s)
      /\ Str.includes (Str.toLowerCase f) (Str.toLowerCase pattern) = true.

(** A session that used [MultiEdit] on [src/App.tsx]. *)
Definition editingSession : ParsedSession :=
  mkParsedSession "ses_2" (Some 0%Z) (Some 0%Z) "" "/home/u/app" "" 2 0 0 0 0
    ["rename the component"] ["MultiEdit"; "Bash"] ["src/App.tsx"] [] []
    (Some "Rename") (Some OpenCode).

Definition toolAndFileOptions (requested : list string) (pattern : string)
  : SearchOptions :=
  mkSearchOptions None None None None (Some requested) (Some pattern) None.

(** ** The session list ([getAllSessionIDs]) *)

Definition isAlnum (c : ascii) : bool :=
  let n := nat_of_ascii c in
  ((97 <=? n) && (n <=? 122) || (65 <=? n) && (n <=? 90)
   || (48 <=? n) && (n <=? 57))%nat.

(** The longest prefix whose code units satisfy [p]. *)
Fixpoint takeWhile (p : ascii -> bool) (s : string) : string :=
  match s with
  | EmptyString => EmptyString
  | String c rest => if p c then String c (takeWhile p rest) else EmptyString
  end.

(** [line.match(/ses_[a-zA-Z0-9]+/)?.[0]]: the leftmost place where [ses_]
    is followed by a letter or digit, with all the letters and digits that
    follow. *)
Fixpoint matchSessionID (line : string) : option string :=
  match line with
  | EmptyString => None
  | String _ rest =>
      if Str.startsWith line "ses_" then
        match takeWhile isAlnum (Str.drop 4 line) with
        | EmptyString => matchSessionID rest
        | String _ _ as run => Some ("ses_" ++ run)
        end
      else matchSessionID rest
  end.

(** [getAllSessionIDs]; [listing] is the output of the listing command,
    [None] when running it throws. *)
Definition getAllSessionIDs (listing : option string) : list string :=
  match listing with
  | None => []
  | Some output =>
      flat_map
        (fun line =>
           match matchSessionID line with
           | Some sessionID => [sessionID]
           | None => []
           end)
        (Str.split newline (Str.trim output))
  end.

(** A letter, a digit or an underscore. *)
Definition isWordChar (c : ascii) : bool :=
  isAlnum c || Ascii.eqb c "_".

(** A listing with a header, two sessions and a line without identifier. *)
Definition someListing : string :=
  joinLines ["Session ID    Title";
             "ses_4a1Bc9  Fix the bug  ses_zz";
             "(no sessions) ses_";
             "  ses_77; rm -rf"].

(** An export without title. *)
Definition untitledExport : JSON :=
  JObj [("info",
         JObj [("id", JStr "ses_9"); ("directory", JStr "/srv");
               ("time", JObj [("created", JNum 1); ("updated", JNum 2)])]);
        ("messages", JArr [userEnvelope "hello"])].

(** ** Synchronisation of exported sessions (the OpenCode sync script) *)

Record SyncOptions : Type := mkSyncOptions {
  syncAll : bool;
  syncDays : option Z;
  syncForce : bool;
  syncLimit : option Z
}.

(** [a >= b] on dates: false as soon as one side is NaN. *)
Definition dateGe (a b : Date) : bool :=
  match a, b with
  | Some x, Some y => (y <=? x)%Z
  | _, _ => false
  end.

(** [matchesDateFilter(session, options)] *)
Definition matchesDateFilter (now : Z) (s : ParsedSession)
  (options : SyncOptions) : bool :=
  match syncDays options with
  | Some n =>
      if (n =? 0)%Z then true
      else dateGe (endedAt s) (dateOfNumber (now - n * msPerDay))
  | None => true
  end.

(** What [syncSession] returns: ['created'], ['updated'], ['skipped'],
    ['error']. *)
Inductive SyncResult : Type := Created | Updated | Skipped | Failed.

(** The values of the upsert that depend on the session. *)
Record SyncedRow : Type := mkSyncedRow {
  rowSession : ParsedSession;
  rowSearchText : string;
  rowSummary : string;
  rowHash : string
}.

(** [session.title || ''] *)
Definition titleOrEmpty (s : ParsedSession) : string :=
  match title s with
  | Some t => t
  | None => ""
  end.

Section Sync.

Variable Date_parse : string -> Date.

(** [sessionHash]: the MD5 digest of [JSON.stringify(session)]. *)
Variable sessionHash : JSON -> string.

(** Whether the upsert statement succeeds on a row; it throws otherwise. *)
Variable upsertSucceeds : SyncedRow -> bool.

(** [syncSession]: [rawSession] is what [exportSession] returned,
    [existingHashes] the map read from the database.  The result comes with
    the row written, if one was.  Whatever is thrown inside is caught and
    gives ['error']. *)
Definition syncSession (now : Z) (rawSession : option JSON)
  (existingHashes : list (string * string)) (options : SyncOptions)
  : outcome (SyncResult * option SyncedRow) :=
  if negb (truthy rawSession) then Return (Failed, None)
  else
    match rawSession with
    | None => Return (Failed, None)
    | Some raw =>
        match parseOpenCodeSession Date_parse raw with
        | TypeError => Return (Failed, None)
        | Unmodelled => Unmodelled
        | Return s =>
            match userMessages s with
            | [] => Return (Skipped, None)
            | _ :: _ =>
                if negb (matchesDateFilter now s options)
                then Return (Skipped, None)
                else
                  let hash := sessionHash raw in
                  let existingHash := lookup (id s) existingHashes in
                  if match existingHash with
                     | Some h => String.eqb h hash
                     | None => false
                     end && negb (syncForce options)
                  then Return (Skipped, None)
                  else
                    let searchText :=
                      joinWith " " (titleOrEmpty s :: userMessages s) in
                    let row := mkSyncedRow s searchText (titleOrEmpty s) hash in
                    if upsertSucceeds row then
                      Return (match existingHash with
                              | Some (String _ _) => Updated
                              | _ => Created
                              end, Some row)
                    else Return (Failed, None)
            end
        end
    end.

End Sync.

(** The statistics object of [sync]: its four declared counters, and
    whether it has got a property named [error], whose value is NaN. *)
Record SyncStats : Type := mkSyncStats {
  created : Z;
  updated : Z;
  skipped : Z;
  errors : Z;
  errorProperty : bool
}.

Definition noStats : SyncStats := mkSyncStats 0 0 0 0 false.

(** [stats[result]++] *)
Definition countResult (stats : SyncStats) (result : SyncResult) : SyncStats :=
  match result with
  | Created =>
      mkSyncStats (created stats + 1) (updated stats) (skipped stats)
        (errors stats) (errorProperty stats)
  | Updated =>
      mkSyncStats (created stats) (updated stats + 1) (skipped stats)
        (errors stats) (errorProperty stats)
  | Skipped =>
      mkSyncStats (created stats) (updated stats) (skipped stats + 1)
        (errors stats) (errorProperty stats)
  | Failed =>
      mkSyncStats (created stats) (updated stats) (skipped stats)
        (errors stats) true
  end.

(** The loop of [sync] over the results of [syncSession]. *)
Definition tally (results : list SyncResult) : SyncStats :=
  fold_left countResult results noStats.

Definition daysOnly (n : Z) : SyncOptions := mkSyncOptions false (Some n) false None.

(** A session whose [endedAt] is an Invalid Date. *)
Definition undatedSession : ParsedSession :=
  mkParsedSession "ses_3" None None "" "/srv" "" 1 0 0 0 0
    ["hello"] [] [] [] [] (Some "Undated") (Some OpenCode).

(** [sync], from the sessions exported for the identifiers of the list:
    each is synchronised and its result counted. *)
Definition sync (Date_parse : string -> Date) (sessionHash : JSON -> string)
  (upsertSucceeds : SyncedRow -> bool) (now : Z)
  (exported : list (option JSON)) (existingHashes : list (string * string))
  (options : SyncOptions) : outcome SyncStats :=
  forOf
    (fun stats rawSession =>
       let* outcomeOfSession :=
         syncSession Date_parse sessionHash upsertSucceeds now rawSession
           existingHashes options in
       Return (countResult stats (fst outcomeOfSession)))
    exported noStats.

(** ** The transcripts to synchronise ([findFilesToSync], Claude Code sync) *)

(** [s.endsWith(suffix)] *)
Definition endsWith (s suffix : string) : bool :=
  (String.length suffix <=? String.length s)%nat
  && String.eqb (Str.drop (String.length s - String.length suffix) s) suffix.

Record FoundFile : Type := mkFoundFile {
  path : string;
  mtime : Z
}.

(** [cutoffDate && stat.mtime < cutoffDate] *)
Definition olderThan (cutoff : option Date) (m : Z) : bool :=
  match cutoff with
  | Some c => dateLt (Some m) c
  | None => false
  end.

Section FindFiles.

(** [path.join] *)
Variable join : string -> string -> string.

(** The loop over the entries of one directory, inside its [try]: each
    entry comes with what [statSync] gives for it, [None] when it throws,
    which ends the loop of this directory. *)
Fixpoint scanDir (cutoff : option Date) (dir : string)
  (entries : list (string * option Z)) (files : list FoundFile)
  : list FoundFile :=
  match entries with
  | [] => files
  | (file, stat) :: rest =>
      if negb (endsWith file ".jsonl") then scanDir cutoff dir rest files
      else
        match stat with
        | None => files
        | Some m =>
            if olderThan cutoff m then scanDir cutoff dir rest files
            else scanDir cutoff dir rest
                   (files ++ [mkFoundFile (join dir file) m])%list
        end
  end.

(** The loop over the session directories; [None] for a directory that
    [readdirSync] cannot read. *)
Fixpoint scanDirs (cutoff : option Date)
  (sessionDirs : list (string * option (list (string * option Z))))
  (files : list FoundFile) : list FoundFile :=
  match sessionDirs with
  | [] => files
  | (dir, None) :: rest => scanDirs cutoff rest files
  | (dir, Some entries) :: rest =>
      scanDirs cutoff rest (scanDir cutoff dir entries files)
  end.

Definition newestFirst (a b : FoundFile) : Z := (mtime b - mtime a)%Z.

(** [findFilesToSync]; [sessionDirs] is what [findSessionDirs] found, each
    directory with its listing. *)
Definition findFilesToSync (now : Z)
  (sessionDirs : list (string * option (list (string * option Z))))
  (options : SyncOptions) : list FoundFile :=
  let cutoffDate :=
    match syncDays options with
    | Some n =>
        if (n =? 0)%Z then None else Some (dateOfNumber (now - n * msPerDay))
    | None => None
    end in
  let files := sortBy newestFirst (scanDirs cutoffDate sessionDirs []) in
  match syncLimit options with
  | Some n => if (n =? 0)%Z then files else slice0 n files
  | None => files
  end.

(** [f] stands for a [.jsonl] entry of a readable session directory, with
    its modification time. *)
Definition listedIn
  (sessionDirs : list (string * option (list (string * option Z))))
  (f : FoundFile) : Prop :=
  exists dir entries file,
    In (dir, Some entries) sessionDirs
    /\ In (file, Some (mtime f)) entries
    /\ endsWith file ".jsonl" = true
    /\ path f = join dir file.

End FindFiles.

(** [dir + '/' + file], which is [path.join] on plain names. *)
Definition slashJoin (dir file : string) : string := dir ++ "/" ++ file.

Definition someDirs : list (string * option (list (string * option Z))) :=
  [("/p/a", Some [("one.jsonl", Some 100%Z); ("notes.txt", Some 900%Z);
                  ("two.jsonl", Some 300%Z)]);
   ("/p/locked", None);
   ("/p/b", Some [("three.jsonl", Some 200%Z); ("gone.jsonl", None);
                  ("four.jsonl", Some 400%Z)])].

(** ** Notions used in the further statements: paths in a tool input *)

(** [s] is a string with a path separator, stored under a path key of the
    input or of a plain object nested in it, at any depth; at the top the
    input may also be an array, whose elements that are plain objects
    count. *)
Inductive pathIn : JSON -> string -> Prop :=
| pathIn_here (kvs : list (string * JSON)) (key s : string) :
    In (key, JStr s) kvs -> isPathKey key = true -> looksLikePath s = true ->
    pathIn (JObj kvs) s
| pathIn_nested (kvs inner : list (string * JSON)) (key s : string) :
    In (key, JObj inner) kvs -> pathIn (JObj inner) s -> pathIn (JObj kvs) s
| pathIn_element (elems : list JSON) (inner : list (string * JSON)) (s : string) :
    In (JObj inner) elems -> pathIn (JObj inner) s -> pathIn (JArr elems) s.

(** A tool input with a path three objects deep, a path without separator,
    and a path inside an array. *)
Definition deepInput : JSON :=
  JObj [("options", JObj [("target", JObj [("file", JStr "src/deep.ts")])]);
        ("path", JStr "README");
        ("edits", JArr [JObj [("file_path", JStr "src/hidden.ts")]])].
(** * Properties *)

Unset Implicit Arguments.
Open Scope list_scope.

(** ** Induction on JSON trees *)

Section JSON_induction.

Variable P : JSON -> Prop.
Hypothesis HNull : P JNull.
Hypothesis HBool : forall b, P (JBool b).
Hypothesis HNum : forall z, P (JNum z).
Hypothesis HStr : forall s, P (JStr s).
Hypothesis HArr : forall elems, Forall P elems -> P (JArr elems).
Hypothesis HObj :
  forall kvs, Forall (fun kv => P (snd kv)) kvs -> P (JObj kvs).

Lemma JSON_nested_ind (j : JSON) : P j.
Proof.
  revert j. fix IH 1. intros [ | b | z | s | elems | kvs ].
  - exact HNull.
  - exact (HBool b).
  - exact (HNum z).
  - exact (HStr s).
  - apply HArr. induction elems as [|x rest IHrest]; constructor.
    + apply IH.
    + exact IHrest.
  - apply HObj. induction kvs as [|kv rest IHrest]; constructor.
    + apply IH.
    + exact IHrest.
Qed.

End JSON_induction.

(** ** Loops *)

Lemma bind_Return {A B : Type} (m : outcome A) (k : A -> outcome B) (b : B) :
  bind m k = Return b -> exists a, m = Return a /\ k a = Return b.
Proof.
  destruct m as [a| |]; simpl; intros H; try discriminate.
  exists a; split; [reflexivity | exact H].
Qed.

Lemma forOf_invariant {A S : Type} (I : S -> Prop)
  (body : S -> A -> outcome S) (xs : list A) :
  (forall s x s', In x xs -> I s -> body s x = Return s' -> I s') ->
  forall s s', I s -> forOf body xs s = Return s' -> I s'.
Proof.
  induction xs as [|x rest IH]; simpl; intros Hstep s s' Hs Hrun.
  - injection Hrun as <-. exact Hs.
  - apply bind_Return in Hrun as (s1 & Hx & Hrest).
    apply (IH (fun t y t' Hin => Hstep t y t' (or_intror Hin)) s1 s');
      [|exact Hrest].
    apply (Hstep s x s1); [left; reflexivity | exact Hs | exact Hx].
Qed.


(** ** Sets of strings *)

Lemma setAdd_Forall (P : string -> Prop) (x : string) (s : list string) :
  P x -> Forall P s -> Forall P (setAdd x s).
Proof.
  intros Hx Hs. unfold setAdd.
  destruct (existsb (String.eqb x) s); [exact Hs|].
  apply Forall_app; split; [exact Hs | constructor; [exact Hx | constructor]].
Qed.


(** ** File paths of the line-delimited extractor *)

Lemma extractFilePaths_pathLike (input : JSON) :
  forall files, Forall pathLike files ->
                Forall pathLike (extractFilePaths input files).
Proof.
  induction input as [ | b | z | s | elems IH | kvs IH ] using JSON_nested_ind;
    intros files Hfiles; simpl; try exact Hfiles.
  - revert files Hfiles.
    induction IH as [|value rest Hvalue _ IHrest]; intros files Hfiles;
      [exact Hfiles|].
    apply IHrest. destruct value; try exact Hfiles.
    apply Hvalue. exact Hfiles.
  - revert files Hfiles.
    induction IH as [|[key value] rest Hvalue _ IHrest]; intros files Hfiles;
      [exact Hfiles|].
    apply IHrest. simpl in Hvalue.
    assert (H1 : Forall pathLike
                   match value with
                   | JStr s =>
                       if isPathKey key && looksLikePath s then setAdd s files
                       else files
                   | _ => files
                   end).
    { destruct value; try exact Hfiles.
      destruct (isPathKey key); simpl; [|exact Hfiles].
      destruct (looksLikePath s) eqn:E; [|exact Hfiles].
      apply setAdd_Forall; [exact E | exact Hfiles]. }
    destruct value; try exact H1.
    apply Hvalue. exact H1.
Qed.

Ltac unbind H :=
  repeat (let a := fresh "v" in
          let Ha := fresh "Hv" in
          apply bind_Return in H as (a & Ha & H)).

Lemma extractFromContentBlock_files (acc acc' : Acc) (block : JSON) :
  extractFromContentBlock acc block = Return acc' ->
  Forall pathLike (accFiles acc) -> Forall pathLike (accFiles acc').
Proof.
  unfold extractFromContentBlock. intros H Hacc.
  unbind H. destruct (isStr "tool_use" v).
  - unbind H. destruct (truthy v0).
    + unbind H. injection H as <-. simpl.
      destruct v2 as [obj|]; [|exact Hacc].
      destruct (truthy (Some obj)); [|exact Hacc].
      apply extractFilePaths_pathLike. exact Hacc.
    + injection H as <-. exact Hacc.
  - injection H as <-. exact Hacc.
Qed.

Lemma trackModel_files (model : option JSON) (acc acc' : Acc) :
  trackModel model acc = Return acc' -> accFiles acc' = accFiles acc.
Proof.
  unfold trackModel. destruct (truthy model); intros H.
  - unbind H. injection H as <-. reflexivity.
  - injection H as <-. reflexivity.
Qed.

Lemma accumulateUsage_files (model usage : option JSON) (acc acc' : Acc) :
  accumulateUsage model usage acc = Return acc' -> accFiles acc' = accFiles acc.
Proof.
  unfold accumulateUsage. destruct (truthy usage); intros H.
  - unbind H. injection H as <-. reflexivity.
  - injection H as <-. reflexivity.
Qed.

Lemma processMessage_files (acc acc' : Acc) (msg : JSON) :
  processMessage acc msg = Return acc' ->
  Forall pathLike (accFiles acc) -> Forall pathLike (accFiles acc').
Proof.
  unfold processMessage. intros H Hacc. unbind H.
  destruct (isStr "user" v).
  - unbind H.
    destruct v1 as [[ | | | text | | ]|]; try (injection H as <-; exact Hacc).
    destruct (negb (Str.isEmpty (Str.trim text))); injection H as <-; exact Hacc.
  - destruct (isStr "assistant" v); [|injection H as <-; exact Hacc].
    unbind H.
    apply trackModel_files in Hv2. apply accumulateUsage_files in Hv4.
    assert (Hacc2 : Forall pathLike (accFiles v4))
      by (rewrite Hv4, Hv2; exact Hacc).
    destruct v5 as [[ | | | | blocks | ]|]; try (injection H as <-; exact Hacc2).
    revert H.
    apply (forOf_invariant (fun a => Forall pathLike (accFiles a)));
      [|exact Hacc2].
    intros s x s' _ Hs Hx. exact (extractFromContentBlock_files _ _ _ Hx Hs).
Qed.

(** Every session the line-delimited extractor returns lists, as files, only
    strings that hold a path separator. *)
Lemma parseSessionContent_files_pathLike
  (JSON_parse : string -> option JSON) (Date_parse : string -> Date)
  (content : string) (sessionId : option string) (s : ParsedSession) :
  parseSessionContent JSON_parse Date_parse content sessionId = Return (Some s) ->
  Forall pathLike (filesFromToolCalls s).
Proof.
  unfold parseSessionContent, buildSession.
  destruct (linesOf content) as [|l ls]; [discriminate|].
  destruct (collectMessages JSON_parse (l :: ls)) as [|m ms]; [discriminate|].
  intros H. unbind H. injection H as <-. simpl.
  revert Hv.
  apply (forOf_invariant (fun a => Forall pathLike (accFiles a)));
    [|constructor].
  intros acc x acc' _ Hacc Hx. exact (processMessage_files _ _ _ Hx Hacc).
Qed.

(** C1 (structured-export half, evaluated): the export whose tool call has
    the parameter [filePath = "README.md"] yields a session whose
    [filesFromToolCalls] is [["README.md"]], a string without any path
    separator; the line-delimited half of the invariant is
    [parseSessionContent_files_pathLike]. *)
Theorem C1_opencode_keeps_file_without_separator (Date_parse : string -> Date) :
  exists s,
    parseOpenCodeSession Date_parse readmeExport = Return s
    /\ filesFromToolCalls s = ["README.md"]
    /\ looksLikePath "README.md" = false.
Proof.
  eexists. split; [reflexivity|]. split; reflexivity.
Qed.

(** ** Token totals *)

(** ** Numbers and counters *)

Lemma roundDouble_exact (z : Z) :
  (Z.abs z <= 2 ^ 53)%Z -> roundDouble z = z.
Proof.
  intros H. unfold roundDouble. apply Z.leb_le in H. rewrite H. reflexivity.
Qed.

Lemma number_exact (z : Z) : (Z.abs z <= 2 ^ 53)%Z -> number z = Return z.
Proof.
  intros H. unfold number. rewrite (roundDouble_exact z H).
  destruct (Z.ltb_spec (Z.abs z) (2 ^ 1024)) as [_|Hbig]; [reflexivity|].
  exfalso.
  assert (Hpow : (2 ^ 53 < 2 ^ 1024)%Z) by (apply Z.pow_lt_mono_r; lia).
  lia.
Qed.

Lemma number_Return (z r : Z) : number z = Return r -> r = roundDouble z.
Proof.
  unfold number. destruct (Z.abs (roundDouble z) <? 2 ^ 1024)%Z;
    [intros [= <-]; reflexivity | discriminate].
Qed.

Lemma plus_exact (a b : Z) :
  (Z.abs a + Z.abs b <= 2 ^ 53)%Z -> plus a b = Return (a + b)%Z.
Proof.
  intros H. unfold plus. apply number_exact.
  apply (Z.le_trans _ _ _ (Z.abs_triangle a b) H).
Qed.

Lemma size_nonneg (t : TokenCount) : (0 <= size t)%Z.
Proof. unfold size. lia. Qed.

Lemma size_addTokens (t u : TokenCount) :
  (size (addTokens t u) <= size t + size u)%Z.
Proof. unfold size, addTokens. simpl. lia. Qed.

Lemma accumulate_exact (t u : TokenCount) :
  (size t + size u <= 2 ^ 53)%Z -> accumulate t u = Return (addTokens t u).
Proof.
  unfold size. intros H. unfold accumulate.
  rewrite !plus_exact by lia. reflexivity.
Qed.

Lemma tokens_eq (a b : TokenCount) :
  input a = input b -> output a = output b ->
  cacheCreation a = cacheCreation b -> cacheRead a = cacheRead b -> a = b.
Proof.
  destruct a, b; simpl; intros -> -> -> ->; reflexivity.
Qed.

Ltac tokens := apply tokens_eq; simpl; lia.

Lemma addTokens_zero_r (a : TokenCount) : addTokens a zeroTokens = a.
Proof. tokens. Qed.

Lemma addTokens_zero_l (a : TokenCount) : addTokens zeroTokens a = a.
Proof. tokens. Qed.

Lemma addTokens_assoc (a b c : TokenCount) :
  addTokens a (addTokens b c) = addTokens (addTokens a b) c.
Proof. tokens. Qed.

Lemma addTokens_comm (a b : TokenCount) : addTokens a b = addTokens b a.
Proof. tokens. Qed.

(** ** Own properties in the order of enumeration *)

Lemma lookup_app_new {V : Type} (m : string) (v : V) (l : list (string * V)) :
  lookup m (l ++ [(m, v)]) <> None.
Proof.
  induction l as [|[k t] rest IH]; simpl.
  - rewrite String.eqb_refl. discriminate.
  - destruct (String.eqb m k); [discriminate | exact IH].
Qed.

Lemma lookup_placeIndex {V : Type} (n : N) (m : string) (v : V)
  (l : list (string * V)) :
  lookup m (placeIndex n m v l) <> None.
Proof.
  induction l as [|[k t] rest IH]; simpl.
  - rewrite String.eqb_refl. discriminate.
  - destruct (arrayIndex k) as [n'|]; [destruct (n' <? n)%N|]; simpl;
      try (rewrite String.eqb_refl; discriminate).
    destruct (String.eqb m k); [discriminate | exact IH].
Qed.

Lemma lookup_defineProperty {V : Type} (m : string) (v : V)
  (l : list (string * V)) :
  lookup m (defineProperty m v l) <> None.
Proof.
  unfold defineProperty. destruct (arrayIndex m) as [n|].
  - apply lookup_placeIndex.
  - apply lookup_app_new.
Qed.

Lemma placeIndex_Permutation {V : Type} (n : N) (k : string) (v : V)
  (l : list (string * V)) :
  Permutation (placeIndex n k v l) ((k, v) :: l).
Proof.
  induction l as [|[k' v'] rest IH]; simpl; [reflexivity|].
  destruct (arrayIndex k') as [n'|]; [destruct (n' <? n)%N|]; try reflexivity.
  rewrite IH. apply perm_swap.
Qed.

Lemma defineProperty_Permutation {V : Type} (k : string) (v : V)
  (l : list (string * V)) :
  Permutation (defineProperty k v l) ((k, v) :: l).
Proof.
  unfold defineProperty. destruct (arrayIndex k) as [n|].
  - apply placeIndex_Permutation.
  - symmetry. apply Permutation_cons_append.
Qed.

Lemma sumTokens_Permutation (l l' : list (string * TokenCount)) :
  Permutation l l' -> sumTokens l = sumTokens l'.
Proof.
  induction 1 as [|x l l' _ IH|x y l|l l' l'' _ IH1 _ IH2]; simpl.
  - reflexivity.
  - rewrite IH. reflexivity.
  - rewrite !addTokens_assoc. f_equal. apply addTokens_comm.
  - rewrite IH1. exact IH2.
Qed.

Lemma sumTokens_new_bucket (m : string) (buckets : list (string * TokenCount)) :
  sumTokens (defineProperty m zeroTokens buckets) = sumTokens buckets.
Proof.
  rewrite (sumTokens_Permutation _ _ (defineProperty_Permutation m _ buckets)).
  simpl. apply addTokens_zero_l.
Qed.

Lemma within_new_bucket (B : Z) (m : string)
  (buckets : list (string * TokenCount)) :
  (0 <= B)%Z ->
  Forall (fun kv => (size (snd kv) <= B)%Z) buckets ->
  Forall (fun kv => (size (snd kv) <= B)%Z) (defineProperty m zeroTokens buckets).
Proof.
  intros HB Hall. rewrite Forall_forall in *. intros kv Hin.
  apply (Permutation_in _ (defineProperty_Permutation m zeroTokens buckets)) in Hin.
  destruct Hin as [<- | Hin]; [exact HB | apply Hall, Hin].
Qed.

(** ** The [+=] of a bucket *)

Lemma sumTokens_cons (kv : string * TokenCount)
  (l : list (string * TokenCount)) :
  sumTokens (kv :: l) = addTokens (snd kv) (sumTokens l).
Proof. reflexivity. Qed.

Lemma addTokens_swap (t u s : TokenCount) :
  addTokens (addTokens t u) s = addTokens (addTokens t s) u.
Proof. tokens. Qed.

Lemma addToBucket_exact (m : string) (u : TokenCount) (B : Z)
  (buckets : list (string * TokenCount)) :
  Forall (fun kv => (size (snd kv) <= B)%Z) buckets ->
  (B + size u <= 2 ^ 53)%Z ->
  exists buckets',
    addToBucket m u buckets = Return buckets'
    /\ map fst buckets' = map fst buckets
    /\ Forall (fun kv => (size (snd kv) <= B + size u)%Z) buckets'
    /\ (lookup m buckets <> None ->
        sumTokens buckets' = addTokens (sumTokens buckets) u).
Proof.
  intros Hall Hfit. pose proof (size_nonneg u) as Hu.
  induction Hall as [|[k t] rest Ht Hrest IH]; simpl.
  - exists []. repeat split; [constructor | intros H; contradiction].
  - simpl in Ht. destruct (String.eqb m k).
    + rewrite accumulate_exact by lia. simpl.
      eexists. split; [reflexivity|]. split; [reflexivity|]. split.
      * constructor; [simpl; pose proof (size_addTokens t u); lia|].
        rewrite Forall_forall in *. intros kv Hkv.
        specialize (Hrest kv Hkv). lia.
      * intros _. rewrite !sumTokens_cons. apply addTokens_swap.
    + destruct IH as (rest' & -> & Hkeys & Hwithin & Hsum). simpl.
      eexists. split; [reflexivity|]. split; [simpl; rewrite Hkeys; reflexivity|].
      split.
      * constructor; [simpl; lia | exact Hwithin].
      * intros Hin. rewrite !sumTokens_cons, (Hsum Hin). apply addTokens_assoc.
Qed.

(** ** Reading a usage record *)

Lemma numberOrZero_written (k : string) (usage : JSON) (z : Z) :
  usage <> JNull ->
  bind (prop k (Some usage)) numberOrZero = Return z ->
  z = roundDouble (counter k usage).
Proof.
  intros Hu. unfold counter.
  destruct usage as [ | b | x | s | elems | fields ]; simpl;
    try contradiction; try (intros [= <-]; reflexivity).
  destruct (lookup k fields) as [[ | [|] | x | [|c s] | elems | kvs ]|]; simpl;
    try discriminate; try (intros [= <-]; reflexivity).
  apply number_Return.
Qed.

Lemma readUsage_written (usage : JSON) (u : TokenCount) :
  usage <> JNull ->
  readUsage (Some usage) = Return u ->
  (size (writtenCounters usage) <= 2 ^ 53)%Z ->
  u = writtenCounters usage.
Proof.
  intros Hu H Hfit. unfold readUsage in H.
  apply bind_Return in H as (i & Hi & H).
  apply bind_Return in H as (o & Ho & H).
  apply bind_Return in H as (cc & Hcc & H).
  apply bind_Return in H as (cr & Hcr & H).
  injection H as <-.
  apply (numberOrZero_written _ _ _ Hu) in Hi, Ho, Hcc, Hcr.
  unfold writtenCounters, size in *. simpl in Hfit.
  rewrite roundDouble_exact in Hi, Ho, Hcc, Hcr by lia.
  subst. reflexivity.
Qed.

(** ** The counters through the second loop *)

Lemma isStr_true (lit : string) (v : option JSON) :
  isStr lit v = true -> v = Some (JStr lit).
Proof.
  destruct v as [[ | | | s | | ]|]; simpl; try discriminate.
  intros H. apply String.eqb_eq in H. subst s. reflexivity.
Qed.

Lemma truthy_Some (v : option JSON) :
  truthy v = true -> exists j, v = Some j /\ j <> JNull.
Proof.
  destruct v as [[ | | | | | ]|]; simpl; intros H; try discriminate;
    eexists; split; try reflexivity; discriminate.
Qed.

Lemma countersWithin_mono (B B' : Z) (acc : Acc) :
  (B <= B')%Z -> countersWithin B acc -> countersWithin B' acc.
Proof.
  intros HB [Ht Hb]. split; [lia|].
  rewrite Forall_forall in *. intros kv Hkv. specialize (Hb kv Hkv). lia.
Qed.

Lemma namesBucket_true (model : option JSON) :
  namesBucket model = true ->
  exists m, model = Some (JStr m) /\ truthy model = true
            /\ isInherited m = false.
Proof.
  destruct model as [[ | | | m | | ]|]; simpl; try discriminate.
  intros H. apply andb_true_iff in H as [Hne Hown].
  exists m. split; [reflexivity|]. split; [exact Hne|].
  apply negb_true_iff. exact Hown.
Qed.

Lemma extractFromContentBlock_tokens (acc acc' : Acc) (block : JSON) :
  extractFromContentBlock acc block = Return acc' ->
  accTotals acc' = accTotals acc /\ accModelTokens acc' = accModelTokens acc.
Proof.
  unfold extractFromContentBlock. intros H. unbind H.
  destruct (isStr "tool_use" v); [|injection H as <-; split; reflexivity].
  unbind H. destruct (truthy v0); [|injection H as <-; split; reflexivity].
  unbind H. injection H as <-. split; reflexivity.
Qed.

Lemma trackModel_counters (model : option JSON) (acc acc' : Acc) (B : Z) :
  trackModel model acc = Return acc' ->
  (0 <= B)%Z ->
  countersWithin B acc ->
  countersWithin B acc'
  /\ accTotals acc' = accTotals acc
  /\ sumTokens (accModelTokens acc') = sumTokens (accModelTokens acc)
  /\ (forall m, model = Some (JStr m) -> isInherited m = false ->
                truthy model = true ->
                lookup m (accModelTokens acc') <> None).
Proof.
  unfold trackModel. intros H HB [Ht Hb].
  destruct (truthy model) eqn:Etruthy.
  - apply bind_Return in H as (m & Hm & H). injection H as <-. simpl.
    destruct (isInherited m) eqn:Einh.
    + repeat split; try assumption.
      intros m' -> Hown _. simpl in Hm. injection Hm as ->.
      rewrite Hown in Einh. discriminate.
    + destruct (lookup m (accModelTokens acc)) eqn:Elook.
      * repeat split; try assumption.
        intros m' -> _ _. simpl in Hm. injection Hm as ->.
        rewrite Elook. discriminate.
      * split; [split; [exact Ht | apply within_new_bucket; assumption]|].
        split; [reflexivity|]. split; [apply sumTokens_new_bucket|].
        intros m' -> _ _. simpl in Hm. injection Hm as ->.
        apply lookup_defineProperty.
  - injection H as <-. repeat split; try assumption.
    intros m _ _ Hfalse. discriminate.
Qed.

Lemma size_writtenUsage_falsy (usage : option JSON) :
  truthy usage = false -> writtenUsage usage = zeroTokens.
Proof.
  unfold writtenUsage. intros H. destruct usage as [u|]; [|reflexivity].
  rewrite H. reflexivity.
Qed.

Lemma accumulateUsage_counters (model usage : option JSON) (acc acc' : Acc)
  (B : Z) :
  accumulateUsage model usage acc = Return acc' ->
  (0 <= B)%Z ->
  countersWithin B acc ->
  (B + size (writtenUsage usage) <= 2 ^ 53)%Z ->
  countersWithin (B + size (writtenUsage usage)) acc'
  /\ accTotals acc' = addTokens (accTotals acc) (writtenUsage usage)
  /\ (implb (truthy usage) (namesBucket model) = true ->
      (forall m, model = Some (JStr m) -> isInherited m = false ->
                 truthy model = true ->
                 lookup m (accModelTokens acc) <> None) ->
      sumTokens (accModelTokens acc')
      = addTokens (sumTokens (accModelTokens acc)) (writtenUsage usage)).
Proof.
  unfold accumulateUsage. intros H HB Hacc Hfit.
  pose proof (size_nonneg (writtenUsage usage)) as Hsize.
  destruct (truthy usage) eqn:Etruthy.
  - destruct (truthy_Some usage Etruthy) as (us & -> & Hus).
    assert (Hw : writtenUsage (Some us) = writtenCounters us)
      by (unfold writtenUsage; rewrite Etruthy; reflexivity).
    rewrite Hw in *. destruct Hacc as [Ht Hb].
    apply bind_Return in H as (u & Hu & H).
    apply (readUsage_written us u Hus) in Hu; [subst u | lia].
    rewrite accumulate_exact in H by lia. simpl in H.
    apply bind_Return in H as (buckets & Hbuckets & H). injection H as <-.
    simpl.
    destruct (addToBucket_exact
                match model with Some (JStr m) => m | _ => EmptyString end
                (writtenCounters us) B (accModelTokens acc) Hb Hfit)
      as (added & Hadd & _ & Hadded & Hsum).
    assert (Hkeep : Forall (fun kv => (size (snd kv) <= B + size (writtenCounters us))%Z)
                      (accModelTokens acc)).
    { rewrite Forall_forall in *. intros kv Hkv. specialize (Hb kv Hkv). lia. }
    split; [|split; [reflexivity|]].
    + split; [simpl; pose proof (size_addTokens (accTotals acc) (writtenCounters us)); lia|].
      simpl. destruct (truthy model); [|injection Hbuckets as <-; exact Hkeep].
      apply bind_Return in Hbuckets as (m & Hm & Hbuckets).
      destruct model as [[ | | | m' | | ]|]; simpl in Hm; try discriminate.
      injection Hm as ->.
      destruct (isInherited m); [injection Hbuckets as <-; exact Hkeep|].
      destruct (lookup m (accModelTokens acc));
        [|injection Hbuckets as <-; exact Hkeep].
      simpl in Hadd. rewrite Hadd in Hbuckets. injection Hbuckets as <-.
      exact Hadded.
    + simpl. intros Hnames Hbucket.
      destruct (namesBucket_true model Hnames) as (m & -> & Hm & Hown).
      rewrite Hm in Hbuckets. simpl in Hbuckets. rewrite Hown in Hbuckets.
      specialize (Hbucket m eq_refl Hown Hm). simpl in Hadd, Hsum.
      destruct (lookup m (accModelTokens acc)) eqn:Elook; [|contradiction].
      rewrite Hadd in Hbuckets. injection Hbuckets as <-.
      apply Hsum. discriminate.
  - injection H as <-. rewrite (size_writtenUsage_falsy usage Etruthy) in *.
    split; [apply (countersWithin_mono B); [lia | exact Hacc]|].
    split; [symmetry; apply addTokens_zero_r|].
    intros _ _. symmetry. apply addTokens_zero_r.
Qed.

Lemma forOf_blocks_tokens (blocks : list JSON) (acc acc' : Acc) :
  forOf extractFromContentBlock blocks acc = Return acc' ->
  accTotals acc' = accTotals acc /\ accModelTokens acc' = accModelTokens acc.
Proof.
  apply (forOf_invariant
           (fun a => accTotals a = accTotals acc
                     /\ accModelTokens a = accModelTokens acc));
    [|split; reflexivity].
  intros s x s' _ [Ht Hb] Hx.
  apply extractFromContentBlock_tokens in Hx as [-> ->]. split; assumption.
Qed.

Lemma countersWithin_same (B : Z) (acc acc' : Acc) :
  accTotals acc' = accTotals acc ->
  accModelTokens acc' = accModelTokens acc ->
  countersWithin B acc -> countersWithin B acc'.
Proof. unfold countersWithin. intros -> ->. tauto. Qed.

Lemma totalsAreBucketSums_same (acc acc' : Acc) :
  accTotals acc' = accTotals acc ->
  accModelTokens acc' = accModelTokens acc ->
  totalsAreBucketSums acc -> totalsAreBucketSums acc'.
Proof. unfold totalsAreBucketSums. intros -> ->. tauto. Qed.

(** An event that is not an assistant event with a message leaves the
    counters as they are. *)
Lemma processMessage_counters_kept (acc acc' : Acc) (B : Z) (msg : JSON) :
  accTotals acc' = accTotals acc ->
  accModelTokens acc' = accModelTokens acc ->
  usageOfEvent msg = zeroTokens ->
  countersWithin B acc ->
  countersWithin (B + size (usageOfEvent msg)) acc'
  /\ (usageHasModel msg = true ->
      totalsAreBucketSums acc -> totalsAreBucketSums acc').
Proof.
  intros Ht Hb -> Hacc. split.
  - apply (countersWithin_same _ acc); try assumption.
    apply (countersWithin_mono B); [unfold size; simpl; lia | exact Hacc].
  - intros _. apply totalsAreBucketSums_same; assumption.
Qed.

Lemma processMessage_counters (acc acc' : Acc) (msg : JSON) (B : Z) :
  processMessage acc msg = Return acc' ->
  (0 <= B)%Z ->
  countersWithin B acc ->
  (B + size (usageOfEvent msg) <= 2 ^ 53)%Z ->
  countersWithin (B + size (usageOfEvent msg)) acc'
  /\ (usageHasModel msg = true ->
      totalsAreBucketSums acc -> totalsAreBucketSums acc').
Proof.
  unfold processMessage. intros H HB Hacc Hfit.
  destruct msg as [ | b | z | s | elems | fields ]; simpl in H;
    try discriminate;
    try (injection H as <-;
         apply processMessage_counters_kept; (reflexivity || exact Hacc)).
  destruct (isStr "user" (lookup "type" fields)) eqn:Euser.
  - assert (Hzero : usageOfEvent (JObj fields) = zeroTokens).
    { apply isStr_true in Euser. simpl. rewrite Euser. reflexivity. }
    apply bind_Return in H as (content & _ & H).
    destruct content as [[ | | | text | | ]|];
      try (injection H as <-;
           apply processMessage_counters_kept;
           (reflexivity || assumption)).
    destruct (negb (Str.isEmpty (Str.trim text))); injection H as <-;
      apply processMessage_counters_kept; (reflexivity || assumption).
  - destruct (isStr "assistant" (lookup "type" fields)) eqn:Eassistant;
      [|injection H as <-; apply processMessage_counters_kept;
        [reflexivity | reflexivity | simpl; rewrite Eassistant; reflexivity
        | exact Hacc]].
    apply bind_Return in H as (model & Hmodel & H).
    apply bind_Return in H as (acc1 & Htrack & H).
    apply bind_Return in H as (usage & Husage & H).
    apply bind_Return in H as (acc2 & Haccumulate & H).
    apply bind_Return in H as (content & _ & H).
    assert (Hwritten : usageOfEvent (JObj fields) = writtenUsage usage).
    { simpl. rewrite Eassistant.
      destruct (lookup "message" fields) as [[ | | | | | m ]|];
        simpl in Husage; try discriminate; injection Husage as <-;
        reflexivity. }
    assert (Hdeclares : usageHasModel (JObj fields)
                        = implb (truthy usage) (namesBucket model)).
    { unfold usageHasModel. simpl. rewrite Eassistant, Hmodel, Husage.
      reflexivity. }
    rewrite Hwritten in *. rewrite Hdeclares.
    destruct (trackModel_counters _ _ _ B Htrack HB Hacc)
      as (Hacc1 & Ht1 & Hs1 & Hbucket).
    destruct (accumulateUsage_counters _ _ _ _ B Haccumulate HB Hacc1 Hfit)
      as (Hacc2 & Ht2 & Hs2).
    assert (Hkept : accTotals acc' = accTotals acc2
                    /\ accModelTokens acc' = accModelTokens acc2).
    { destruct content as [[ | | | | blocks | ]|];
        try (injection H as <-; split; reflexivity).
      exact (forOf_blocks_tokens _ _ _ H). }
    destruct Hkept as [Ht' Hb']. split.
    + apply (countersWithin_same _ acc2); assumption.
    + intros Himp Hsum. apply (totalsAreBucketSums_same acc2); try assumption.
      unfold totalsAreBucketSums in *.
      rewrite Ht2, (Hs2 Himp Hbucket), Ht1, Hs1, Hsum. reflexivity.
Qed.

Lemma tokenMass_nonneg (messages : list JSON) : (0 <= tokenMass messages)%Z.
Proof.
  induction messages as [|msg rest IH]; simpl; [lia|].
  pose proof (size_nonneg (usageOfEvent msg)). lia.
Qed.

Lemma forOf_processMessage_counters (messages : list JSON) :
  forall acc acc' B,
    forOf processMessage messages acc = Return acc' ->
    (0 <= B)%Z ->
    countersWithin B acc ->
    (B + tokenMass messages <= 2 ^ 53)%Z ->
    countersWithin (B + tokenMass messages) acc'
    /\ (forallb usageHasModel messages = true ->
        totalsAreBucketSums acc -> totalsAreBucketSums acc').
Proof.
  induction messages as [|msg rest IH]; simpl; intros acc acc' B H HB Hacc Hfit.
  - injection H as <-. split; [|tauto].
    apply (countersWithin_mono B); [lia | exact Hacc].
  - apply bind_Return in H as (acc1 & Hstep & H).
    pose proof (tokenMass_nonneg rest) as Hrest.
    pose proof (size_nonneg (usageOfEvent msg)) as Hmsg.
    destruct (processMessage_counters _ _ _ B Hstep HB Hacc) as [Hacc1 Hsum1];
      [lia|].
    destruct (IH acc1 acc' (B + size (usageOfEvent msg))%Z H) as [Hacc' Hsum'];
      [lia | exact Hacc1 | lia |].
    split.
    + rewrite Z.add_assoc. exact Hacc'.
    + intros Hall Hsum. apply andb_true_iff in Hall as [Hm Hall].
      apply Hsum'; [exact Hall|]. apply Hsum1; assumption.
Qed.

Lemma emptyAcc_counters :
  countersWithin 0 emptyAcc /\ totalsAreBucketSums emptyAcc.
Proof.
  split; [split; [unfold size; simpl; lia | constructor] | reflexivity].
Qed.

(** C2 (as stated, refuted): an assistant event that carries usage and
    declares no model adds to the four totals and to no bucket of
    [modelTokens]: the totals are (5, 7, 0, 0) and [modelTokens] is empty. *)
Lemma C2_totals_exceed_model_sums :
  exists s,
    parseSessionContent (parseOf [anonymousUsageEvent]) noDates
      (stringify anonymousUsageEvent) None = Return (Some s)
    /\ inputTokens s = 5%Z
    /\ modelTokens s = []
    /\ tokenTotals s <> sumTokens (modelTokens s).
Proof.
  eexists. split; [reflexivity|]. repeat split. discriminate.
Qed.

(** Two more ways in which the totals leave the sums of the buckets.  A
    model named [constructor] gets no bucket, so that its usage is in the
    totals only; and when the counts leave the integers that a double holds,
    the totals round where the buckets do not: 2^53 + 1 + 1 is 2^53, while
    the buckets hold 2^53 and 2. *)
Example totals_of_an_inherited_model_name :
  exists s,
    parseSessionContent (parseOf inheritedNameEvents) noDates
      (joinLines (map stringify inheritedNameEvents)) None = Return (Some s)
    /\ modelsUsed s = ["constructor"]
    /\ modelTokens s = []
    /\ tokenTotals s = mkTokenCount 5 7 0 0.
Proof.
  eexists. split; [vm_compute; reflexivity|]. repeat split.
Qed.

Example totals_round_where_buckets_do_not :
  exists s,
    parseSessionContent (parseOf largeCountEvents) noDates
      (joinLines (map stringify largeCountEvents)) None = Return (Some s)
    /\ forallb usageHasModel largeCountEvents = true
    /\ map (fun kv => input (snd kv)) (modelTokens s) = [2 ^ 53; 2]%Z
    /\ inputTokens s = (2 ^ 53)%Z
    /\ tokenTotals s <> sumTokens (modelTokens s).
Proof.
  eexists. split; [vm_compute; reflexivity|]. repeat split. discriminate.
Qed.

(** C2 (amended): for every session produced by either extractor, from a
    transcript in which every retained assistant event that carries usage
    also declares a model, under a name that a plain object does not
    inherit, and in which the token counts, in absolute value, add up to at
    most 2^53, the four token totals are the element-wise sums of the
    counters over the entries of [modelTokens]. *)
Theorem C2_totals_are_model_sums
  (JSON_parse : string -> option JSON) (Date_parse : string -> Date)
  (raw : RawSession) (s : ParsedSession) :
  everyUsageHasModel JSON_parse raw ->
  countsStayExact (usageEvents JSON_parse raw) ->
  extract JSON_parse Date_parse raw = Return (Some s) ->
  tokenTotals s = sumTokens (modelTokens s).
Proof.
  unfold everyUsageHasModel, countsStayExact.
  destruct raw as [content path | session]; simpl; intros Hall Hexact H.
  - unfold parseSessionContent, buildSession in H.
    destruct (linesOf content) as [|l ls]; [discriminate|].
    destruct (collectMessages JSON_parse (l :: ls)) as [|m ms] eqn:E;
      [discriminate|].
    apply bind_Return in H as (acc & Hloop & H).
    unbind H. injection H as <-. unfold tokenTotals. simpl.
    destruct emptyAcc_counters as [Hwithin Hsum0].
    destruct (forOf_processMessage_counters _ _ _ 0 Hloop (Z.le_refl 0) Hwithin)
      as [_ Hsum]; [exact Hexact|].
    specialize (Hsum Hall Hsum0).
    unfold totalsAreBucketSums in Hsum. rewrite <- Hsum.
    destruct (accTotals acc); reflexivity.
  - unbind H. injection H as <-.
    unfold parseOpenCodeSession in Hv. unbind Hv. injection Hv as <-.
    reflexivity.
Qed.

Lemma C2_totals_are_model_sums_witness :
  exists s,
    parseSessionContent (parseOf [userEvent (JStr "hi"); modelUsageEvent])
      noDates
      (joinLines [stringify (userEvent (JStr "hi")); stringify modelUsageEvent])
      None = Return (Some s)
    /\ tokenTotals s = mkTokenCount 5 7 0 0
    /\ tokenTotals s = sumTokens (modelTokens s).
Proof.
  eexists. split; [reflexivity|]. split; [reflexivity|].
  apply (C2_totals_are_model_sums
           (parseOf [userEvent (JStr "hi"); modelUsageEvent]) noDates
           (Transcript
              (joinLines [stringify (userEvent (JStr "hi"));
                          stringify modelUsageEvent]) None)).
  - reflexivity.
  - vm_compute. discriminate.
  - reflexivity.
Defined.

(** ** User messages of the line-delimited extractor *)

Lemma extractFromContentBlock_userMessages (acc acc' : Acc) (block : JSON) :
  extractFromContentBlock acc block = Return acc' ->
  accUserMessages acc' = accUserMessages acc.
Proof.
  unfold extractFromContentBlock. intros H. unbind H.
  destruct (isStr "tool_use" v); [|injection H as <-; reflexivity].
  unbind H. destruct (truthy v0); [|injection H as <-; reflexivity].
  unbind H. injection H as <-. reflexivity.
Qed.

Lemma trackModel_userMessages (model : option JSON) (acc acc' : Acc) :
  trackModel model acc = Return acc' ->
  accUserMessages acc' = accUserMessages acc.
Proof.
  unfold trackModel. destruct (truthy model); intros H.
  - unbind H. injection H as <-. reflexivity.
  - injection H as <-. reflexivity.
Qed.

Lemma accumulateUsage_userMessages (model usage : option JSON) (acc acc' : Acc) :
  accumulateUsage model usage acc = Return acc' ->
  accUserMessages acc' = accUserMessages acc.
Proof.
  unfold accumulateUsage. destruct (truthy usage); intros H.
  - unbind H. injection H as <-. reflexivity.
  - injection H as <-. reflexivity.
Qed.



Lemma processMessage_userMessages (acc acc' : Acc) (msg : JSON) :
  processMessage acc msg = Return acc' ->
  accUserMessages acc' = accUserMessages acc ++ userContribution msg.
Proof.
  unfold processMessage.
  destruct msg as [ | b | z | s | elems | fields ]; simpl; intros H;
    try discriminate;
    try (injection H as <-; symmetry; apply app_nil_r).
  destruct (isStr "user" (lookup "type" fields)) eqn:Euser.
  - unbind H.
    destruct (lookup "message" fields) as [[ | b | z | s | elems | m ]|];
      simpl in Hv; try discriminate; injection Hv as <-;
      try (injection H as <-; symmetry; apply app_nil_r).
    destruct (lookup "content" m) as [[ | | | text | | ]|];
      try (injection H as <-; symmetry; apply app_nil_r).
    destruct (Str.isEmpty (Str.trim text)); simpl in H; injection H as <-;
      [symmetry; apply app_nil_r | reflexivity].
  - rewrite app_nil_r.
    destruct (isStr "assistant" (lookup "type" fields));
      [|injection H as <-; reflexivity].
    unbind H.
    apply trackModel_userMessages in Hv0.
    apply accumulateUsage_userMessages in Hv2.
    assert (Hacc2 : accUserMessages v2 = accUserMessages acc)
      by (rewrite Hv2; exact Hv0).
    destruct v3 as [[ | | | | blocks | ]|]; try (injection H as <-; exact Hacc2).
    revert H.
    apply (forOf_invariant
             (fun a => accUserMessages a = accUserMessages acc));
      [|exact Hacc2].
    intros s x s' _ Hs Hx.
    rewrite (extractFromContentBlock_userMessages _ _ _ Hx). exact Hs.
Qed.

Lemma forOf_processMessage_userMessages (messages : list JSON) :
  forall acc acc',
    forOf processMessage messages acc = Return acc' ->
    accUserMessages acc'
    = accUserMessages acc ++ flat_map userContribution messages.
Proof.
  induction messages as [|msg rest IH]; simpl; intros acc acc' H.
  - injection H as <-. symmetry. apply app_nil_r.
  - unbind H. rewrite (IH _ _ H).
    rewrite (processMessage_userMessages _ _ _ Hv). symmetry. apply app_assoc.
Qed.

(** C10: in a session returned by the line-delimited extractor,
    [userMessages] lists, in order, for each retained user event whose
    message content is a string that is not blank once trimmed, that string
    as it stands (untrimmed); user events with another kind of content or a
    blank text, and assistant events, add nothing. *)
Theorem C10_user_messages_are_nonblank_string_contents
  (JSON_parse : string -> option JSON) (Date_parse : string -> Date)
  (content : string) (sessionId : option string) (s : ParsedSession) :
  parseSessionContent JSON_parse Date_parse content sessionId = Return (Some s) ->
  userMessages s
  = flat_map userContribution (collectMessages JSON_parse (linesOf content)).
Proof.
  unfold parseSessionContent, buildSession.
  destruct (linesOf content) as [|l ls]; [discriminate|].
  destruct (collectMessages JSON_parse (l :: ls)) as [|m ms]; [discriminate|].
  intros H. unbind H. injection H as <-. simpl userMessages.
  apply (forOf_processMessage_userMessages _ _ _ Hv).
Qed.

Lemma C10_user_messages_witness :
  exists s,
    parseSessionContent (parseOf mixedUserEvents) noDates
      (joinLines (map stringify mixedUserEvents)) None = Return (Some s)
    /\ messageCount s = 3
    /\ userMessages s = [paddedText]
    /\ userMessages s
       = flat_map userContribution
           (collectMessages (parseOf mixedUserEvents)
              (linesOf (joinLines (map stringify mixedUserEvents)))).
Proof.
  eexists. split; [reflexivity|]. split; [reflexivity|]. split; [reflexivity|].
  apply (C10_user_messages_are_nonblank_string_contents
           (parseOf mixedUserEvents) noDates
           (joinLines (map stringify mixedUserEvents)) None).
  reflexivity.
Defined.

(** ** Null results of the line-delimited extractor *)



(** ** Skipped lines *)

Lemma parseSessionContent_lines (JSON_parse : string -> option JSON)
  (Date_parse : string -> Date) (content : string) (sessionId : option string) :
  parseSessionContent JSON_parse Date_parse content sessionId
  = buildSession Date_parse (collectMessages JSON_parse (linesOf content))
      sessionId.
Proof.
  unfold parseSessionContent.
  destruct (linesOf content); reflexivity.
Qed.

(** ** Events of the declared shape are processed to the end *)



























(** ** The date rule of the filter *)

Lemma dateLt_Some (x : Z) (d : Date) :
  dateLt (Some x) d = true <-> exists y, d = Some y /\ (x < y)%Z.
Proof.
  destruct d as [y|]; simpl.
  - rewrite Z.ltb_lt. split.
    + intros H. exists y. split; [reflexivity | exact H].
    + intros (y' & [= <-] & H). exact H.
  - split; [discriminate | intros (y & Hy & _); discriminate].
Qed.

Lemma dateGt_Some (x : Z) (d : Date) :
  dateGt (Some x) d = true <-> exists y, d = Some y /\ (y < x)%Z.
Proof.
  unfold dateGt. destruct d as [y|]; simpl.
  - rewrite Z.ltb_lt. split.
    + intros H. exists y. split; [reflexivity | exact H].
    + intros (y' & [= <-] & H). exact H.
  - split; [discriminate | intros (y & Hy & _); discriminate].
Qed.

Lemma matchesFilters_dates (now e : Z) (s : ParsedSession)
  (options : SearchOptions) :
  endedAt s = Some e ->
  tools options = None -> filePattern options = None ->
  (matchesFilters now s options = true <-> insideWindow now e options).
Proof.
  intros He Htools Hfile. unfold matchesFilters, insideWindow.
  rewrite He, Htools, Hfile.
  destruct (since options) as [a|]; destruct (until options) as [b|];
    destruct (days options) as [n|];
    repeat match goal with
      | |- context [dateLt (Some e) ?d] =>
          let E := fresh "E" in
          destruct (dateLt (Some e) d) eqn:E;
          [apply dateLt_Some in E as (? & ? & ?)
          | assert (~ exists y, d = Some y /\ (e < y)%Z)
              by (rewrite <- dateLt_Some, E; discriminate); clear E]
      | |- context [dateGt (Some e) ?d] =>
          let E := fresh "E" in
          destruct (dateGt (Some e) d) eqn:E;
          [apply dateGt_Some in E as (? & ? & ?)
          | assert (~ exists y, d = Some y /\ (y < e)%Z)
              by (rewrite <- dateGt_Some, E; discriminate); clear E]
      | |- context [(?n =? 0)%Z] =>
          let E := fresh "E" in
          destruct (Z.eqb_spec n 0) as [E|E]
      end;
    simpl; subst;
    (split;
     [ try discriminate; intros _; repeat split; intros;
       repeat match goal with
         | H : Some _ = Some _ |- _ => injection H as ?; subst
         | H : ~ (exists y, Some ?x = Some y /\ _) |- _ =>
             assert (~ _) by (intros Hlt; apply H; exists x; split;
                              [reflexivity | exact Hlt]); clear H
         | H : ~ (exists y, ?d = Some y /\ _), H' : ?d = Some ?x |- _ =>
             rewrite H' in H
         end;
       try discriminate; try contradiction; try lia
     | intros (Hs & Hu & Hd); try reflexivity; exfalso;
       repeat match goal with
         | H : forall a, Some (Some _) = Some (Some a) -> _ |- _ =>
             specialize (H _ eq_refl)
         | H : forall n t, Some _ = Some n -> _ |- _ =>
             specialize (fun t => H _ t eq_refl)
         end;
       try (match goal with
            | H : forall t, ?n <> 0%Z -> ?d = Some t -> _, H' : ?d = Some _ |- _ =>
                specialize (H _ ltac:(assumption) H')
            end);
       try lia ]).
Qed.

Lemma matchesFilters_dateOptionsOf (now : Z) (s : ParsedSession)
  (options : SearchOptions) :
  matchesFilters now s options = true ->
  matchesFilters now s (dateOptionsOf options) = true.
Proof.
  unfold matchesFilters, dateOptionsOf. simpl.
  destruct (match since options with
            | Some d => dateLt (endedAt s) d
            | None => false
            end); [discriminate|].
  destruct (match until options with
            | Some d => dateGt (endedAt s) d
            | None => false
            end); [discriminate|].
  destruct (match days options with
            | Some n =>
                negb (n =? 0)%Z
                && dateLt (endedAt s) (dateOfNumber (now - n * msPerDay))
            | None => false
            end); [discriminate|].
  reflexivity.
Qed.

Lemma matchesFilters_days_as_since (now n : Z) (s : ParsedSession)
  (options : SearchOptions) :
  days options = Some n -> n <> 0%Z -> since options = None ->
  matchesFilters now s options
  = matchesFilters now s (sinceInsteadOfDays now n options).
Proof.
  intros Hdays Hn Hsince. unfold matchesFilters, sinceInsteadOfDays. simpl.
  rewrite Hdays, Hsince.
  apply Z.eqb_neq in Hn. rewrite Hn. simpl.
  destruct (dateLt (endedAt s) (dateOfNumber (now - n * msPerDay)));
    destruct (match until options with
              | Some d => dateGt (endedAt s) d
              | None => false
              end); reflexivity.
Qed.

(** C8 (as stated, refuted): [days = 0] filters nothing, while the [since]
    it would stand for, now minus 0 days, rejects a session that ended ten
    days ago. *)
Lemma C8_zero_days_is_no_filter :
  matchesFilters someNow (sessionEndedAt (someNow - 10 * msPerDay)) (onlyDays 0)
  = true
  /\ matchesFilters someNow (sessionEndedAt (someNow - 10 * msPerDay))
       (sinceInsteadOfDays someNow 0 (onlyDays 0))
     = false.
Proof. split; reflexivity. Qed.

(** C8 (amended): for a session with a valid [endedAt], a session that
    passes the filter lies in the inclusive window [[since, until]] and not
    before the cut-off of a non-zero [days]; without tool and file-pattern
    filters the session is rejected exactly when it lies outside, all the
    constraints applying together; and a non-zero [days] acts as the [since]
    of now minus that many days.  ([days = 0] is taken as absent.) *)
Theorem C8_date_window_with_nonzero_days
  (now e : Z) (s : ParsedSession) (options : SearchOptions) :
  endedAt s = Some e ->
  (matchesFilters now s options = true -> insideWindow now e options)
  /\ (tools options = None -> filePattern options = None ->
      (matchesFilters now s options = false <-> ~ insideWindow now e options))
  /\ (forall n,
         days options = Some n -> n <> 0%Z -> since options = None ->
         matchesFilters now s options
         = matchesFilters now s (sinceInsteadOfDays now n options)).
Proof.
  intros He. split; [|split].
  - intros H. apply matchesFilters_dateOptionsOf in H.
    apply (matchesFilters_dates now e s (dateOptionsOf options) He eq_refl eq_refl)
      in H.
    exact H.
  - intros Htools Hfile.
    pose proof (matchesFilters_dates now e s options He Htools Hfile) as Hiff.
    destruct (matchesFilters now s options).
    + split; [discriminate|]. intros Hout. exfalso. apply Hout, Hiff. reflexivity.
    + split; [|reflexivity]. intros _ Hin. apply Hiff in Hin. discriminate.
  - intros n. apply matchesFilters_days_as_since.
Qed.

Lemma C8_date_window_witness :
  matchesFilters someNow (sessionEndedAt (someNow - 10 * msPerDay)) (onlyDays 7)
  = false
  /\ ~ insideWindow someNow (someNow - 10 * msPerDay) (onlyDays 7)
  /\ matchesFilters someNow (sessionEndedAt (someNow - 10 * msPerDay))
       (onlyDays 7)
     = matchesFilters someNow (sessionEndedAt (someNow - 10 * msPerDay))
         (sinceInsteadOfDays someNow 7 (onlyDays 7)).
Proof.
  destruct (C8_date_window_with_nonzero_days someNow (someNow - 10 * msPerDay)
              (sessionEndedAt (someNow - 10 * msPerDay)) (onlyDays 7) eq_refl)
    as (_ & Hout & Hdays).
  split; [reflexivity|]. split.
  - apply Hout; reflexivity.
  - apply Hdays; [reflexivity | discriminate | reflexivity].
Defined.

(** ** The relevance score in closed form *)

Lemma scoreTerms_count (points : Z) (queryTerms : list string)
  (textLower : string) :
  forall score,
    scoreTerms points queryTerms textLower score
    = (score + points * Z.of_nat (matchCount queryTerms textLower))%Z.
Proof.
  unfold scoreTerms, matchCount.
  induction queryTerms as [|term rest IH]; simpl; intros score; [lia|].
  rewrite IH. destruct (Str.includes textLower term); simpl length; lia.
Qed.

Lemma scoreTexts_count (points : Z) (queryTerms : list string)
  (texts : list string) :
  forall score,
    scoreTexts points queryTerms texts score
    = (score + points * Z.of_nat (totalMatches queryTerms texts))%Z.
Proof.
  unfold scoreTexts, totalMatches.
  induction texts as [|text rest IH]; simpl; intros score; [lia|].
  rewrite IH, scoreTerms_count. lia.
Qed.

Lemma totalMatches_app (queryTerms : list string) (xs ys : list string) :
  totalMatches queryTerms (xs ++ ys)
  = totalMatches queryTerms xs + totalMatches queryTerms ys.
Proof.
  unfold totalMatches. rewrite map_app, list_sum_app. reflexivity.
Qed.

Lemma totalMatches_nil (queryTerms : list string) :
  totalMatches queryTerms [] = 0.
Proof. reflexivity. Qed.

Lemma totalMatches_single (queryTerms : list string) (text : string) :
  totalMatches queryTerms [text]
  = matchCount queryTerms (Str.toLowerCase text).
Proof. unfold totalMatches. simpl. lia. Qed.

Lemma isEmpty_false (q : string) : q <> EmptyString -> Str.isEmpty q = false.
Proof. destruct q; [contradiction | reflexivity]. Qed.

Lemma scoreRelevance_closed (s : ParsedSession) (q : string) :
  q <> EmptyString ->
  scoreRelevance s q
  = (15 * Z.of_nat (totalMatches (queryTermsOf q) (titleTexts s))
     + 10 * Z.of_nat (totalMatches (queryTermsOf q) (userMessages s))
     + 5 * Z.of_nat (matchCount (queryTermsOf q) (Str.toLowerCase (cwd s)))
     + 3 * Z.of_nat (totalMatches (queryTermsOf q) (toolsUsed s))
     + 3 * Z.of_nat (totalMatches (queryTermsOf q) (filesFromToolCalls s)))%Z.
Proof.
  intros Hq. unfold scoreRelevance, titleTexts.
  rewrite (isEmpty_false q Hq). cbv zeta.
  rewrite !scoreTexts_count, scoreTerms_count.
  destruct (title s) as [t|]; [destruct (Str.isEmpty t)|];
    rewrite ?scoreTerms_count, ?totalMatches_single, ?totalMatches_nil; lia.
Qed.

Lemma matchCount_zero (queryTerms : list string) (textLower : string) :
  matchCount queryTerms textLower = 0
  <-> forall term, In term queryTerms -> Str.includes textLower term = false.
Proof.
  unfold matchCount. induction queryTerms as [|t rest IH]; simpl.
  - split; [intros _ term [] | reflexivity].
  - destruct (Str.includes textLower t) eqn:E; simpl.
    + split; [discriminate|]. intros H.
      rewrite (H t (or_introl eq_refl)) in E. discriminate.
    + rewrite IH. split.
      * intros H term [<- | Hin]; [exact E | apply H, Hin].
      * intros H term Hin. apply H. right. exact Hin.
Qed.

Lemma totalMatches_zero (queryTerms : list string) (texts : list string) :
  totalMatches queryTerms texts = 0
  <-> forall term text,
      In term queryTerms -> In text texts ->
      Str.includes (Str.toLowerCase text) term = false.
Proof.
  unfold totalMatches. induction texts as [|t rest IH]; simpl.
  - split; [intros _ term text _ [] | reflexivity].
  - split.
    + intros H term text Hterm [<- | Hin].
      * apply (proj1 (matchCount_zero queryTerms _)); [lia | exact Hterm].
      * apply (proj1 IH); [lia | exact Hterm | exact Hin].
    + intros H.
      assert (H1 : matchCount queryTerms (Str.toLowerCase t) = 0).
      { apply matchCount_zero. intros term Hterm.
        apply H; [exact Hterm | left; reflexivity]. }
      assert (H2 : list_sum
                     (map (fun text => matchCount queryTerms (Str.toLowerCase text))
                        rest) = 0).
      { apply IH. intros term text Hterm Hin.
        apply H; [exact Hterm | right; exact Hin]. }
      lia.
Qed.

Lemma scoreRelevance_zero (s : ParsedSession) (q : string) :
  q <> EmptyString ->
  (scoreRelevance s q = 0%Z <-> noTermAppears s q).
Proof.
  intros Hq. rewrite (scoreRelevance_closed s q Hq).
  assert (Hsum :
            totalMatches (queryTermsOf q) (searchedTexts s)
            = totalMatches (queryTermsOf q) (titleTexts s)
              + totalMatches (queryTermsOf q) (userMessages s)
              + matchCount (queryTermsOf q) (Str.toLowerCase (cwd s))
              + totalMatches (queryTermsOf q) (toolsUsed s)
              + totalMatches (queryTermsOf q) (filesFromToolCalls s)).
  { unfold searchedTexts. rewrite !totalMatches_app, totalMatches_single. lia. }
  unfold noTermAppears. rewrite <- totalMatches_zero, Hsum. lia.
Qed.

(** ** Monotonicity of the score in the text of a user message *)

Lemma startsWith_nil (s : string) : Str.startsWith s "" = true.
Proof. destruct s; reflexivity. Qed.

Lemma includes_nil (s : string) : Str.includes s "" = true.
Proof. destruct s; simpl; reflexivity. Qed.

Lemma startsWith_app (s t post : string) :
  Str.startsWith s t = true -> Str.startsWith (s ++ post)%string t = true.
Proof.
  revert s. induction t as [|a t' IH]; intros s;
    [intros _; apply startsWith_nil|].
  destruct s as [|b s']; simpl; [discriminate|].
  intros H. apply andb_true_iff in H as [Hab Hrest].
  rewrite Hab. simpl. apply IH. exact Hrest.
Qed.

Lemma includes_cons (c : ascii) (s t : string) :
  Str.includes (String c s) t
  = Str.startsWith (String c s) t || Str.includes s t.
Proof. reflexivity. Qed.

Lemma includes_app_r (s t post : string) :
  Str.includes s t = true -> Str.includes (s ++ post)%string t = true.
Proof.
  induction s as [|c s' IH]; intros H.
  - destruct t; [apply includes_nil | simpl in H; discriminate].
  - rewrite includes_cons in H.
    change (String c s' ++ post)%string with (String c (s' ++ post)%string).
    rewrite includes_cons. apply orb_true_iff.
    apply orb_true_iff in H as [H|H].
    + left. exact (startsWith_app (String c s') t post H).
    + right. exact (IH H).
Qed.

Lemma includes_app_l (s t pre : string) :
  Str.includes s t = true -> Str.includes (pre ++ s)%string t = true.
Proof.
  intros H. induction pre as [|c pre' IH]; [exact H|].
  change (String c pre' ++ s)%string with (String c (pre' ++ s)%string).
  rewrite includes_cons, IH. apply orb_true_r.
Qed.

Lemma toLowerCase_app (a b : string) :
  Str.toLowerCase (a ++ b)%string
  = (Str.toLowerCase a ++ Str.toLowerCase b)%string.
Proof.
  induction a as [|c a' IH]; simpl; [reflexivity|]. rewrite IH. reflexivity.
Qed.

Lemma matchCount_mono (queryTerms : list string) (a b : string) :
  (forall term, Str.includes a term = true -> Str.includes b term = true) ->
  matchCount queryTerms a <= matchCount queryTerms b.
Proof.
  intros Hab. unfold matchCount.
  induction queryTerms as [|t rest IH]; simpl; [lia|].
  destruct (Str.includes a t) eqn:E.
  - rewrite (Hab t E). simpl. lia.
  - destruct (Str.includes b t); simpl; lia.
Qed.

Lemma totalMatches_surrounded (queryTerms : list string)
  (before after : list string) (m pre post : string) :
  totalMatches queryTerms (before ++ m :: after)
  <= totalMatches queryTerms (before ++ (pre ++ m ++ post)%string :: after).
Proof.
  rewrite !totalMatches_app.
  change (m :: after) with ([m] ++ after).
  change ((pre ++ m ++ post)%string :: after)
    with ([(pre ++ m ++ post)%string] ++ after).
  rewrite !totalMatches_app, !totalMatches_single.
  assert (matchCount queryTerms (Str.toLowerCase m)
          <= matchCount queryTerms (Str.toLowerCase (pre ++ m ++ post)%string)).
  { apply matchCount_mono. intros term H.
    rewrite !toLowerCase_app. apply includes_app_l, includes_app_r. exact H. }
  lia.
Qed.

(** C9 (as stated, refuted): with the query [xy a], putting one more
    occurrence of the term [a] into the message [xya] after its first code
    unit gives [xaya], in which the term [xy] no longer occurs: the score
    drops from 20 to 10. *)
Lemma C9_occurrence_inside_another_term_lowers_score :
  queryTermsOf "xy a" = ["xy"; "a"]
  /\ insertAt 1 "a" "xya" = "xaya"%string
  /\ occurrences "xaya" "a" = S (occurrences "xya" "a")
  /\ scoreRelevance (bareSession ["xya"]) "xy a" = 20%Z
  /\ scoreRelevance (bareSession [insertAt 1 "a" "xya"]) "xy a" = 10%Z.
Proof. repeat split. Qed.

(** C9 (amended): for a session and a query of Latin-1 text (code units
    below 256, which is all that a [string] holds and on which [toLowerCase]
    works code unit by code unit), adding text, such as further occurrences
    of a query term, in front of or behind a user message, the message
    itself staying whole, never lowers the score of the session. *)
Theorem C9_text_around_a_message_never_lowers_score
  (s : ParsedSession) (q : string) (before after : list string)
  (m pre post : string) :
  userMessages s = before ++ m :: after ->
  (scoreRelevance s q
   <= scoreRelevance
        (withUserMessages s (before ++ (pre ++ m ++ post)%string :: after)) q)%Z.
Proof.
  intros Hm. destruct q as [|c q']; [unfold scoreRelevance; simpl; lia|].
  rewrite !scoreRelevance_closed by discriminate.
  unfold titleTexts. simpl title. simpl userMessages. simpl cwd.
  simpl toolsUsed. simpl filesFromToolCalls. rewrite Hm.
  pose proof (totalMatches_surrounded (queryTermsOf (String c q')) before after
                m pre post).
  lia.
Qed.

Lemma C9_text_around_a_message_witness :
  scoreRelevance (bareSession ["fix the bug"]) "fix" = 10%Z
  /\ scoreRelevance (bareSession ["fix the bug fix"]) "fix" = 10%Z
  /\ (scoreRelevance (bareSession ["fix the bug"]) "fix"
      <= scoreRelevance
           (withUserMessages (bareSession ["fix the bug"])
              ([] ++ ("" ++ "fix the bug" ++ " fix")%string :: [])) "fix")%Z.
Proof.
  split; [reflexivity|]. split; [reflexivity|].
  apply (C9_text_around_a_message_never_lowers_score
           (bareSession ["fix the bug"]) "fix" [] [] "fix the bug" "" " fix").
  reflexivity.
Defined.

(** ** The results of a search *)

Lemma In_insertBy {A : Type} (cmp : A -> A -> Z) (x y : A) (l : list A) :
  In y (insertBy cmp x l) <-> y = x \/ In y l.
Proof.
  induction l as [|z rest IH]; simpl.
  - split; [intros [<- | []]; left; reflexivity | intros [-> | []]; left; reflexivity].
  - destruct (cmp x z <=? 0)%Z; simpl.
    + split; [intros [<- | H]; [left; reflexivity | right; exact H]
             | intros [-> | H]; [left; reflexivity | right; exact H]].
    + rewrite IH. split.
      * intros [<- | [-> | H]]; [right; left | left | right; right]; auto.
      * intros [-> | [<- | H]]; [right; left | left | right; right]; auto.
Qed.

Lemma In_sortBy {A : Type} (cmp : A -> A -> Z) (y : A) (l : list A) :
  In y (sortBy cmp l) <-> In y l.
Proof.
  unfold sortBy. induction l as [|x rest IH]; simpl; [reflexivity|].
  rewrite In_insertBy, IH. split; intros [H|H]; auto.
Qed.


Lemma In_firstn_list {A : Type} (n : nat) (y : A) (l : list A) :
  In y (firstn n l) -> In y l.
Proof.
  revert l. induction n as [|n IH]; intros [|x rest]; simpl; try contradiction.
  intros [-> | H]; [left; reflexivity | right; apply IH, H].
Qed.

Lemma In_slice0 {A : Type} (n : Z) (y : A) (l : list A) :
  In y (slice0 n l) -> In y l.
Proof.
  unfold slice0. destruct (n <? 0)%Z; apply In_firstn_list.
Qed.

Lemma processSession_retained (Date_parse : string -> Date) (now : Z)
  (options : SearchOptions) (exported : list (option JSON))
  (results results' : list SearchResult) (rawSession : option JSON) :
  In rawSession exported ->
  Forall (retainedBy Date_parse now options exported) results ->
  processSession Date_parse now options results rawSession = Return results' ->
  Forall (retainedBy Date_parse now options exported) results'.
Proof.
  intros Hin Hres. unfold processSession.
  destruct (negb (truthy rawSession)); [intros [= <-]; exact Hres|].
  destruct rawSession as [raw|]; [|intros [= <-]; exact Hres].
  intros H. unbind H.
  destruct (userMessages v) as [|u us] eqn:Eu; [injection H as <-; exact Hres|].
  destruct (matchesFilters now v options) eqn:Ef; simpl in H;
    [|injection H as <-; exact Hres].
  assert (Hkeep : forall rel,
             match hasQuery options with
             | Some q => rel = scoreRelevance v q /\ rel <> 0%Z
             | None => rel = 1%Z
             end ->
             Forall (retainedBy Date_parse now options exported)
               (results ++ [mkSearchResult v rel])).
  { intros rel Hrel. apply Forall_app. split; [exact Hres|].
    constructor; [|constructor].
    exists raw. simpl. repeat split; try assumption.
    rewrite Eu. discriminate. }
  destruct (hasQuery options) as [q|] eqn:Eq.
  - destruct (Z.eqb_spec (scoreRelevance v q) 0) as [E0|E0];
      injection H as <-; [exact Hres|].
    apply Hkeep. split; [reflexivity | exact E0].
  - injection H as <-. apply Hkeep. reflexivity.
Qed.

Lemma forOf_processSession_retained (Date_parse : string -> Date) (now : Z)
  (exported : list (option JSON)) (options : SearchOptions)
  (results : list SearchResult) :
  forOf (processSession Date_parse now options) exported [] = Return results ->
  Forall (retainedBy Date_parse now options exported) results.
Proof.
  apply (forOf_invariant
           (Forall (retainedBy Date_parse now options exported)));
    [|constructor].
  intros s x s' Hin Hs Hx.
  exact (processSession_retained _ _ _ _ _ _ _ Hin Hs Hx).
Qed.

Lemma searchSessions_retained (Date_parse : string -> Date) (now : Z)
  (exported : list (option JSON)) (options : SearchOptions)
  (rs : list SearchResult) :
  searchSessions Date_parse now exported options = Return rs ->
  Forall (retainedBy Date_parse now options exported) rs.
Proof.
  unfold searchSessions. intros H.
  apply bind_Return in H as (results & Hloop & H). injection H as <-.
  pose proof (forOf_processSession_retained _ _ _ _ _ Hloop) as Hall.
  rewrite Forall_forall in Hall |- *. intros r Hr.
  apply Hall. apply (In_sortBy compareResults). apply (In_slice0 _ _ _ Hr).
Qed.

Lemma hasQuery_nonempty (options : SearchOptions) (q : string) :
  query options = Some q -> q <> EmptyString -> hasQuery options = Some q.
Proof.
  intros Hq Hne. unfold hasQuery. rewrite Hq, (isEmpty_false q Hne). reflexivity.
Qed.

(** C5: with a non-empty query, a session whose relevance score is exactly
    0, that is, in which no query term occurs as a case-insensitive
    substring of the title, a user message, the working directory, a tool
    name or a touched file, is in no result of the search; every result
    carries its score, which is not 0. *)
Theorem C5_zero_score_is_excluded
  (Date_parse : string -> Date) (now : Z) (exported : list (option JSON))
  (options : SearchOptions) (q : string) (rs : list SearchResult) :
  query options = Some q -> q <> EmptyString ->
  searchSessions Date_parse now exported options = Return rs ->
  (forall s, scoreRelevance s q = 0%Z <-> noTermAppears s q)
  /\ (forall r, In r rs ->
                relevance r = scoreRelevance (session r) q
                /\ scoreRelevance (session r) q <> 0%Z)
  /\ (forall s, scoreRelevance s q = 0%Z ->
                ~ exists r, In r rs /\ session r = s).
Proof.
  intros Hq Hne Hsearch.
  pose proof (searchSessions_retained _ _ _ _ _ Hsearch) as Hall.
  rewrite Forall_forall in Hall.
  assert (Hres : forall r, In r rs ->
                           relevance r = scoreRelevance (session r) q
                           /\ scoreRelevance (session r) q <> 0%Z).
  { intros r Hr. destruct (Hall r Hr) as (raw & _ & _ & _ & _ & Hrel).
    rewrite (hasQuery_nonempty options q Hq Hne) in Hrel.
    destruct Hrel as [Hrel Hnz]. split; [exact Hrel|].
    rewrite <- Hrel. exact Hnz. }
  split; [intros s; apply scoreRelevance_zero; exact Hne|].
  split; [exact Hres|].
  intros s Hzero (r & Hr & <-).
  destruct (Hres r Hr) as [_ Hnz]. contradiction.
Qed.

Lemma C5_zero_score_witness :
  exists rs,
    searchSessions noDates someNow twoExports (optionsWith (Some "fix") None)
    = Return rs
    /\ map (fun r => (id (session r), relevance r)) rs = [("ses_1", 10%Z)]
    /\ map (fun r => userMessages (session r)) rs = [["fix the bug"]]
    /\ (forall s, scoreRelevance s "fix" = 0%Z ->
                  ~ exists r, In r rs /\ session r = s).
Proof.
  eexists. split; [reflexivity|]. split; [reflexivity|]. split; [reflexivity|].
  apply (C5_zero_score_is_excluded noDates someNow twoExports
           (optionsWith (Some "fix") None) "fix").
  - reflexivity.
  - discriminate.
  - reflexivity.
Defined.




(** ** The order and the number of the results *)

Lemma compareResults_valid (a b : SearchResult) (ta tb : Z) :
  endedAt (session a) = Some ta -> endedAt (session b) = Some tb ->
  compareResults a b
  = if negb (relevance a =? relevance b)%Z
    then (relevance b - relevance a)%Z else (tb - ta)%Z.
Proof. intros Ha Hb. unfold compareResults. rewrite Ha, Hb. reflexivity. Qed.

Lemma rankedBefore_trans (a b c : SearchResult) :
  rankedBefore a b -> rankedBefore b c -> rankedBefore a c.
Proof.
  intros (ta & tb & Ha & Hb & Hab) (tb' & tc & Hb' & Hc & Hbc).
  rewrite Hb in Hb'. injection Hb' as <-.
  exists ta, tc. split; [exact Ha|]. split; [exact Hc|]. lia.
Qed.

Lemma insertBy_ranked (x : SearchResult) (l : list SearchResult) :
  (exists t, endedAt (session x) = Some t) ->
  Forall (fun r => exists t, endedAt (session r) = Some t) l ->
  StronglySorted rankedBefore l ->
  StronglySorted rankedBefore (insertBy compareResults x l).
Proof.
  intros [tx Hx] Hvalid Hs.
  induction l as [|y rest IH]; simpl.
  - constructor; constructor.
  - apply StronglySorted_inv in Hs as [Hrest Hy].
    inversion Hvalid as [|y' rest' [ty Hty] Hvalid']; subst.
    rewrite (compareResults_valid x y tx ty Hx Hty).
    destruct (Z.eqb_spec (relevance x) (relevance y)) as [E|E]; simpl;
      match goal with
      | |- context [(?d <=? 0)%Z] => destruct (Z.leb_spec d 0) as [Hle|Hgt]
      end.
    + assert (Hxy : rankedBefore x y)
        by (exists tx, ty; split; [exact Hx|]; split; [exact Hty|]; lia).
      constructor; [constructor; assumption|].
      constructor; [exact Hxy|].
      rewrite Forall_forall in Hy |- *. intros z Hz.
      apply (rankedBefore_trans x y z); [exact Hxy | apply Hy, Hz].
    + constructor; [apply IH; assumption|].
      rewrite Forall_forall in Hy |- *. intros z Hz.
      apply In_insertBy in Hz as [-> | Hz]; [|apply Hy, Hz].
      exists ty, tx. split; [exact Hty|]. split; [exact Hx|]. lia.
    + assert (Hxy : rankedBefore x y)
        by (exists tx, ty; split; [exact Hx|]; split; [exact Hty|]; lia).
      constructor; [constructor; assumption|].
      constructor; [exact Hxy|].
      rewrite Forall_forall in Hy |- *. intros z Hz.
      apply (rankedBefore_trans x y z); [exact Hxy | apply Hy, Hz].
    + constructor; [apply IH; assumption|].
      rewrite Forall_forall in Hy |- *. intros z Hz.
      apply In_insertBy in Hz as [-> | Hz]; [|apply Hy, Hz].
      exists ty, tx. split; [exact Hty|]. split; [exact Hx|]. lia.
Qed.

Lemma sortBy_ranked (l : list SearchResult) :
  Forall (fun r => exists t, endedAt (session r) = Some t) l ->
  StronglySorted rankedBefore (sortBy compareResults l).
Proof.
  unfold sortBy. induction 1 as [|x rest Hx Hrest IH]; simpl.
  - constructor.
  - apply insertBy_ranked; [exact Hx | | exact IH].
    rewrite Forall_forall in Hrest |- *. intros r Hr.
    apply Hrest. apply (In_sortBy compareResults). exact Hr.
Qed.

Lemma firstn_sorted {A : Type} (R : A -> A -> Prop) (n : nat) (l : list A) :
  StronglySorted R l -> StronglySorted R (firstn n l).
Proof.
  revert l. induction n as [|n IH]; intros [|x rest] Hs; simpl;
    try constructor.
  - apply IH. apply StronglySorted_inv in Hs as [Hrest _]. exact Hrest.
  - apply StronglySorted_inv in Hs as [_ Hx].
    rewrite Forall_forall in Hx |- *. intros y Hy.
    apply Hx, (In_firstn_list n y rest Hy).
Qed.

Lemma sorted_nth_error {A : Type} (R : A -> A -> Prop) (l : list A) :
  StronglySorted R l ->
  forall i j a b,
    i < j -> nth_error l i = Some a -> nth_error l j = Some b -> R a b.
Proof.
  induction 1 as [|x rest Hrest IH Hx]; intros i j a b Hij Ha Hb.
  - destruct i; discriminate.
  - destruct j as [|j]; [lia|]. simpl in Hb.
    destruct i as [|i]; simpl in Ha.
    + injection Ha as <-. rewrite Forall_forall in Hx.
      apply Hx. apply (nth_error_In rest j Hb).
    + apply (IH i j a b); [lia | exact Ha | exact Hb].
Qed.

Lemma slice0_sorted {A : Type} (R : A -> A -> Prop) (n : Z) (l : list A) :
  StronglySorted R l -> StronglySorted R (slice0 n l).
Proof.
  unfold slice0. destruct (n <? 0)%Z; apply firstn_sorted.
Qed.

Lemma length_slice0 {A : Type} (n : Z) (l : list A) :
  (0 <= n)%Z -> (Z.of_nat (length (slice0 n l)) <= n)%Z.
Proof.
  intros Hn. unfold slice0.
  destruct (Z.ltb_spec n 0) as [Hneg|_]; [lia|].
  pose proof (firstn_le_length (Z.to_nat n) l) as Hlen.
  rewrite length_firstn. lia.
Qed.

(** With valid dates on every retained session, the results are ranked. *)
Lemma searchSessions_ranked (Date_parse : string -> Date) (now : Z)
  (exported : list (option JSON)) (options : SearchOptions)
  (rs : list SearchResult) :
  searchSessions Date_parse now exported options = Return rs ->
  retainedDatesAreValid Date_parse now options exported ->
  StronglySorted rankedBefore rs.
Proof.
  unfold searchSessions. intros H Hvalid.
  apply bind_Return in H as (results & Hloop & H). injection H as <-.
  apply slice0_sorted, sortBy_ranked.
  pose proof (forOf_processSession_retained _ _ _ _ _ Hloop) as Hall.
  rewrite Forall_forall in Hall |- *. intros r Hr. apply Hvalid, Hall, Hr.
Qed.

(** C4 (as stated, refuted): with [limit = 0] supplied, [options.limit || 20]
    is 20 and the search returns both sessions: more than [limit] entries. *)
Lemma C4_zero_limit_returns_results :
  exists rs,
    searchSessions noDates someNow twoExports (optionsWith None (Some 0%Z))
    = Return rs
    /\ length rs = 2
    /\ ~ (Z.of_nat (length rs) <= 0)%Z.
Proof.
  eexists. split; [reflexivity|]. split; [reflexivity|]. simpl. lia.
Qed.

(** The order of the results needs valid dates: an export without
    [updated] is retained with an Invalid Date as [endedAt], and wherever the
    sort puts it, [endedAt >= endedAt] is false against it. *)
Example results_with_an_invalid_date :
  exists rs,
    searchSessions noDates someNow
      [Some (exportWith "Notes" "add tests" 1500); Some (undatedExport "fix")]
      (optionsWith None None) = Return rs
    /\ length rs = 2
    /\ (exists r, In r rs /\ endedAt (session r) = None)
    /\ forall a b, In a rs -> In b rs -> a <> b -> ~ rankedBefore a b.
Proof.
  eexists. split; [vm_compute; reflexivity|]. split; [reflexivity|]. split.
  - eexists. split; [right; left; reflexivity | reflexivity].
  - intros a b [<- | [<- | []]] [<- | [<- | []]] Hab (ta & tb & Ha & Hb & _);
      try discriminate; contradiction.
Qed.

(** C4 (amended): in a list that the search returns, when every session
    that it retains has a valid [endedAt], an earlier result has a higher
    relevance than a later one, or the same relevance and an [endedAt] that
    is not earlier; and the list has at most [limit] entries for a positive
    [limit], at most 20 when [limit] is not supplied or is 0. *)
Theorem C4_results_are_ranked_and_limited
  (Date_parse : string -> Date) (now : Z) (exported : list (option JSON))
  (options : SearchOptions) (rs : list SearchResult) :
  searchSessions Date_parse now exported options = Return rs ->
  (retainedDatesAreValid Date_parse now options exported ->
   forall i j a b,
     i < j -> nth_error rs i = Some a -> nth_error rs j = Some b ->
     rankedBefore a b)
  /\ (forall n, limit options = Some n -> (0 < n)%Z ->
                (Z.of_nat (length rs) <= n)%Z)
  /\ (limit options = None \/ limit options = Some 0%Z -> length rs <= 20).
Proof.
  intros Hsearch. split; [|split].
  - intros Hvalid i j a b Hij Ha Hb.
    exact (sorted_nth_error rankedBefore rs
             (searchSessions_ranked _ _ _ _ _ Hsearch Hvalid) i j a b Hij Ha Hb).
  - unfold searchSessions in Hsearch.
    apply bind_Return in Hsearch as (results & _ & H). injection H as <-.
    intros n Hn Hpos.
    assert (Heff : effectiveLimit options = n).
    { unfold effectiveLimit. rewrite Hn.
      destruct (Z.eqb_spec n 0); [lia | reflexivity]. }
    rewrite Heff. apply length_slice0. lia.
  - unfold searchSessions in Hsearch.
    apply bind_Return in Hsearch as (results & _ & H). injection H as <-.
    intros Hn.
    assert (Heff : effectiveLimit options = 20%Z).
    { unfold effectiveLimit. destruct Hn as [-> | ->]; reflexivity. }
    rewrite Heff.
    pose proof (length_slice0 20 (sortBy compareResults results)) as Hlen. lia.
Qed.

Lemma C4_results_witness :
  exists rs,
    searchSessions noDates someNow twoExports (optionsWith None (Some 5%Z))
    = Return rs
    /\ map (fun r => (relevance r, endedAt (session r))) rs
       = [(1%Z, Some 2000%Z); (1%Z, Some 1500%Z)]
    /\ (forall i j a b,
           i < j -> nth_error rs i = Some a -> nth_error rs j = Some b ->
           rankedBefore a b)
    /\ (Z.of_nat (length rs) <= 5)%Z.
Proof.
  eexists. split; [reflexivity|]. split; [reflexivity|].
  destruct (C4_results_are_ranked_and_limited noDates someNow twoExports
              (optionsWith None (Some 5%Z)) _ eq_refl) as (Horder & Hlimit & _).
  split.
  - apply Horder. intros r (raw & Hin & Hparse & _).
    destruct Hin as [[= <-] | [[= <-] | []]];
      match type of Hparse with
      | ?run = _ =>
          let v := eval vm_compute in run in change run with v in Hparse
      end;
      injection Hparse as <-; eexists; reflexivity.
  - apply (Hlimit 5%Z); [reflexivity | lia].
Defined.

(** ** The scenarios of the specification, evaluated *)

(** Scenario A: two user events around an assistant event that edits
    [src/septa.ts]; the query [septa] scores the first message and the
    file. *)
Example scenario_A :
  exists s,
    parseSessionContent (parseOf [firstEvent; toolEvent; secondEvent]) noDates
      (joinLines (map stringify [firstEvent; toolEvent; secondEvent])) None
    = Return (Some s)
    /\ userMessages s = ["Let's build septa tracker"; "ship it"]
    /\ toolsUsed s = ["Edit"]
    /\ filesFromToolCalls s = ["src/septa.ts"]
    /\ scoreRelevance s "septa" = 13%Z.
Proof.
  eexists. split; [vm_compute; reflexivity|]. repeat split.
Qed.

(** Scenario B: an export titled [Septa App] with the user text
    [fix the bug]. *)
Example scenario_B :
  exists s,
    parseOpenCodeSession noDates (exportWith "Septa App" "fix the bug" 2000)
    = Return s
    /\ scoreRelevance s "septa" = 15%Z
    /\ scoreRelevance s "fix" = 10%Z
    /\ scoreRelevance s "nothing" = 0%Z
    /\ searchSessions noDates someNow
         [Some (exportWith "Septa App" "fix the bug" 2000)]
         (optionsWith (Some "nothing") None)
       = Return [].
Proof.
  eexists. split; [reflexivity|]. repeat split.
Qed.

(** * Further properties *)

(** ** The lines of a transcript *)


Lemma split_pieces_without_separator (sep : ascii) (s : string) :
  Forall (fun p => Str.allChars (fun c => negb (Ascii.eqb c sep)) p = true)
    (Str.split sep s).
Proof.
  induction s as [|c rest IH]; simpl.
  - constructor; [reflexivity | constructor].
  - destruct (Ascii.eqb c sep) eqn:E.
    + constructor; [reflexivity | exact IH].
    + destruct (Str.split sep rest) as [|h t]; simpl.
      * constructor; [simpl; rewrite E; reflexivity | constructor].
      * inversion IH as [|h' t' Hh Ht]; subst.
        constructor; [simpl; rewrite E; exact Hh | exact Ht].
Qed.

(** X1: Every line handed to [JSON.parse] by the line-delimited extractor
    is non-empty and holds no line feed. *)
Theorem linesOf_are_proper_lines (content : string) :
  Forall (fun l => properLine l = true) (linesOf content).
Proof.
  unfold linesOf, Str.filterBoolean.
  pose proof (split_pieces_without_separator newline (Str.trim content)) as H.
  induction H as [|l ls Hl _ IH]; simpl; [constructor|].
  destruct (Str.isEmpty l) eqn:E; simpl; [exact IH|].
  constructor; [|exact IH].
  unfold properLine, noNewline. rewrite E, Hl. reflexivity.
Qed.

Lemma trimStart_blank (s : string) :
  Str.allChars Str.isWhiteSpace s = true -> Str.trimStart s = EmptyString.
Proof.
  induction s as [|c rest IH]; simpl; [reflexivity|].
  intros H. apply andb_true_iff in H as [Hc Hrest].
  rewrite Hc. apply IH, Hrest.
Qed.

Lemma linesOf_blank (content : string) :
  Str.allChars Str.isWhiteSpace content = true -> linesOf content = [].
Proof.
  intros H. unfold linesOf, Str.trim. rewrite (trimStart_blank content H).
  reflexivity.
Qed.

(** X2: A text that is empty or holds only white space gives no session:
    both [parseSessionContent] and [parseSessionFile] return [null], whatever
    [JSON.parse] would do, and without raising. *)
Theorem blank_content_gives_null
  (JSON_parse : string -> option JSON) (Date_parse : string -> Date)
  (content : string) (sessionId : option string) (filePath : string) :
  Str.allChars Str.isWhiteSpace content = true ->
  parseSessionContent JSON_parse Date_parse content sessionId = Return None
  /\ parseSessionFile JSON_parse Date_parse content filePath = Return None.
Proof.
  intros H.
  assert (Hc : forall sid,
             parseSessionContent JSON_parse Date_parse content sid = Return None).
  { intros sid. unfold parseSessionContent. rewrite (linesOf_blank content H).
    reflexivity. }
  split; [apply Hc|].
  unfold parseSessionFile, Str.trim. rewrite (trimStart_blank content H).
  simpl. apply Hc.
Qed.

Lemma blank_content_gives_null_witness :
  parseSessionContent (parseOf [firstEvent]) noDates
    (String newline "  ") None = Return None
  /\ parseSessionFile (parseOf [firstEvent]) noDates
       (String newline "  ") "a.jsonl" = Return None.
Proof.
  apply (blank_content_gives_null (parseOf [firstEvent]) noDates
           (String newline "  ") None "a.jsonl").
  reflexivity.
Defined.

Lemma split_without_separator (sep : ascii) (l : string) :
  Str.allChars (fun c => negb (Ascii.eqb c sep)) l = true ->
  Str.split sep l = [l].
Proof.
  induction l as [|c rest IH]; simpl; [reflexivity|].
  intros H. apply andb_true_iff in H as [Hc Hrest].
  apply negb_true_iff in Hc. rewrite Hc, (IH Hrest). reflexivity.
Qed.

Lemma split_app_separator (sep : ascii) (l rest : string) :
  Str.allChars (fun c => negb (Ascii.eqb c sep)) l = true ->
  Str.split sep (l ++ String sep rest)%string = l :: Str.split sep rest.
Proof.
  induction l as [|c l' IH]; simpl.
  - intros _. rewrite Ascii.eqb_refl. reflexivity.
  - intros H. apply andb_true_iff in H as [Hc Hrest].
    apply negb_true_iff in Hc. rewrite Hc, (IH Hrest). reflexivity.
Qed.

Lemma split_joinLines (lines : list string) :
  lines <> [] ->
  Forall (fun l => noNewline l = true) lines ->
  Str.split newline (joinLines lines) = lines.
Proof.
  induction lines as [|l rest IH]; [contradiction|].
  intros _ Hall. inversion Hall as [|l' rest' Hl Hrest]; subst.
  destruct rest as [|l2 rest2].
  - simpl. apply split_without_separator. exact Hl.
  - change (joinLines (l :: l2 :: rest2))
      with (l ++ String newline (joinLines (l2 :: rest2)))%string.
    rewrite (split_app_separator newline l _ Hl).
    rewrite IH; [reflexivity | discriminate | exact Hrest].
Qed.

(** X3: A transcript written as non-empty lines without line feeds, joined by
    line feeds, with no white space around the whole, is read back as
    exactly those lines, in order. *)
Theorem linesOf_joinLines (lines : list string) :
  lines <> [] ->
  Forall (fun l => properLine l = true) lines ->
  Str.trim (joinLines lines) = joinLines lines ->
  linesOf (joinLines lines) = lines.
Proof.
  intros Hne Hall Htrim. unfold linesOf. rewrite Htrim.
  rewrite split_joinLines; [|exact Hne|].
  - unfold Str.filterBoolean. apply forallb_filter_id.
    apply forallb_forall. intros l Hl.
    rewrite Forall_forall in Hall. specialize (Hall l Hl).
    unfold properLine in Hall. apply andb_true_iff in Hall as [H _]. exact H.
  - rewrite Forall_forall in Hall |- *. intros l Hl. specialize (Hall l Hl).
    unfold properLine in Hall. apply andb_true_iff in Hall as [_ H]. exact H.
Qed.

Lemma linesOf_joinLines_witness :
  linesOf (joinLines [stringify firstEvent; brokenLine; stringify secondEvent])
  = [stringify firstEvent; brokenLine; stringify secondEvent].
Proof.
  apply (linesOf_joinLines
           [stringify firstEvent; brokenLine; stringify secondEvent]).
  - discriminate.
  - repeat constructor.
  - reflexivity.
Defined.

(** ** The walk over a tool input *)

(** X4: An array found as the value of a property of a tool input is not
    walked: the input without that property gives the same files. *)
Theorem extractFilePaths_skips_nested_arrays
  (before after : list (string * JSON)) (key : string) (elems : list JSON) :
  forall files,
    extractFilePaths (JObj (before ++ (key, JArr elems) :: after)) files
    = extractFilePaths (JObj (before ++ after)) files.
Proof.
  induction before as [|[k v] rest IH]; intros files.
  - reflexivity.
  - simpl. apply IH.
Qed.

(** ** The sets of a session hold no duplicate *)

Section SetFields.

Variable P : list string -> Prop.
Hypothesis P_setAdd : forall x s, P s -> P (setAdd x s).

Lemma extractFilePaths_keeps (input : JSON) :
  forall files, P files -> P (extractFilePaths input files).
Proof.
  induction input as [ | b | z | s | elems IH | kvs IH ] using JSON_nested_ind;
    intros files Hfiles; simpl; try exact Hfiles.
  - revert files Hfiles.
    induction IH as [|value rest Hvalue _ IHrest]; intros files Hfiles;
      [exact Hfiles|].
    apply IHrest. destruct value; try exact Hfiles.
    apply Hvalue. exact Hfiles.
  - revert files Hfiles.
    induction IH as [|[key value] rest Hvalue _ IHrest]; intros files Hfiles;
      [exact Hfiles|].
    apply IHrest. simpl in Hvalue.
    assert (H1 : P match value with
                   | JStr s =>
                       if isPathKey key && looksLikePath s then setAdd s files
                       else files
                   | _ => files
                   end).
    { destruct value; try exact Hfiles.
      destruct (isPathKey key && looksLikePath s); [|exact Hfiles].
      apply P_setAdd. exact Hfiles. }
    destruct value; try exact H1.
    apply Hvalue. exact H1.
Qed.

Lemma extractFromContentBlock_keeps (acc acc' : Acc) (block : JSON) :
  extractFromContentBlock acc block = Return acc' ->
  setsSatisfy P acc -> setsSatisfy P acc'.
Proof.
  unfold extractFromContentBlock, setsSatisfy. intros H (Ht & Hf & Hm).
  unbind H. destruct (isStr "tool_use" v);
    [|injection H as <-; repeat split; assumption].
  unbind H. destruct (truthy v0);
    [|injection H as <-; repeat split; assumption].
  unbind H. injection H as <-. simpl.
  split; [apply P_setAdd; exact Ht|]. split; [|exact Hm].
  destruct v2 as [obj|]; [|exact Hf].
  destruct (truthy (Some obj)); [|exact Hf].
  apply extractFilePaths_keeps. exact Hf.
Qed.

Lemma trackModel_keeps (model : option JSON) (acc acc' : Acc) :
  trackModel model acc = Return acc' ->
  setsSatisfy P acc -> setsSatisfy P acc'.
Proof.
  unfold trackModel, setsSatisfy. intros H (Ht & Hf & Hm).
  destruct (truthy model); [|injection H as <-; repeat split; assumption].
  unbind H. injection H as <-. simpl. repeat split; try assumption.
  apply P_setAdd. exact Hm.
Qed.

Lemma accumulateUsage_keeps (model usage : option JSON) (acc acc' : Acc) :
  accumulateUsage model usage acc = Return acc' ->
  setsSatisfy P acc -> setsSatisfy P acc'.
Proof.
  unfold accumulateUsage, setsSatisfy. intros H Hacc.
  destruct (truthy usage); [|injection H as <-; exact Hacc].
  unbind H. injection H as <-. exact Hacc.
Qed.

Lemma processMessage_keeps (acc acc' : Acc) (msg : JSON) :
  processMessage acc msg = Return acc' ->
  setsSatisfy P acc -> setsSatisfy P acc'.
Proof.
  unfold processMessage. intros H Hacc. unbind H.
  destruct (isStr "user" v).
  - unbind H.
    destruct v1 as [[ | | | text | | ]|]; try (injection H as <-; exact Hacc).
    destruct (negb (Str.isEmpty (Str.trim text))); injection H as <-; exact Hacc.
  - destruct (isStr "assistant" v); [|injection H as <-; exact Hacc].
    unbind H.
    apply (trackModel_keeps _ _ _ Hv2) in Hacc.
    apply (accumulateUsage_keeps _ _ _ _ Hv4) in Hacc.
    destruct v5 as [[ | | | | blocks | ]|]; try (injection H as <-; exact Hacc).
    revert H. apply (forOf_invariant (setsSatisfy P)); [|exact Hacc].
    intros s x s' _ Hs Hx. exact (extractFromContentBlock_keeps _ _ _ Hx Hs).
Qed.

Lemma addParam_keeps (k : string) (params : option JSON)
  (files files' : list string) :
  addParam k params files = Return files' -> P files -> P files'.
Proof.
  unfold addParam. intros H Hf. unbind H.
  destruct (truthy v); [|injection H as <-; exact Hf].
  unbind H. injection H as <-. apply P_setAdd. exact Hf.
Qed.

Lemma collectToolCall_keeps (acc acc' : Acc) (toolCall : JSON) :
  collectToolCall acc toolCall = Return acc' ->
  setsSatisfy P acc -> setsSatisfy P acc'.
Proof.
  unfold collectToolCall, setsSatisfy. intros H (Ht & Hf & Hm).
  unbind H. injection H as <-. simpl.
  split; [apply P_setAdd; exact Ht|]. split; [|exact Hm].
  destruct (truthy v1); [|injection Hv2 as <-; exact Hf].
  apply bind_Return in Hv2 as (f1 & Hf1 & Hv2).
  apply bind_Return in Hv2 as (f2 & Hf2 & Hv2).
  apply (addParam_keeps _ _ _ _ Hv2).
  apply (addParam_keeps _ _ _ _ Hf2).
  apply (addParam_keeps _ _ _ _ Hf1). exact Hf.
Qed.

Lemma collectPart_keeps (acc acc' : Acc) (part : JSON) :
  collectPart acc part = Return acc' ->
  setsSatisfy P acc -> setsSatisfy P acc'.
Proof.
  unfold collectPart. intros H Hacc. unbind H.
  destruct (isStr "text" v); [|injection H as <-; exact Hacc].
  unbind H. destruct (truthy v0); [|injection H as <-; exact Hacc].
  unbind H. injection H as <-. exact Hacc.
Qed.

Lemma processEnvelope_keeps (acc acc' : Acc) (message : JSON) :
  processEnvelope acc message = Return acc' ->
  setsSatisfy P acc -> setsSatisfy P acc'.
Proof.
  unfold processEnvelope. intros H Hacc. unbind H.
  assert (H2 : setsSatisfy P v2).
  { destruct (isStr "user" v0 && truthy v1); [|injection Hv2 as <-; exact Hacc].
    unbind Hv2. revert Hv2.
    apply (forOf_invariant (setsSatisfy P)); [|exact Hacc].
    intros s x s' _ Hs Hx. exact (collectPart_keeps _ _ _ Hx Hs). }
  assert (H4 : setsSatisfy P v4).
  { destruct (truthy v3); [|injection Hv4 as <-; exact H2].
    unbind Hv4. revert Hv4.
    apply (forOf_invariant (setsSatisfy P)); [|exact H2].
    intros s x s' _ Hs Hx. exact (collectToolCall_keeps _ _ _ Hx Hs). }
  destruct (truthy v5); [|injection H as <-; exact H4].
  unbind H. injection H as <-. destruct H4 as (Ht & Hf & Hm).
  repeat split; simpl; try assumption. apply P_setAdd. exact Hm.
Qed.

End SetFields.

Lemma setAdd_NoDup (x : string) (s : list string) :
  NoDup s -> NoDup (setAdd x s).
Proof.
  intros Hs. unfold setAdd. destruct (existsb (String.eqb x) s) eqn:E; [exact Hs|].
  apply NoDup_app; [exact Hs | repeat constructor; intros [] | ].
  intros y Hy [<- | []].
  assert (Hex : existsb (String.eqb x) s = true).
  { apply existsb_exists. exists x. split; [exact Hy | apply String.eqb_refl]. }
  rewrite Hex in E. discriminate.
Qed.

(** X5: In a session returned by either extractor, [toolsUsed],
    [filesFromToolCalls] and [modelsUsed] hold no string twice. *)
Theorem session_sets_have_no_duplicates
  (JSON_parse : string -> option JSON) (Date_parse : string -> Date)
  (raw : RawSession) (s : ParsedSession) :
  extract JSON_parse Date_parse raw = Return (Some s) ->
  NoDup (toolsUsed s) /\ NoDup (filesFromToolCalls s) /\ NoDup (modelsUsed s).
Proof.
  assert (Hempty : setsSatisfy (@NoDup string) emptyAcc)
    by (repeat split; constructor).
  destruct raw as [content path | session]; simpl; intros H.
  - unfold parseSessionContent, buildSession in H.
    destruct (linesOf content) as [|l ls]; [discriminate|].
    destruct (collectMessages JSON_parse (l :: ls)) as [|m ms]; [discriminate|].
    unbind H. injection H as <-. simpl.
    revert Hv. apply (forOf_invariant (setsSatisfy (@NoDup string)));
      [|exact Hempty].
    intros acc x acc' _ Hacc Hx.
    exact (processMessage_keeps _ setAdd_NoDup _ _ _ Hx Hacc).
  - unbind H. injection H as <-.
    unfold parseOpenCodeSession in Hv. unbind Hv. injection Hv as <-. simpl.
    match goal with
    | Hrun : forOf processEnvelope _ _ = Return _ |- _ => revert Hrun
    end.
    apply (forOf_invariant (setsSatisfy (@NoDup string))); [|exact Hempty].
    intros acc x acc' _ Hacc Hx.
    exact (processEnvelope_keeps _ setAdd_NoDup _ _ _ Hx Hacc).
Qed.

Lemma session_sets_witness :
  exists s,
    parseSessionContent (parseOf repeatedToolEvents) noDates
      (joinLines (map stringify repeatedToolEvents)) None = Return (Some s)
    /\ messageCount s = 3
    /\ toolsUsed s = ["Edit"]
    /\ filesFromToolCalls s = ["src/septa.ts"]
    /\ modelsUsed s = ["model-a"]
    /\ (NoDup (toolsUsed s) /\ NoDup (filesFromToolCalls s)
        /\ NoDup (modelsUsed s)).
Proof.
  eexists. split; [vm_compute; reflexivity|]. do 4 (split; [reflexivity|]).
  apply (session_sets_have_no_duplicates (parseOf repeatedToolEvents) noDates
           (Transcript (joinLines (map stringify repeatedToolEvents)) None)).
  vm_compute. reflexivity.
Defined.

(** ** Models and their buckets *)

Lemma lookup_In {V : Type} (m : string) (l : list (string * V)) :
  lookup m l <> None <-> In m (map fst l).
Proof.
  induction l as [|[k t] rest IH]; simpl.
  - split; [intros H; contradiction | intros []].
  - destruct (String.eqb_spec m k) as [->|Hne].
    + split; [intros _; left; reflexivity | discriminate].
    + rewrite IH. split; [intros H; right; exact H|].
      intros [Hk | H]; [symmetry in Hk; contradiction | exact H].
Qed.

Lemma existsb_In (x : string) (s : list string) :
  existsb (String.eqb x) s = true <-> In x s.
Proof.
  rewrite existsb_exists. split.
  - intros (y & Hy & E). apply String.eqb_eq in E. subst y. exact Hy.
  - intros H. exists x. split; [exact H | apply String.eqb_refl].
Qed.

Lemma In_setAdd (x y : string) (s : list string) :
  In y (setAdd x s) <-> y = x \/ In y s.
Proof.
  unfold setAdd. destruct (existsb (String.eqb x) s) eqn:E.
  - apply existsb_In in E. split; [intros H; right; exact H|].
    intros [-> | H]; assumption.
  - rewrite in_app_iff. simpl. split.
    + intros [H | [<- | []]]; [right; exact H | left; reflexivity].
    + intros [-> | H]; [right; left; reflexivity | left; exact H].
Qed.

Lemma filter_setAdd_false (f : string -> bool) (x : string) (s : list string) :
  f x = false -> filter f (setAdd x s) = filter f s.
Proof.
  intros Hx. unfold setAdd. destruct (existsb (String.eqb x) s); [reflexivity|].
  rewrite filter_app. simpl. rewrite Hx. apply app_nil_r.
Qed.

Lemma addToBucket_keys (m : string) (u : TokenCount)
  (buckets : list (string * TokenCount)) :
  forall buckets',
    addToBucket m u buckets = Return buckets' ->
    map fst buckets' = map fst buckets.
Proof.
  induction buckets as [|[k t] rest IH]; simpl; intros buckets' H.
  - injection H as <-. reflexivity.
  - destruct (String.eqb m k).
    + apply bind_Return in H as (t' & _ & H). injection H as <-. reflexivity.
    + apply bind_Return in H as (rest' & Hrest & H). injection H as <-.
      simpl. rewrite (IH _ Hrest). reflexivity.
Qed.

Lemma keyBefore_index (k z : string) (n : N) :
  arrayIndex k = Some n ->
  (keyBefore k z
   <-> match arrayIndex z with Some nz => (n <= nz)%N | None => True end).
Proof. intros Hk. unfold keyBefore. rewrite Hk. reflexivity. Qed.

Lemma keyBefore_name (x k : string) : arrayIndex k = None -> keyBefore x k.
Proof.
  intros Hk. unfold keyBefore. rewrite Hk. destruct (arrayIndex x); exact I.
Qed.

Lemma placeIndex_keys_In {V : Type} (n : N) (k : string) (v : V)
  (l : list (string * V)) (x : string) :
  In x (map fst (placeIndex n k v l)) <-> x = k \/ In x (map fst l).
Proof.
  pose proof (Permutation_map fst (placeIndex_Permutation n k v l)) as Hperm.
  simpl in Hperm. split.
  - intros H. apply (Permutation_in _ Hperm) in H as [<- | H];
      [left; reflexivity | right; exact H].
  - intros H. apply (Permutation_in _ (Permutation_sym Hperm)).
    destruct H as [-> | H]; [left; reflexivity | right; exact H].
Qed.

Lemma placeIndex_sorted {V : Type} (n : N) (k : string) (v : V)
  (l : list (string * V)) :
  arrayIndex k = Some n ->
  StronglySorted keyBefore (map fst l) ->
  StronglySorted keyBefore (map fst (placeIndex n k v l)).
Proof.
  intros Hk. induction l as [|[k' v'] rest IH]; simpl; intros Hs.
  - constructor; constructor.
  - apply StronglySorted_inv in Hs as [Hrest Hall].
    rewrite Forall_forall in Hall.
    destruct (arrayIndex k') as [n'|] eqn:Ek'.
    + destruct (N.ltb_spec n' n) as [Hlt|Hge]; simpl.
      * constructor; [apply IH, Hrest|].
        rewrite Forall_forall. intros z Hz.
        apply placeIndex_keys_In in Hz as [-> | Hz]; [|apply Hall, Hz].
        apply (keyBefore_index k' k n' Ek'). rewrite Hk. lia.
      * constructor; [constructor; [exact Hrest | rewrite Forall_forall; exact Hall]|].
        rewrite Forall_forall. intros z [<- | Hz].
        -- apply (keyBefore_index k k' n Hk). rewrite Ek'. exact Hge.
        -- apply (keyBefore_index k z n Hk).
           specialize (Hall z Hz). apply (keyBefore_index k' z n' Ek') in Hall.
           destruct (arrayIndex z); [lia | exact I].
    + simpl.
      constructor; [constructor; [exact Hrest | rewrite Forall_forall; exact Hall]|].
      rewrite Forall_forall. intros z [<- | Hz].
      * apply (keyBefore_index k k' n Hk). rewrite Ek'. exact I.
      * apply (keyBefore_index k z n Hk).
        specialize (Hall z Hz). unfold keyBefore in Hall. rewrite Ek' in Hall.
        destruct (arrayIndex z); [contradiction | exact I].
Qed.

Lemma append_name_sorted (k : string) (keys : list string) :
  arrayIndex k = None ->
  StronglySorted keyBefore keys -> StronglySorted keyBefore (keys ++ [k]).
Proof.
  intros Hk. induction 1 as [|x rest Hrest IH Hx]; simpl.
  - constructor; constructor.
  - constructor; [exact IH|].
    apply Forall_app. split; [exact Hx|].
    constructor; [apply keyBefore_name, Hk | constructor].
Qed.

Lemma placeIndex_names {V : Type} (n : N) (k : string) (v : V)
  (l : list (string * V)) :
  arrayIndex k = Some n ->
  filter (fun x => negb (isArrayIndex x)) (map fst (placeIndex n k v l))
  = filter (fun x => negb (isArrayIndex x)) (map fst l).
Proof.
  intros Hk.
  assert (Hidx : negb (isArrayIndex k) = false)
    by (unfold isArrayIndex; rewrite Hk; reflexivity).
  induction l as [|[k' v'] rest IH]; simpl.
  - rewrite Hidx. reflexivity.
  - destruct (arrayIndex k') as [n'|] eqn:Ek';
      [destruct (n' <? n)%N|]; simpl; rewrite ?Hidx, ?IH; reflexivity.
Qed.

(** The keys of the buckets against the set of models. *)
Lemma defineProperty_keys (m : string) (models : list string)
  (buckets : list (string * TokenCount)) :
  let own := fun x => negb (isArrayIndex x) && negb (isInherited x) in
  isInherited m = false ->
  ~ In m (map fst buckets) ->
  (forall x, In x (map fst buckets) <-> In x models /\ isInherited x = false) ->
  NoDup (map fst buckets) ->
  StronglySorted keyBefore (map fst buckets) ->
  filter (fun x => negb (isArrayIndex x)) (map fst buckets) = filter own models ->
  let keys' := map fst (defineProperty m zeroTokens buckets) in
  (forall x, In x keys' <-> In x (setAdd m models) /\ isInherited x = false)
  /\ NoDup keys'
  /\ StronglySorted keyBefore keys'
  /\ filter (fun x => negb (isArrayIndex x)) keys' = filter own (setAdd m models).
Proof.
  intros own Hown Hnew Hin Hnodup Hsorted Hnames keys'.
  pose proof (Permutation_map fst (defineProperty_Permutation m zeroTokens buckets))
    as Hperm.
  simpl in Hperm. fold keys' in Hperm.
  assert (Hfresh : setAdd m models = models ++ [m]).
  { unfold setAdd. destruct (existsb (String.eqb m) models) eqn:E; [|reflexivity].
    apply existsb_In in E. exfalso. apply Hnew, Hin. split; assumption. }
  split; [|split; [|split]].
  - intros x. rewrite In_setAdd. split.
    + intros H. apply (Permutation_in _ Hperm) in H as [<- | H].
      * split; [left; reflexivity | exact Hown].
      * apply Hin in H as [H Hx]. split; [right; exact H | exact Hx].
    + intros [[-> | H] Hx]; apply (Permutation_in _ (Permutation_sym Hperm)).
      * left. reflexivity.
      * right. apply Hin. split; assumption.
  - apply (Permutation_NoDup (Permutation_sym Hperm)).
    constructor; assumption.
  - unfold keys', defineProperty. destruct (arrayIndex m) as [n|] eqn:Em.
    + apply placeIndex_sorted; assumption.
    + rewrite map_app. apply append_name_sorted; assumption.
  - rewrite Hfresh, filter_app.
    change (filter own [m]) with (if own m then [m] else []).
    unfold keys', defineProperty.
    destruct (arrayIndex m) as [n|] eqn:Em.
    + assert (Hm : own m = false)
        by (unfold own, isArrayIndex; rewrite Em; reflexivity).
      rewrite (placeIndex_names n m zeroTokens buckets Em), Hnames, Hm.
      symmetry. apply app_nil_r.
    + assert (Hm : own m = true)
        by (unfold own, isArrayIndex; rewrite Em, Hown; reflexivity).
      assert (Hname : negb (isArrayIndex m) = true)
        by (unfold isArrayIndex; rewrite Em; reflexivity).
      rewrite map_app, filter_app, Hnames, Hm.
      change (filter (fun x => negb (isArrayIndex x)) (map fst [(m, zeroTokens)]))
        with (if negb (isArrayIndex m) then [m] else []).
      rewrite Hname. reflexivity.
Qed.

Lemma extractFromContentBlock_models (acc acc' : Acc) (block : JSON) :
  extractFromContentBlock acc block = Return acc' ->
  accModelsUsed acc' = accModelsUsed acc.
Proof.
  unfold extractFromContentBlock. intros H. unbind H.
  destruct (isStr "tool_use" v); [|injection H as <-; reflexivity].
  unbind H. destruct (truthy v0); [|injection H as <-; reflexivity].
  unbind H. injection H as <-. reflexivity.
Qed.

Lemma trackModel_bucket_keys (model : option JSON) (acc acc' : Acc) :
  trackModel model acc = Return acc' ->
  keysFollowModels acc -> keysFollowModels acc'.
Proof.
  unfold trackModel, keysFollowModels. intros H (Hin & Hnodup & Hsorted & Hnames).
  destruct (truthy model);
    [|injection H as <-; exact (conj Hin (conj Hnodup (conj Hsorted Hnames)))].
  apply bind_Return in H as (m & _ & H). injection H as <-. simpl.
  destruct (isInherited m) eqn:Einh.
  - split; [|split; [exact Hnodup|split; [exact Hsorted|]]].
    + intros x. rewrite Hin, In_setAdd. split.
      * intros [H Hx]. split; [right; exact H | exact Hx].
      * intros [[-> | H] Hx]; [rewrite Einh in Hx; discriminate|].
        split; assumption.
    + rewrite Hnames. symmetry. apply filter_setAdd_false.
      rewrite Einh. apply andb_false_r.
  - destruct (lookup m (accModelTokens acc)) eqn:Elook.
    + assert (Hm : In m (accModelsUsed acc)).
      { apply Hin, lookup_In. rewrite Elook. discriminate. }
      assert (Hsame : setAdd m (accModelsUsed acc) = accModelsUsed acc).
      { unfold setAdd. apply existsb_In in Hm. rewrite Hm. reflexivity. }
      rewrite Hsame. exact (conj Hin (conj Hnodup (conj Hsorted Hnames))).
    + apply defineProperty_keys; try assumption.
      intros Hm. apply lookup_In in Hm. contradiction.
Qed.

Lemma accumulateUsage_bucket_keys (model usage : option JSON) (acc acc' : Acc) :
  accumulateUsage model usage acc = Return acc' ->
  keysFollowModels acc -> keysFollowModels acc'.
Proof.
  unfold accumulateUsage, keysFollowModels. intros H Hacc.
  destruct (truthy usage); [|injection H as <-; exact Hacc].
  apply bind_Return in H as (u & _ & H).
  apply bind_Return in H as (totals & _ & H).
  apply bind_Return in H as (buckets & Hb & H).
  injection H as <-. simpl.
  assert (Hkeys : map fst buckets = map fst (accModelTokens acc)).
  { destruct (truthy model); [|injection Hb as <-; reflexivity].
    apply bind_Return in Hb as (m & _ & Hb).
    destruct (isInherited m); [injection Hb as <-; reflexivity|].
    destruct (lookup m (accModelTokens acc)); [|injection Hb as <-; reflexivity].
    exact (addToBucket_keys _ _ _ _ Hb). }
  rewrite Hkeys. exact Hacc.
Qed.

Lemma processMessage_bucket_keys (acc acc' : Acc) (msg : JSON) :
  processMessage acc msg = Return acc' ->
  keysFollowModels acc -> keysFollowModels acc'.
Proof.
  unfold processMessage. intros H Hacc. unbind H.
  destruct (isStr "user" v).
  - unbind H.
    destruct v1 as [[ | | | text | | ]|]; try (injection H as <-; exact Hacc).
    destruct (negb (Str.isEmpty (Str.trim text))); injection H as <-; exact Hacc.
  - destruct (isStr "assistant" v); [|injection H as <-; exact Hacc].
    unbind H.
    apply (trackModel_bucket_keys _ _ _ Hv2) in Hacc.
    apply (accumulateUsage_bucket_keys _ _ _ _ Hv4) in Hacc.
    destruct v5 as [[ | | | | blocks | ]|]; try (injection H as <-; exact Hacc).
    revert H. apply (forOf_invariant keysFollowModels); [|exact Hacc].
    unfold keysFollowModels. intros s x s' _ Hs Hx.
    rewrite (extractFromContentBlock_models _ _ _ Hx).
    apply extractFromContentBlock_tokens in Hx as [_ ->]. exact Hs.
Qed.

Lemma filter_all {A : Type} (f : A -> bool) (l : list A) :
  forallb f l = true -> filter f l = l.
Proof.
  induction l as [|x rest IH]; simpl; [reflexivity|].
  intros H. apply andb_true_iff in H as [-> H]. rewrite (IH H). reflexivity.
Qed.

(** X6: In a session returned by the line-delimited extractor, the keys of
    [modelTokens], in the order in which the object enumerates them, are the
    models of [modelsUsed] other than the names that a plain object
    inherits, each once: first those that are array indices, in ascending
    order, then the others in the order of [modelsUsed]; when no model is an
    array index or an inherited name, the keys are [modelsUsed] itself. *)
Theorem modelTokens_keys_in_object_order
  (JSON_parse : string -> option JSON) (Date_parse : string -> Date)
  (content : string) (sessionId : option string) (s : ParsedSession) :
  parseSessionContent JSON_parse Date_parse content sessionId = Return (Some s) ->
  (forall m, In m (map fst (modelTokens s))
             <-> In m (modelsUsed s) /\ isInherited m = false)
  /\ NoDup (map fst (modelTokens s))
  /\ StronglySorted keyBefore (map fst (modelTokens s))
  /\ filter (fun k => negb (isArrayIndex k)) (map fst (modelTokens s))
     = filter (fun m => negb (isArrayIndex m) && negb (isInherited m))
         (modelsUsed s)
  /\ (forallb (fun m => negb (isArrayIndex m) && negb (isInherited m))
        (modelsUsed s) = true ->
      map fst (modelTokens s) = modelsUsed s).
Proof.
  unfold parseSessionContent, buildSession.
  destruct (linesOf content) as [|l ls]; [discriminate|].
  destruct (collectMessages JSON_parse (l :: ls)) as [|m ms]; [discriminate|].
  intros H. apply bind_Return in H as (acc & Hloop & H).
  unbind H. injection H as <-. simpl.
  assert (Hkeys : keysFollowModels acc).
  { revert Hloop. apply (forOf_invariant keysFollowModels).
    - intros a x a' _ Ha Hx. exact (processMessage_bucket_keys _ _ _ Hx Ha).
    - unfold keysFollowModels. simpl.
      split; [intros x; split; [intros [] | intros [[] _]]|].
      split; [constructor|]. split; [constructor | reflexivity]. }
  destruct Hkeys as (Hin & Hnodup & Hsorted & Hnames).
  split; [exact Hin|]. split; [exact Hnodup|]. split; [exact Hsorted|].
  split; [exact Hnames|].
  intros Hall. rewrite (filter_all _ _ Hall) in Hnames. rewrite <- Hnames.
  symmetry. apply filter_all. apply forallb_forall. intros k Hk.
  apply Hin in Hk as [Hk _]. rewrite forallb_forall in Hall.
  specialize (Hall k Hk). apply andb_true_iff in Hall as [Hidx _]. exact Hidx.
Qed.

Lemma modelTokens_keys_witness :
  exists s,
    parseSessionContent (parseOf namedModelEvents) noDates
      (joinLines (map stringify namedModelEvents)) None = Return (Some s)
    /\ modelsUsed s = ["gpt"; "10"; "4"; "constructor"]
    /\ map fst (modelTokens s) = ["4"; "10"; "gpt"]
    /\ NoDup (map fst (modelTokens s))
    /\ StronglySorted keyBefore (map fst (modelTokens s)).
Proof.
  eexists. split; [vm_compute; reflexivity|]. split; [reflexivity|].
  split; [reflexivity|].
  destruct (modelTokens_keys_in_object_order (parseOf namedModelEvents) noDates
              (joinLines (map stringify namedModelEvents)) None _
              ltac:(vm_compute; reflexivity))
    as (_ & Hnodup & Hsorted & _).
  split; assumption.
Defined.

(** ** Counting events and messages *)

Lemma userContribution_length (msg : JSON) : length (userContribution msg) <= 1.
Proof.
  unfold userContribution. destruct msg as [ | | | | | fields ]; simpl; try lia.
  destruct (isStr "user" (lookup "type" fields)); simpl; [|lia].
  destruct (lookup "message" fields) as [[ | | | | | m ]|]; simpl; try lia.
  destruct (lookup "content" m) as [[ | | | text | | ]|]; simpl; try lia.
  destruct (Str.isEmpty (Str.trim text)); simpl; lia.
Qed.

Lemma userContribution_nonblank (msg : JSON) (text : string) :
  In text (userContribution msg) -> Str.trim text <> EmptyString.
Proof.
  unfold userContribution. destruct msg as [ | | | | | fields ]; simpl; try tauto.
  destruct (isStr "user" (lookup "type" fields)); simpl; [|tauto].
  destruct (lookup "message" fields) as [[ | | | | | m ]|]; simpl; try tauto.
  destruct (lookup "content" m) as [[ | | | t | | ]|]; simpl; try tauto.
  destruct (Str.isEmpty (Str.trim t)) eqn:E; simpl; [tauto|].
  intros [<- | []]. intros Hblank. rewrite Hblank in E. discriminate.
Qed.

Lemma flat_map_length_le {A B : Type} (f : A -> list B) (l : list A) :
  (forall x, length (f x) <= 1) -> length (flat_map f l) <= length l.
Proof.
  intros Hf. induction l as [|x rest IH]; simpl; [lia|].
  rewrite length_app. specialize (Hf x). lia.
Qed.

(** X7: In a session returned by the line-delimited extractor, [messageCount]
    is the number of retained events, it is at least 1, and [userMessages]
    has at most that many entries. *)
Theorem messageCount_counts_retained_events
  (JSON_parse : string -> option JSON) (Date_parse : string -> Date)
  (content : string) (sessionId : option string) (s : ParsedSession) :
  parseSessionContent JSON_parse Date_parse content sessionId = Return (Some s) ->
  messageCount s = length (collectMessages JSON_parse (linesOf content))
  /\ 1 <= messageCount s
  /\ length (userMessages s) <= messageCount s.
Proof.
  rewrite parseSessionContent_lines. unfold buildSession.
  destruct (collectMessages JSON_parse (linesOf content)) as [|m ms];
    [discriminate|].
  intros H. unbind H. injection H as <-. simpl messageCount.
  simpl userMessages.
  split; [reflexivity|]. split; [simpl; lia|].
  rewrite (forOf_processMessage_userMessages _ _ _ Hv).
  change (accUserMessages emptyAcc ++ flat_map userContribution (m :: ms))
    with (flat_map userContribution (m :: ms)).
  apply (flat_map_length_le userContribution (m :: ms)), userContribution_length.
Qed.

Lemma messageCount_witness :
  exists s,
    parseSessionContent (parseOf mixedUserEvents) noDates
      (joinLines (map stringify mixedUserEvents)) None = Return (Some s)
    /\ messageCount s = 3 /\ length (userMessages s) = 1
    /\ length (userMessages s) <= messageCount s.
Proof.
  eexists. split; [vm_compute; reflexivity|].
  split; [reflexivity|]. split; [reflexivity|].
  apply (messageCount_counts_retained_events (parseOf mixedUserEvents) noDates
           (joinLines (map stringify mixedUserEvents)) None).
  vm_compute. reflexivity.
Defined.

Lemma collectPart_nonempty (acc acc' : Acc) (part : JSON) :
  collectPart acc part = Return acc' ->
  Forall (fun m => m <> EmptyString) (accUserMessages acc) ->
  Forall (fun m => m <> EmptyString) (accUserMessages acc').
Proof.
  unfold collectPart. intros H Hacc. unbind H.
  destruct (isStr "text" v); [|injection H as <-; exact Hacc].
  unbind H. destruct (truthy v0) eqn:Et; [|injection H as <-; exact Hacc].
  unbind H. injection H as <-. simpl.
  apply Forall_app. split; [exact Hacc|]. constructor; [|constructor].
  destruct v0 as [[ | | | t | | ]|]; try discriminate.
  injection Hv1 as <-. intros ->. discriminate.
Qed.

Lemma collectToolCall_userMessages (acc acc' : Acc) (toolCall : JSON) :
  collectToolCall acc toolCall = Return acc' ->
  accUserMessages acc' = accUserMessages acc.
Proof.
  unfold collectToolCall. intros H. unbind H. injection H as <-. reflexivity.
Qed.

Lemma processEnvelope_nonempty (acc acc' : Acc) (message : JSON) :
  processEnvelope acc message = Return acc' ->
  Forall (fun m => m <> EmptyString) (accUserMessages acc) ->
  Forall (fun m => m <> EmptyString) (accUserMessages acc').
Proof.
  unfold processEnvelope. intros H Hacc. unbind H.
  assert (H2 : Forall (fun m => m <> EmptyString) (accUserMessages v2)).
  { destruct (isStr "user" v0 && truthy v1); [|injection Hv2 as <-; exact Hacc].
    unbind Hv2. revert Hv2.
    apply (forOf_invariant
             (fun a => Forall (fun m => m <> EmptyString) (accUserMessages a)));
      [|exact Hacc].
    intros s x s' _ Hs Hx. exact (collectPart_nonempty _ _ _ Hx Hs). }
  assert (H4 : Forall (fun m => m <> EmptyString) (accUserMessages v4)).
  { destruct (truthy v3); [|injection Hv4 as <-; exact H2].
    unbind Hv4. revert Hv4.
    apply (forOf_invariant
             (fun a => Forall (fun m => m <> EmptyString) (accUserMessages a)));
      [|exact H2].
    intros s x s' _ Hs Hx.
    rewrite (collectToolCall_userMessages _ _ _ Hx). exact Hs. }
  destruct (truthy v5); [|injection H as <-; exact H4].
  unbind H. injection H as <-. exact H4.
Qed.

Lemma trim_empty_of_empty (m : string) :
  Str.trim m <> EmptyString -> m <> EmptyString.
Proof. intros H ->. apply H. reflexivity. Qed.

(** X8: No user message of a returned session is the empty string, in either
    format; in a line-delimited session none is blank (white space only)
    either. *)
Theorem userMessages_are_never_empty
  (JSON_parse : string -> option JSON) (Date_parse : string -> Date)
  (raw : RawSession) (s : ParsedSession) :
  extract JSON_parse Date_parse raw = Return (Some s) ->
  Forall (fun m => m <> EmptyString) (userMessages s)
  /\ (forall content path,
         raw = Transcript content path ->
         Forall (fun m => Str.trim m <> EmptyString) (userMessages s)).
Proof.
  destruct raw as [content path | session]; simpl; intros H.
  - assert (Hall : Forall (fun m => Str.trim m <> EmptyString) (userMessages s)).
    { rewrite parseSessionContent_lines in H. unfold buildSession in H.
      destruct (collectMessages JSON_parse (linesOf content)) as [|m ms];
        [discriminate|].
      unbind H. injection H as <-. simpl userMessages.
      rewrite (forOf_processMessage_userMessages _ _ _ Hv).
      change (accUserMessages emptyAcc ++ flat_map userContribution (m :: ms))
        with (flat_map userContribution (m :: ms)).
      apply Forall_forall. intros text Hin.
      apply in_flat_map in Hin as (msg & _ & Hin).
      exact (userContribution_nonblank msg text Hin). }
    split; [|intros _ _ _; exact Hall].
    apply (Forall_impl _ trim_empty_of_empty Hall).
  - split; [|intros content path Heq; discriminate].
    unbind H. injection H as <-.
    unfold parseOpenCodeSession in Hv. unbind Hv. injection Hv as <-. simpl.
    match goal with
    | Hrun : forOf processEnvelope _ _ = Return _ |- _ => revert Hrun
    end.
    apply (forOf_invariant
             (fun a => Forall (fun m => m <> EmptyString) (accUserMessages a)));
      [|constructor].
    intros acc x acc' _ Hacc Hx. exact (processEnvelope_nonempty _ _ _ Hx Hacc).
Qed.

Lemma userMessages_never_empty_witness :
  exists s,
    parseOpenCodeSession noDates (exportWith "Notes" "   " 1500) = Return s
    /\ userMessages s = ["   "]
    /\ Forall (fun m => m <> EmptyString) (userMessages s).
Proof.
  eexists. split; [reflexivity|]. split; [reflexivity|].
  apply (userMessages_are_never_empty (parseOf []) noDates
           (Export (exportWith "Notes" "   " 1500))).
  reflexivity.
Defined.

(** ** The identifier of a line-delimited session *)

Lemma drop_append (a b : string) : Str.drop (String.length a) (a ++ b) = b.
Proof. induction a as [|c a' IH]; simpl; [destruct b; reflexivity | exact IH]. Qed.

Lemma substring_append (a b : string) :
  substring 0 (String.length a) (a ++ b) = a.
Proof.
  induction a as [|c a' IH]; simpl; [destruct b; reflexivity|].
  rewrite IH. reflexivity.
Qed.

Lemma length_append_string (a b : string) :
  String.length (a ++ b) = String.length a + String.length b.
Proof. induction a as [|c a' IH]; simpl; [reflexivity | rewrite IH; reflexivity]. Qed.

(** X9: The file name of a transcript, a 36-character identifier of lowercase
    hexadecimal digits and hyphens followed by [.jsonl], gives that
    identifier back, whatever the directory in front of it. *)
Theorem matchSessionPath_of_uuid_file (dir uuid : string) :
  String.length uuid = 36 ->
  Str.allChars isUuidChar uuid = true ->
  matchSessionPath (dir ++ uuid ++ ".jsonl") = Some uuid.
Proof.
  intros Hlen Hchars. unfold matchSessionPath.
  rewrite !length_append_string, Hlen.
  change (String.length ".jsonl") with 6.
  replace (42 <=? String.length dir + (36 + 6))%nat with true
    by (symmetry; apply Nat.leb_le; lia).
  replace (String.length dir + (36 + 6) - 42) with (String.length dir) by lia.
  rewrite drop_append. cbv zeta.
  rewrite <- Hlen, !substring_append, drop_append, Hchars. reflexivity.
Qed.

Lemma matchSessionPath_of_uuid_file_witness :
  matchSessionPath ("/home/u/.claude/projects/app/" ++ someUuid ++ ".jsonl")
  = Some someUuid.
Proof.
  apply (matchSessionPath_of_uuid_file "/home/u/.claude/projects/app/" someUuid);
    reflexivity.
Defined.

Lemma matchSessionPath_nonempty (path group : string) :
  matchSessionPath path = Some group -> group <> EmptyString.
Proof.
  unfold matchSessionPath.
  destruct (42 <=? String.length path)%nat; [|discriminate].
  destruct (Str.drop (String.length path - 42) path) as [|c tail].
  - simpl. discriminate.
  - destruct (Str.allChars isUuidChar (substring 0 36 (String c tail))
              && String.eqb (Str.drop 36 (String c tail)) ".jsonl");
      [|discriminate].
    intros [= <-]. simpl. discriminate.
Qed.

Lemma stringOr_nonempty (v : option JSON) (d x : string) :
  d <> EmptyString -> stringOr v d = Return x -> x <> EmptyString.
Proof.
  unfold stringOr. intros Hd. destruct (truthy v) eqn:E.
  - destruct v as [[ | | | s | | ]|]; simpl; try discriminate.
    intros [= <-]. intros ->. discriminate.
  - intros [= <-]. exact Hd.
Qed.

(** X10: The identifier of a session returned by the line-delimited extractor is
    never empty, and when the path of the transcript ends in a 36-character
    identifier and [.jsonl], it is that identifier, whatever [sessionId] the
    events carry. *)
Theorem session_id_is_nonempty_and_prefers_the_path
  (JSON_parse : string -> option JSON) (Date_parse : string -> Date)
  (content : string) (sessionId : option string) (s : ParsedSession) :
  parseSessionContent JSON_parse Date_parse content sessionId = Return (Some s) ->
  id s <> EmptyString
  /\ (forall path group,
         sessionId = Some path -> matchSessionPath path = Some group ->
         id s = group).
Proof.
  rewrite parseSessionContent_lines. unfold buildSession.
  destruct (collectMessages JSON_parse (linesOf content)) as [|m ms];
    [discriminate|].
  intros H. unbind H. injection H as <-. simpl id.
  unfold deriveId in Hv0. split.
  - destruct (match sessionId with
              | Some path => matchSessionPath path
              | None => None
              end) as [g|] eqn:Eg.
    + injection Hv0 as <-. destruct sessionId as [path|]; [|discriminate].
      exact (matchSessionPath_nonempty path g Eg).
    + unbind Hv0. apply (stringOr_nonempty v6 "unknown" v0); [discriminate|].
      exact Hv0.
  - intros path group -> Hmatch. rewrite Hmatch in Hv0.
    injection Hv0 as <-. reflexivity.
Qed.

Lemma session_id_witness :
  exists s,
    parseSessionContent (parseOf [firstEvent]) noDates (stringify firstEvent)
      (Some ("/p/" ++ someUuid ++ ".jsonl")%string) = Return (Some s)
    /\ id s = someUuid /\ id s <> EmptyString.
Proof.
  eexists. split; [vm_compute; reflexivity|]. split; [reflexivity|].
  apply (session_id_is_nonempty_and_prefers_the_path (parseOf [firstEvent])
           noDates (stringify firstEvent)
           (Some ("/p/" ++ someUuid ++ ".jsonl")%string)).
  vm_compute. reflexivity.
Defined.

(** ** More on the relevance score *)

Lemma matchCount_le (queryTerms : list string) (textLower : string) :
  matchCount queryTerms textLower <= length queryTerms.
Proof. unfold matchCount. apply filter_length_le. Qed.

Lemma totalMatches_le (queryTerms texts : list string) :
  totalMatches queryTerms texts <= length queryTerms * length texts.
Proof.
  unfold totalMatches. induction texts as [|t rest IH]; simpl; [lia|].
  pose proof (matchCount_le queryTerms (Str.toLowerCase t)). lia.
Qed.

Lemma titleTexts_length (s : ParsedSession) : length (titleTexts s) <= 1.
Proof.
  unfold titleTexts. destruct (title s) as [t|]; [destruct (Str.isEmpty t)|];
    simpl; lia.
Qed.

(** X11: For a non-empty query the score lies between 0 and the number of query
    terms times the weight of all fields together: 15 for a title, 10 for
    each user message, 5 for the directory, 3 for each tool and each file. *)
Theorem scoreRelevance_bounds (s : ParsedSession) (q : string) :
  q <> EmptyString ->
  (0 <= scoreRelevance s q
   <= Z.of_nat (length (queryTermsOf q))
      * (15 + 10 * Z.of_nat (length (userMessages s)) + 5
         + 3 * Z.of_nat (length (toolsUsed s))
         + 3 * Z.of_nat (length (filesFromToolCalls s))))%Z.
Proof.
  intros Hq. rewrite (scoreRelevance_closed s q Hq).
  pose proof (totalMatches_le (queryTermsOf q) (titleTexts s)).
  pose proof (titleTexts_length s).
  pose proof (totalMatches_le (queryTermsOf q) (userMessages s)).
  pose proof (matchCount_le (queryTermsOf q) (Str.toLowerCase (cwd s))).
  pose proof (totalMatches_le (queryTermsOf q) (toolsUsed s)).
  pose proof (totalMatches_le (queryTermsOf q) (filesFromToolCalls s)).
  nia.
Qed.

Lemma scoreRelevance_bounds_witness :
  scoreRelevance (sessionEndedAt 0) "septa fix app" = 45%Z
  /\ (0 <= scoreRelevance (sessionEndedAt 0) "septa fix app" <= 3 * 30)%Z.
Proof.
  split; [reflexivity|].
  apply (scoreRelevance_bounds (sessionEndedAt 0) "septa fix app").
  discriminate.
Defined.

Lemma filterBoolean_splitWsFrom (s : string) :
  Str.filterBoolean (Str.splitWsFrom true s)
  = Str.filterBoolean (Str.splitWsFrom false s).
Proof.
  destruct s as [|c rest]; simpl; [reflexivity|].
  destruct (Str.isWhiteSpace c); reflexivity.
Qed.

Lemma splitWs_append (w : ascii) (a b : string) :
  Str.isWhiteSpace w = true ->
  exists h t t',
    Str.splitWsFrom false a = h :: t
    /\ Str.splitWsFrom false (a ++ String w b) = h :: t'
    /\ Str.filterBoolean t'
       = Str.filterBoolean t ++ Str.filterBoolean (Str.splitWsFrom true b).
Proof.
  intros Hw. induction a as [|c a' IH].
  - exists EmptyString, [], (Str.splitWsFrom true b). simpl. rewrite Hw.
    repeat split.
  - destruct IH as (h & t & t' & Ha & Hab & Hf).
    change (String c a' ++ String w b)%string
      with (String c (a' ++ String w b)%string).
    simpl. destruct (Str.isWhiteSpace c).
    + exists EmptyString, (Str.splitWsFrom true a'),
        (Str.splitWsFrom true (a' ++ String w b)).
      split; [reflexivity|]. split; [reflexivity|].
      rewrite (filterBoolean_splitWsFrom a'),
        (filterBoolean_splitWsFrom (a' ++ String w b)), Ha, Hab.
      unfold Str.filterBoolean in *. simpl.
      destruct (negb (Str.isEmpty h)); simpl; rewrite Hf; reflexivity.
    + rewrite Ha, Hab. simpl. exists (String c h), t, t'.
      repeat split. exact Hf.
Qed.

Lemma lowerChar_space : Str.lowerChar " " = " "%char.
Proof. reflexivity. Qed.

Lemma queryTermsOf_append (q1 q2 : string) :
  queryTermsOf (q1 ++ String " " q2)
  = queryTermsOf q1 ++ queryTermsOf q2.
Proof.
  unfold queryTermsOf, Str.splitWs.
  rewrite toLowerCase_app. simpl Str.toLowerCase at 2. rewrite lowerChar_space.
  destruct (splitWs_append " " (Str.toLowerCase q1) (Str.toLowerCase q2) eq_refl)
    as (h & t & t' & Ha & Hab & Hf).
  rewrite Ha, Hab. unfold Str.filterBoolean in *. simpl.
  rewrite Hf. fold (Str.filterBoolean (Str.splitWsFrom true (Str.toLowerCase q2))).
  rewrite filterBoolean_splitWsFrom. unfold Str.filterBoolean.
  destruct (negb (Str.isEmpty h)); reflexivity.
Qed.

Lemma matchCount_app (t1 t2 : list string) (textLower : string) :
  matchCount (t1 ++ t2) textLower
  = matchCount t1 textLower + matchCount t2 textLower.
Proof. unfold matchCount. rewrite filter_app, length_app. reflexivity. Qed.

Lemma totalMatches_terms_app (t1 t2 texts : list string) :
  totalMatches (t1 ++ t2) texts = totalMatches t1 texts + totalMatches t2 texts.
Proof.
  unfold totalMatches. induction texts as [|x rest IH]; simpl; [reflexivity|].
  rewrite IH, matchCount_app. lia.
Qed.

(** X12: The score of two non-empty queries put together with a space between
    them is the sum of their scores: every term counts on its own, and a term
    written twice counts twice. *)
Theorem scoreRelevance_of_joined_queries (s : ParsedSession) (q1 q2 : string) :
  q1 <> EmptyString -> q2 <> EmptyString ->
  scoreRelevance s (q1 ++ String " " q2)
  = (scoreRelevance s q1 + scoreRelevance s q2)%Z.
Proof.
  intros H1 H2.
  assert (H12 : (q1 ++ String " " q2)%string <> EmptyString)
    by (destruct q1; [contradiction | discriminate]).
  rewrite (scoreRelevance_closed s _ H12), (scoreRelevance_closed s q1 H1),
    (scoreRelevance_closed s q2 H2).
  rewrite queryTermsOf_append, !totalMatches_terms_app, matchCount_app. lia.
Qed.

Lemma scoreRelevance_of_joined_queries_witness :
  scoreRelevance (sessionEndedAt 0) "fix" = 10%Z
  /\ scoreRelevance (sessionEndedAt 0) "fix fix" = 20%Z
  /\ scoreRelevance (sessionEndedAt 0) ("fix" ++ String " " "fix")
     = (scoreRelevance (sessionEndedAt 0) "fix"
        + scoreRelevance (sessionEndedAt 0) "fix")%Z.
Proof.
  split; [reflexivity|]. split; [reflexivity|].
  apply (scoreRelevance_of_joined_queries (sessionEndedAt 0) "fix" "fix");
    discriminate.
Defined.

(** ** The tool and file-pattern rules of the filter *)

Lemma toolRule_test (s : ParsedSession) (options : SearchOptions) :
  match tools options with
  | Some ((_ :: _) as requested) =>
      negb (existsb
              (fun tool =>
                 existsb
                   (fun t => Str.includes (Str.toLowerCase t)
                               (Str.toLowerCase tool))
                   (toolsUsed s))
              requested)
  | _ => false
  end = false
  <-> toolRule s options.
Proof.
  unfold toolRule. destruct (tools options) as [[|tool0 rest]|].
  - split; [|reflexivity]. intros _ requested [= <-] Hne. contradiction.
  - rewrite negb_false_iff.
    rewrite (existsb_exists _ (tool0 :: rest)). split.
    + intros (tool & Hin & Ht) requested [= <-] _.
      apply existsb_exists in Ht as (t & Hint & Hinc).
      exists tool, t. split; [exact Hin|]. split; [exact Hint | exact Hinc].
    + intros H. destruct (H (tool0 :: rest) eq_refl) as (tool & t & Hin & Hint & Hinc);
        [discriminate|].
      exists tool. split; [exact Hin|].
      apply existsb_exists. exists t. split; [exact Hint | exact Hinc].
  - split; [|reflexivity]. intros _ requested Heq. discriminate.
Qed.

Lemma fileRule_test (s : ParsedSession) (options : SearchOptions) :
  match filePattern options with
  | Some p =>
      negb (Str.isEmpty p)
      && negb (existsb
                 (fun f => Str.includes (Str.toLowerCase f) (Str.toLowerCase p))
                 (filesFromToolCalls s))
  | None => false
  end = false
  <-> fileRule s options.
Proof.
  unfold fileRule. destruct (filePattern options) as [[|c p]|].
  - split; [|reflexivity]. intros _ pattern [= <-] Hne. contradiction.
  - simpl. rewrite negb_false_iff, existsb_exists. split.
    + intros H pattern [= <-] _. exact H.
    + intros H. apply (H (String c p) eq_refl). discriminate.
  - split; [|reflexivity]. intros _ pattern Heq. discriminate.
Qed.

(** X13: Without date options, a session passes the filter exactly when it
    meets the tool rule and the file-pattern rule: a requested tool is a
    case-insensitive substring of a used tool ([edit] matches [MultiEdit]),
    and the pattern of a touched file; an empty list of tools and an empty
    pattern ask nothing. *)
Theorem matchesFilters_tool_and_file_rules
  (now : Z) (s : ParsedSession) (options : SearchOptions) :
  since options = None -> until options = None -> days options = None ->
  (matchesFilters now s options = true <-> toolRule s options /\ fileRule s options).
Proof.
  intros Hs Hu Hd. unfold matchesFilters. rewrite Hs, Hu, Hd.
  rewrite <- toolRule_test, <- fileRule_test.
  destruct (match tools options with
            | Some ((_ :: _) as requested) => _
            | _ => false
            end);
    destruct (match filePattern options with
              | Some p => _
              | None => false
              end); simpl; split; try discriminate; try tauto;
    intros [H1 H2]; discriminate.
Qed.

Lemma matchesFilters_rules_witness :
  matchesFilters someNow editingSession (toolAndFileOptions ["edit"] "app.TSX")
  = true
  /\ matchesFilters someNow editingSession (toolAndFileOptions ["read"] "app")
     = false
  /\ (toolRule editingSession (toolAndFileOptions ["edit"] "app.TSX")
      /\ fileRule editingSession (toolAndFileOptions ["edit"] "app.TSX")).
Proof.
  split; [reflexivity|]. split; [reflexivity|].
  apply (matchesFilters_tool_and_file_rules someNow editingSession
           (toolAndFileOptions ["edit"] "app.TSX")); reflexivity.
Defined.

(** ** What a search keeps *)

Lemma sortBy_length {A : Type} (cmp : A -> A -> Z) (l : list A) :
  length (sortBy cmp l) = length l.
Proof.
  unfold sortBy. induction l as [|x rest IH]; simpl; [reflexivity|].
  rewrite <- IH. generalize (fold_right (insertBy cmp) [] rest). intros sorted.
  induction sorted as [|y ys IHs]; simpl; [reflexivity|].
  destruct (cmp x y <=? 0)%Z; simpl; [reflexivity | rewrite IHs; reflexivity].
Qed.

Lemma parseOpenCodeSession_truthy (Date_parse : string -> Date) (raw : JSON)
  (s : ParsedSession) :
  parseOpenCodeSession Date_parse raw = Return s -> truthy (Some raw) = true.
Proof.
  destruct raw; simpl; try discriminate. reflexivity.
Qed.

Lemma processSession_grows (Date_parse : string -> Date) (now : Z)
  (options : SearchOptions) (results results' : list SearchResult)
  (rawSession : option JSON) :
  processSession Date_parse now options results rawSession = Return results' ->
  (forall r, In r results -> In r results')
  /\ length results' <= S (length results).
Proof.
  unfold processSession.
  destruct (negb (truthy rawSession)); [intros [= <-]; split; [tauto | lia]|].
  destruct rawSession as [raw|]; [|intros [= <-]; split; [tauto | lia]].
  intros H. unbind H.
  assert (Hpush : forall rel,
             (forall r, In r results ->
                        In r (results ++ [mkSearchResult v rel]))
             /\ length (results ++ [mkSearchResult v rel]) <= S (length results)).
  { intros rel. split.
    - intros r Hr. apply in_or_app. left. exact Hr.
    - rewrite length_app. simpl. lia. }
  destruct (userMessages v); [injection H as <-; split; [tauto | lia]|].
  destruct (negb (matchesFilters now v options));
    [injection H as <-; split; [tauto | lia]|].
  destruct (hasQuery options) as [q|].
  - destruct (scoreRelevance v q =? 0)%Z; injection H as <-;
      [split; [tauto | lia] | apply Hpush].
  - injection H as <-. apply Hpush.
Qed.

Lemma processSession_keeps_match (Date_parse : string -> Date) (now : Z)
  (options : SearchOptions) (results results' : list SearchResult)
  (raw : JSON) (s : ParsedSession) :
  parseOpenCodeSession Date_parse raw = Return s ->
  userMessages s <> [] ->
  matchesFilters now s options = true ->
  (forall q, hasQuery options = Some q -> scoreRelevance s q <> 0%Z) ->
  processSession Date_parse now options results (Some raw) = Return results' ->
  exists r, In r results' /\ session r = s.
Proof.
  intros Hparse Hmsgs Hfilter Hscore. unfold processSession.
  rewrite (parseOpenCodeSession_truthy _ _ _ Hparse), Hparse. simpl.
  destruct (userMessages s) as [|u us]; [contradiction|].
  rewrite Hfilter. simpl.
  destruct (hasQuery options) as [q|].
  - specialize (Hscore q eq_refl). apply Z.eqb_neq in Hscore. rewrite Hscore.
    intros [= <-]. eexists. split; [apply in_or_app; right; left; reflexivity|].
    reflexivity.
  - intros [= <-]. eexists. split; [apply in_or_app; right; left; reflexivity|].
    reflexivity.
Qed.

Lemma forOf_processSession_grows (Date_parse : string -> Date) (now : Z)
  (options : SearchOptions) (exported : list (option JSON)) :
  forall results results',
    forOf (processSession Date_parse now options) exported results
    = Return results' ->
    (forall r, In r results -> In r results')
    /\ length results' <= length results + length exported.
Proof.
  induction exported as [|x rest IH]; simpl; intros results results' H.
  - injection H as <-. split; [tauto | lia].
  - unbind H. apply processSession_grows in Hv as [Hin Hlen].
    destruct (IH _ _ H) as [Hin' Hlen']. split; [|lia].
    intros r Hr. apply Hin', Hin, Hr.
Qed.

Lemma forOf_processSession_keeps_match (Date_parse : string -> Date) (now : Z)
  (options : SearchOptions) (raw : JSON) (s : ParsedSession)
  (exported : list (option JSON)) :
  parseOpenCodeSession Date_parse raw = Return s ->
  userMessages s <> [] ->
  matchesFilters now s options = true ->
  (forall q, hasQuery options = Some q -> scoreRelevance s q <> 0%Z) ->
  In (Some raw) exported ->
  forall results results',
    forOf (processSession Date_parse now options) exported results
    = Return results' ->
    exists r, In r results' /\ session r = s.
Proof.
  intros Hparse Hmsgs Hfilter Hscore.
  induction exported as [|x rest IH]; simpl; intros Hin results results' H;
    [contradiction|].
  unbind H. destruct Hin as [-> | Hin].
  - destruct (processSession_keeps_match _ _ _ _ _ _ _ Hparse Hmsgs Hfilter
                Hscore Hv) as (r & Hr & Hs).
    exists r. split; [|exact Hs].
    apply (proj1 (forOf_processSession_grows _ _ _ _ _ _ H)), Hr.
  - exact (IH Hin _ _ H).
Qed.

Lemma slice0_all {A : Type} (n : Z) (l : list A) :
  (Z.of_nat (length l) <= n)%Z -> slice0 n l = l.
Proof.
  intros Hn. unfold slice0.
  destruct (Z.ltb_spec n 0) as [Hneg|_]; [lia|].
  apply firstn_all2. lia.
Qed.

(** X14: When the session list is not longer than the limit in force, a search
    that returns loses nothing: every exported session that parses, has a
    user message, passes the filter and, under a query, scores above 0, is in
    the results. *)
Theorem searchSessions_keeps_every_match
  (Date_parse : string -> Date) (now : Z) (exported : list (option JSON))
  (options : SearchOptions) (rs : list SearchResult)
  (raw : JSON) (s : ParsedSession) :
  searchSessions Date_parse now exported options = Return rs ->
  (Z.of_nat (length exported) <= effectiveLimit options)%Z ->
  In (Some raw) exported ->
  parseOpenCodeSession Date_parse raw = Return s ->
  userMessages s <> [] ->
  matchesFilters now s options = true ->
  (forall q, hasQuery options = Some q -> scoreRelevance s q <> 0%Z) ->
  exists r, In r rs /\ session r = s.
Proof.
  unfold searchSessions. intros H Hlimit Hin Hparse Hmsgs Hfilter Hscore.
  unbind H. injection H as <-.
  destruct (forOf_processSession_keeps_match _ _ _ _ _ _ Hparse Hmsgs Hfilter
              Hscore Hin _ _ Hv) as (r & Hr & Hs).
  pose proof (proj2 (forOf_processSession_grows _ _ _ _ _ _ Hv)) as Hlen.
  simpl in Hlen.
  exists r. split; [|exact Hs].
  rewrite slice0_all by (rewrite sortBy_length; lia).
  apply In_sortBy. exact Hr.
Qed.

Lemma searchSessions_keeps_every_match_witness :
  exists rs,
    searchSessions noDates someNow twoExports (optionsWith None None)
    = Return rs
    /\ exists r, In r rs /\ userMessages (session r) = ["add tests"].
Proof.
  eexists. split; [vm_compute; reflexivity|].
  edestruct (searchSessions_keeps_every_match noDates someNow twoExports
               (optionsWith None None)) as (r & Hr & Hs).
  - vm_compute. reflexivity.
  - vm_compute. discriminate.
  - left. reflexivity.
  - vm_compute. reflexivity.
  - discriminate.
  - reflexivity.
  - intros q Hq. discriminate.
  - exists r. split; [exact Hr | rewrite Hs; reflexivity].
Defined.

(** X15: Without a query (absent or empty) every result has relevance 1, and
    when every session that the search retains has a valid [endedAt] the
    results are in order of recency: an earlier result did not end before a
    later one. *)
Theorem searchSessions_without_query_is_by_recency
  (Date_parse : string -> Date) (now : Z) (exported : list (option JSON))
  (options : SearchOptions) (rs : list SearchResult) :
  query options = None \/ query options = Some EmptyString ->
  searchSessions Date_parse now exported options = Return rs ->
  (forall r, In r rs -> relevance r = 1%Z)
  /\ (retainedDatesAreValid Date_parse now options exported ->
      forall i j a b,
        i < j -> nth_error rs i = Some a -> nth_error rs j = Some b ->
        exists ta tb,
          endedAt (session a) = Some ta /\ endedAt (session b) = Some tb
          /\ (tb <= ta)%Z).
Proof.
  intros Hq Hsearch.
  assert (Hnone : hasQuery options = None)
    by (unfold hasQuery; destruct Hq as [-> | ->]; reflexivity).
  assert (Hone : forall r, In r rs -> relevance r = 1%Z).
  { intros r Hr.
    pose proof (searchSessions_retained _ _ _ _ _ Hsearch) as Hall.
    rewrite Forall_forall in Hall.
    destruct (Hall r Hr) as (raw & _ & _ & _ & _ & Hrel).
    rewrite Hnone in Hrel. exact Hrel. }
  split; [exact Hone|].
  intros Hvalid i j a b Hij Ha Hb.
  destruct (sorted_nth_error rankedBefore rs
              (searchSessions_ranked _ _ _ _ _ Hsearch Hvalid) i j a b Hij Ha Hb)
    as (ta & tb & Hta & Htb & Hab).
  exists ta, tb. split; [exact Hta|]. split; [exact Htb|].
  rewrite (Hone a (nth_error_In _ i Ha)), (Hone b (nth_error_In _ j Hb)) in Hab.
  lia.
Qed.

Lemma searchSessions_without_query_witness :
  exists rs,
    searchSessions noDates someNow twoExports (optionsWith (Some "") None)
    = Return rs
    /\ map (fun r => endedAt (session r)) rs = [Some 2000%Z; Some 1500%Z]
    /\ (forall r, In r rs -> relevance r = 1%Z)
    /\ (forall i j a b,
           i < j -> nth_error rs i = Some a -> nth_error rs j = Some b ->
           exists ta tb,
             endedAt (session a) = Some ta /\ endedAt (session b) = Some tb
             /\ (tb <= ta)%Z).
Proof.
  eexists. split; [vm_compute; reflexivity|]. split; [reflexivity|].
  destruct (searchSessions_without_query_is_by_recency noDates someNow
              twoExports (optionsWith (Some "") None) _ (or_intror eq_refl)
              eq_refl) as [Hone Horder].
  split; [exact Hone|].
  apply Horder. intros r (raw & Hin & Hparse & _).
  destruct Hin as [[= <-] | [[= <-] | []]];
    match type of Hparse with
    | ?run = _ =>
        let v := eval vm_compute in run in change run with v in Hparse
    end;
    injection Hparse as <-; eexists; reflexivity.
Defined.

(** ** The searchable text *)

Lemma startsWith_refl (s : string) : Str.startsWith s s = true.
Proof.
  induction s as [|c rest IH]; simpl; [reflexivity|].
  rewrite Ascii.eqb_refl. exact IH.
Qed.

Lemma includes_refl (s : string) : Str.includes s s = true.
Proof.
  destruct s as [|c rest]; [reflexivity|].
  rewrite includes_cons, startsWith_refl. reflexivity.
Qed.

Lemma includes_joinWith (sep p : string) (parts : list string) :
  In p parts -> Str.includes (joinWith sep parts) p = true.
Proof.
  induction parts as [|x rest IH]; [contradiction|].
  intros Hin. destruct rest as [|y rest'].
  - destruct Hin as [-> | []]. apply includes_refl.
  - change (joinWith sep (x :: y :: rest'))
      with (x ++ sep ++ joinWith sep (y :: rest'))%string.
    destruct Hin as [-> | Hin].
    + apply includes_app_r, includes_refl.
    + apply includes_app_l, includes_app_l, IH, Hin.
Qed.

(** X16: Every user message, every tool name and every touched file of a
    session occurs in its searchable text. *)
Theorem getSearchableText_holds_every_part (s : ParsedSession) (text : string) :
  In text (userMessages s) \/ In text (toolsUsed s)
  \/ In text (filesFromToolCalls s) ->
  Str.includes (getSearchableText s) text = true.
Proof.
  intros H. unfold getSearchableText. apply includes_joinWith.
  rewrite !in_app_iff. exact H.
Qed.

Lemma getSearchableText_witness :
  getSearchableText editingSession
  = "rename the component MultiEdit Bash src/App.tsx"%string
  /\ Str.includes (getSearchableText editingSession) "MultiEdit" = true.
Proof.
  split; [reflexivity|].
  apply (getSearchableText_holds_every_part editingSession "MultiEdit").
  right. left. left. reflexivity.
Defined.

(** ** The title of an exported session *)

Lemma untitled_matches_untitled :
  totalMatches (queryTermsOf "untitled") ["Untitled Session"] = 1.
Proof. vm_compute. reflexivity. Qed.

(** X17: A session returned by the structured-export extractor always has a
    non-empty title; when the export has none it is [Untitled Session], and
    the query [untitled] then scores at least 15 on it. *)
Theorem parseOpenCodeSession_title
  (Date_parse : string -> Date) (raw : JSON) (s : ParsedSession) :
  parseOpenCodeSession Date_parse raw = Return s ->
  (exists t, title s = Some t /\ t <> EmptyString)
  /\ (forall info v,
         prop "info" (Some raw) = Return info ->
         prop "title" info = Return v -> truthy v = false ->
         title s = Some "Untitled Session"
         /\ (15 <= scoreRelevance s "untitled")%Z).
Proof.
  unfold parseOpenCodeSession. intros H. unbind H. injection H as <-.
  simpl title. split.
  - exists v8. split; [reflexivity|].
    apply bind_Return in Hv8 as (t & _ & Hv8).
    apply (stringOr_nonempty t "Untitled Session" v8); [discriminate | exact Hv8].
  - intros info t Hinfo Htitle Hfalsy.
    rewrite Hinfo in Hv2. injection Hv2 as <-.
    apply bind_Return in Hv8 as (t' & Ht' & Hv8).
    rewrite Htitle in Ht'. injection Ht' as <-.
    unfold stringOr in Hv8. rewrite Hfalsy in Hv8. injection Hv8 as <-.
    split; [reflexivity|].
    rewrite scoreRelevance_closed by discriminate.
    match goal with
    | |- context [titleTexts ?session] =>
        replace (titleTexts session) with ["Untitled Session"] by reflexivity
    end.
    rewrite untitled_matches_untitled. lia.
Qed.

Lemma parseOpenCodeSession_title_witness :
  exists s,
    parseOpenCodeSession noDates untitledExport = Return s
    /\ scoreRelevance s "untitled" = 15%Z
    /\ exists t, title s = Some t /\ t <> EmptyString.
Proof.
  eexists. split; [vm_compute; reflexivity|]. split; [reflexivity|].
  apply (parseOpenCodeSession_title noDates untitledExport).
  vm_compute. reflexivity.
Defined.

(** ** The identifiers of the session list *)

Lemma takeWhile_all (p : ascii -> bool) (s : string) :
  Str.allChars p (takeWhile p s) = true.
Proof.
  induction s as [|c rest IH]; simpl; [reflexivity|].
  destruct (p c) eqn:E; simpl; [rewrite E; exact IH | reflexivity].
Qed.

Lemma matchSessionID_shape (line sessionID : string) :
  matchSessionID line = Some sessionID ->
  exists run,
    sessionID = ("ses_" ++ run)%string /\ run <> EmptyString
    /\ Str.allChars isAlnum run = true.
Proof.
  induction line as [|c rest IH]; [discriminate|].
  intros H. cbn [matchSessionID] in H.
  destruct (Str.startsWith (String c rest) "ses_"); [|exact (IH H)].
  pose proof (takeWhile_all isAlnum (Str.drop 4 (String c rest))) as Hall.
  destruct (takeWhile isAlnum (Str.drop 4 (String c rest))) as [|d run];
    [exact (IH H)|].
  injection H as <-. exists (String d run).
  split; [reflexivity|]. split; [discriminate | exact Hall].
Qed.

Lemma allChars_append (p : ascii -> bool) (a b : string) :
  Str.allChars p (a ++ b) = Str.allChars p a && Str.allChars p b.
Proof.
  induction a as [|c a' IH]; simpl; [reflexivity|].
  rewrite IH. apply andb_assoc.
Qed.

Lemma allChars_impl (p q : ascii -> bool) (s : string) :
  (forall c, p c = true -> q c = true) ->
  Str.allChars p s = true -> Str.allChars q s = true.
Proof.
  intros Hpq. induction s as [|c rest IH]; simpl; [reflexivity|].
  intros H. apply andb_true_iff in H as [Hc Hrest].
  rewrite (Hpq c Hc), (IH Hrest). reflexivity.
Qed.

(** X18: Every identifier taken from the session list is [ses_] followed by at
    least one letter or digit, so it holds only letters, digits and
    underscores (it is then put into the export command line); a line gives
    at most one identifier, and a listing that failed gives none. *)
Theorem getAllSessionIDs_are_well_formed (listing : option string) :
  (forall sessionID,
      In sessionID (getAllSessionIDs listing) ->
      (exists run,
          sessionID = ("ses_" ++ run)%string /\ run <> EmptyString
          /\ Str.allChars isAlnum run = true)
      /\ Str.allChars isWordChar sessionID = true)
  /\ (forall output,
         listing = Some output ->
         length (getAllSessionIDs listing)
         <= length (Str.split newline (Str.trim output)))
  /\ (listing = None -> getAllSessionIDs listing = []).
Proof.
  split; [|split].
  - intros sessionID Hin. destruct listing as [output|]; [|contradiction].
    simpl in Hin. apply in_flat_map in Hin as (line & _ & Hin).
    destruct (matchSessionID line) as [found|] eqn:E; [|contradiction].
    destruct Hin as [<- | []].
    destruct (matchSessionID_shape line found E) as (run & -> & Hne & Hall).
    split; [exists run; repeat split; assumption|].
    rewrite allChars_append. apply andb_true_iff. split; [reflexivity|].
    apply (allChars_impl isAlnum isWordChar run); [|exact Hall].
    intros ch Hch. unfold isWordChar. rewrite Hch. reflexivity.
  - intros output ->. simpl. apply flat_map_length_le.
    intros line. destruct (matchSessionID line); simpl; lia.
  - intros ->. reflexivity.
Qed.

Lemma getAllSessionIDs_witness :
  getAllSessionIDs (Some someListing) = ["ses_4a1Bc9"; "ses_77"]
  /\ Str.allChars isWordChar "ses_77" = true.
Proof.
  split; [vm_compute; reflexivity|].
  apply (getAllSessionIDs_are_well_formed (Some someListing)).
  vm_compute. right. left. reflexivity.
Defined.

(** ** The date filter of the sync script against that of the search *)

(** X19: For a session with a valid [endedAt] and a valid cut-off, the [days]
    filter of the sync script accepts exactly what the [days] rule of the
    search accepts; a session whose [endedAt] is an Invalid Date is rejected
    by the sync script and accepted by the search, for any non-zero
    [days]. *)
Theorem sync_and_search_date_filters
  (now n : Z) (s : ParsedSession) (options : SyncOptions) :
  syncDays options = Some n ->
  (forall e c,
      endedAt s = Some e -> dateOfNumber (now - n * msPerDay) = Some c ->
      matchesDateFilter now s options = matchesFilters now s (onlyDays n))
  /\ (endedAt s = None -> n <> 0%Z ->
      matchesDateFilter now s options = false
      /\ matchesFilters now s (onlyDays n) = true).
Proof.
  intros Hdays. unfold matchesDateFilter, matchesFilters. rewrite Hdays. simpl.
  split.
  - intros e c He Hc. rewrite He, Hc. simpl.
    destruct (Z.eqb_spec n 0) as [_|_]; simpl; [reflexivity|].
    destruct (Z.leb_spec c e), (Z.ltb_spec e c); simpl; try reflexivity; lia.
  - intros He Hn. rewrite He. apply Z.eqb_neq in Hn. rewrite Hn. simpl.
    split; reflexivity.
Qed.

Lemma sync_and_search_date_filters_witness :
  matchesDateFilter someNow undatedSession (daysOnly 7) = false
  /\ matchesFilters someNow undatedSession (onlyDays 7) = true.
Proof.
  apply (sync_and_search_date_filters someNow 7 undatedSession (daysOnly 7));
    [reflexivity | reflexivity | discriminate].
Defined.

(** ** What the sync script writes *)

(** X20: When [syncSession] writes a row, the session has a user message and
    passes the date filter, it is forced or its hash differs from the stored
    one, the row carries the new hash and a search text in which every user
    message occurs, and the result is ['updated'] when a non-empty hash was
    stored, ['created'] otherwise. *)
Theorem syncSession_writes_only_what_changed
  (Date_parse : string -> Date) (sessionHash : JSON -> string)
  (upsertSucceeds : SyncedRow -> bool) (now : Z) (rawSession : option JSON)
  (existingHashes : list (string * string)) (options : SyncOptions)
  (result : SyncResult) (row : SyncedRow) :
  syncSession Date_parse sessionHash upsertSucceeds now rawSession
    existingHashes options = Return (result, Some row) ->
  exists raw,
    rawSession = Some raw
    /\ parseOpenCodeSession Date_parse raw = Return (rowSession row)
    /\ userMessages (rowSession row) <> []
    /\ matchesDateFilter now (rowSession row) options = true
    /\ (syncForce options = true
        \/ lookup (id (rowSession row)) existingHashes
           <> Some (sessionHash raw))
    /\ rowHash row = sessionHash raw
    /\ (forall m, In m (userMessages (rowSession row)) ->
                  Str.includes (rowSearchText row) m = true)
    /\ (result = Updated
        <-> exists h, lookup (id (rowSession row)) existingHashes = Some h
                      /\ h <> EmptyString)
    /\ (result = Created \/ result = Updated).
Proof.
  unfold syncSession. intros H.
  destruct (negb (truthy rawSession)); [discriminate|].
  destruct rawSession as [raw|]; [|discriminate].
  destruct (parseOpenCodeSession Date_parse raw) as [s| |] eqn:Eparse;
    try discriminate.
  destruct (userMessages s) as [|u us] eqn:Eu; [discriminate|].
  destruct (matchesDateFilter now s options) eqn:Edate; simpl in H;
    [|discriminate].
  destruct (match lookup (id s) existingHashes with
            | Some h => String.eqb h (sessionHash raw)
            | None => false
            end && negb (syncForce options)) eqn:Esame; [discriminate|].
  destruct (upsertSucceeds _); [|discriminate].
  injection H as <- <-. simpl. exists raw.
  split; [reflexivity|]. split; [exact Eparse|].
  split; [rewrite Eu; discriminate|]. split; [exact Edate|].
  split; [|split; [reflexivity|split; [|split]]].
  - apply andb_false_iff in Esame as [Esame | Eforce].
    + right. intros Hsame. rewrite Hsame, String.eqb_refl in Esame. discriminate.
    + left. apply negb_false_iff in Eforce. exact Eforce.
  - intros m Hm.
    apply (includes_joinWith " " m (titleOrEmpty s :: u :: us)).
    right. rewrite <- Eu. exact Hm.
  - destruct (lookup (id s) existingHashes) as [[|c stored]|].
    + split; [discriminate|]. intros (h & [= <-] & Hne). contradiction.
    + split; [|reflexivity]. intros _. eexists.
      split; [reflexivity | discriminate].
    + split; [discriminate|]. intros (h & Hh & _). discriminate.
  - destruct (lookup (id s) existingHashes) as [[|c h]|];
      [left | right | left]; reflexivity.
Qed.

Lemma syncSession_writes_witness :
  exists row,
    syncSession noDates stringify (fun _ => true) someNow
      (Some (exportWith "Notes" "add tests" 1500)) [("ses_1", "old-hash")]
      (mkSyncOptions false None false None) = Return (Updated, Some row)
    /\ rowSearchText row = "Notes add tests"%string
    /\ rowHash row = stringify (exportWith "Notes" "add tests" 1500).
Proof.
  eexists. split; [vm_compute; reflexivity|]. split; [reflexivity|].
  edestruct (syncSession_writes_only_what_changed noDates stringify
               (fun _ => true) someNow
               (Some (exportWith "Notes" "add tests" 1500))
               [("ses_1", "old-hash")] (mkSyncOptions false None false None))
    as (raw & Hraw & _ & _ & _ & _ & Hhash & _).
  - vm_compute. reflexivity.
  - injection Hraw as <-. exact Hhash.
Defined.

(** X21: A session whose stored hash is the hash of its export is skipped and
    nothing is written, unless the sync is forced. *)
Theorem syncSession_skips_unchanged
  (Date_parse : string -> Date) (sessionHash : JSON -> string)
  (upsertSucceeds : SyncedRow -> bool) (now : Z) (raw : JSON)
  (s : ParsedSession) (existingHashes : list (string * string))
  (options : SyncOptions) :
  parseOpenCodeSession Date_parse raw = Return s ->
  lookup (id s) existingHashes = Some (sessionHash raw) ->
  syncForce options = false ->
  syncSession Date_parse sessionHash upsertSucceeds now (Some raw)
    existingHashes options = Return (Skipped, None).
Proof.
  intros Hparse Hstored Hforce. unfold syncSession.
  rewrite (parseOpenCodeSession_truthy _ _ _ Hparse), Hparse. simpl.
  destruct (userMessages s); [reflexivity|].
  destruct (matchesDateFilter now s options); simpl; [|reflexivity].
  rewrite Hstored, String.eqb_refl, Hforce. reflexivity.
Qed.

Lemma syncSession_skips_unchanged_witness :
  syncSession noDates stringify (fun _ => true) someNow
    (Some (exportWith "Notes" "add tests" 1500))
    [("ses_1", stringify (exportWith "Notes" "add tests" 1500))]
    (mkSyncOptions false None false None) = Return (Skipped, None).
Proof.
  eapply (syncSession_skips_unchanged noDates stringify).
  - vm_compute. reflexivity.
  - vm_compute. reflexivity.
  - reflexivity.
Defined.

(** ** The statistics of a sync *)

Lemma fold_countResult (results : list SyncResult) :
  forall stats,
    errors (fold_left countResult results stats) = errors stats
    /\ (created (fold_left countResult results stats)
        + updated (fold_left countResult results stats)
        + skipped (fold_left countResult results stats)
        = created stats + updated stats + skipped stats
          + Z.of_nat (length (filter (fun r => match r with
                                               | Failed => false
                                               | _ => true
                                               end) results)))%Z.
Proof.
  induction results as [|r rest IH]; intros stats; simpl; [lia|].
  destruct (IH (countResult stats r)) as [He Hsum]. rewrite He, Hsum.
  destruct r; simpl; lia.
Qed.

Lemma fold_countResult_errorProperty (results : list SyncResult) :
  forall stats,
    errorProperty (fold_left countResult results stats) = true
    <-> errorProperty stats = true \/ In Failed results.
Proof.
  induction results as [|r rest IH]; intros stats; simpl.
  - tauto.
  - rewrite IH. destruct r; simpl; intuition congruence.
Qed.

(** X22: Whatever the results of the sessions, the [errors] counter of the
    statistics stays 0: a result ['error'] is counted under a property named
    [error], not [errors]; the three other counters add up to the number of
    sessions that did not fail. *)
Theorem tally_never_counts_errors (results : list SyncResult) :
  errors (tally results) = 0%Z
  /\ (created (tally results) + updated (tally results)
      + skipped (tally results)
      = Z.of_nat (length (filter (fun r => match r with
                                           | Failed => false
                                           | _ => true
                                           end) results)))%Z
  /\ (errorProperty (tally results) = true <-> In Failed results).
Proof.
  unfold tally. destruct (fold_countResult results noStats) as [He Hsum].
  split; [exact He|]. split; [rewrite Hsum; simpl; lia|].
  rewrite fold_countResult_errorProperty. simpl.
  split; [intros [H|H]; [discriminate | exact H] | auto].
Qed.

(** X23: The statistics returned by [sync] never report an error: [errors] is 0
    even when sessions failed (a failed export, for one), and the three other
    counters never add up to more than the number of sessions. *)
Theorem sync_never_reports_errors
  (Date_parse : string -> Date) (sessionHash : JSON -> string)
  (upsertSucceeds : SyncedRow -> bool) (now : Z)
  (exported : list (option JSON)) (existingHashes : list (string * string))
  (options : SyncOptions) (stats : SyncStats) :
  sync Date_parse sessionHash upsertSucceeds now exported existingHashes options
  = Return stats ->
  errors stats = 0%Z
  /\ (0 <= created stats /\ 0 <= updated stats /\ 0 <= skipped stats)%Z
  /\ (created stats + updated stats + skipped stats
      <= Z.of_nat (length exported))%Z
  /\ (In None exported -> errorProperty stats = true).
Proof.
  unfold sync.
  assert (Hgen : forall xs st st',
             forOf
               (fun stats rawSession =>
                  let* outcomeOfSession :=
                    syncSession Date_parse sessionHash upsertSucceeds now
                      rawSession existingHashes options in
                  Return (countResult stats (fst outcomeOfSession)))
               xs st = Return st' ->
             errors st' = errors st
             /\ (created st <= created st' /\ updated st <= updated st'
                 /\ skipped st <= skipped st')%Z
             /\ (created st' + updated st' + skipped st'
                 <= created st + updated st + skipped st
                    + Z.of_nat (length xs))%Z
             /\ (errorProperty st = true \/ In None xs ->
                 errorProperty st' = true)).
  { induction xs as [|x rest IH]; simpl; intros st st' H.
    - injection H as <-. repeat split; try lia. intros [H|[]]. exact H.
    - apply bind_Return in H as (st1 & Hx & H).
      apply bind_Return in Hx as (o & Ho & Hx). injection Hx as <-.
      destruct (IH _ _ H) as (He & Hmono & Hsum & Hprop).
      assert (Hnone : x = None -> fst o = Failed).
      { intros ->. unfold syncSession in Ho. simpl in Ho.
        injection Ho as <-. reflexivity. }
      split; [|split; [|split]].
      + rewrite He. destruct (fst o); reflexivity.
      + destruct (fst o); simpl in *; lia.
      + destruct (fst o); simpl in *; lia.
      + intros Hin. apply Hprop.
        destruct Hin as [Hst | [Hx | Hin]].
        * left. destruct (fst o); simpl; [exact Hst ..| reflexivity].
        * left. rewrite (Hnone Hx). reflexivity.
        * right. exact Hin. }
  intros H. destruct (Hgen _ _ _ H) as (He & Hmono & Hsum & Hprop).
  simpl in *. split; [exact He|]. split; [lia|]. split; [lia|].
  intros Hin. apply Hprop. right. exact Hin.
Qed.

Lemma sync_never_reports_errors_witness :
  exists stats,
    sync noDates stringify (fun _ => true) someNow
      [None; Some (exportWith "Notes" "add tests" 1500); Some emptyExport] []
      (mkSyncOptions false None false None) = Return stats
    /\ stats = mkSyncStats 1 0 1 0 true
    /\ errors stats = 0%Z.
Proof.
  eexists. split; [vm_compute; reflexivity|]. split; [reflexivity|].
  eapply (sync_never_reports_errors noDates stringify (fun _ => true) someNow
            [None; Some (exportWith "Notes" "add tests" 1500); Some emptyExport]
            [] (mkSyncOptions false None false None)).
  vm_compute. reflexivity.
Defined.

(** ** The transcripts found for a sync *)

Section SortedInsertion.

Variable A : Type.
Variable cmp : A -> A -> Z.
Hypothesis cmp_total : forall x y, (cmp x y <= 0)%Z \/ (cmp y x <= 0)%Z.
Hypothesis cmp_trans :
  forall x y z, (cmp x y <= 0)%Z -> (cmp y z <= 0)%Z -> (cmp x z <= 0)%Z.

Lemma insertBy_keeps_sorted (x : A) (l : list A) :
  StronglySorted (fun a b => (cmp a b <= 0)%Z) l ->
  StronglySorted (fun a b => (cmp a b <= 0)%Z) (insertBy cmp x l).
Proof.
  induction l as [|y rest IH]; simpl; intros Hs.
  - constructor; constructor.
  - apply StronglySorted_inv in Hs as [Hrest Hy].
    destruct (Z.leb_spec (cmp x y) 0) as [Hle|Hgt].
    + constructor; [constructor; assumption|].
      constructor; [exact Hle|].
      rewrite Forall_forall in Hy |- *. intros z Hz.
      apply (cmp_trans x y z); [exact Hle | apply Hy, Hz].
    + constructor; [apply IH, Hrest|].
      rewrite Forall_forall in Hy |- *. intros z Hz.
      apply In_insertBy in Hz as [-> | Hz]; [|apply Hy, Hz].
      destruct (cmp_total x y) as [H|H]; [lia | exact H].
Qed.

Lemma sortBy_is_sorted (l : list A) :
  StronglySorted (fun a b => (cmp a b <= 0)%Z) (sortBy cmp l).
Proof.
  unfold sortBy. induction l as [|x rest IH]; simpl.
  - constructor.
  - apply insertBy_keeps_sorted, IH.
Qed.

End SortedInsertion.

Section FoundFiles.

Variable join : string -> string -> string.

Lemma scanDir_listed (cutoff : option Date) (dir : string)
  (entries : list (string * option Z)) (P : FoundFile -> Prop) :
  (forall file m,
      In (file, Some m) entries -> endsWith file ".jsonl" = true ->
      olderThan cutoff m = false -> P (mkFoundFile (join dir file) m)) ->
  forall files, Forall P files -> Forall P (scanDir join cutoff dir entries files).
Proof.
  induction entries as [|[file stat] rest IH]; simpl; intros Hnew files Hfiles;
    [exact Hfiles|].
  assert (Hrest : forall file0 m,
             In (file0, Some m) rest -> endsWith file0 ".jsonl" = true ->
             olderThan cutoff m = false -> P (mkFoundFile (join dir file0) m))
    by (intros file0 m Hin; apply Hnew; right; exact Hin).
  destruct (endsWith file ".jsonl") eqn:Eend; simpl; [|apply IH; assumption].
  destruct stat as [m|]; [|exact Hfiles].
  destruct (olderThan cutoff m) eqn:Eold; [apply IH; assumption|].
  apply IH; [exact Hrest|].
  apply Forall_app. split; [exact Hfiles|]. constructor; [|constructor].
  apply Hnew; [left; reflexivity | exact Eend | exact Eold].
Qed.

Lemma scanDirs_listed (cutoff : option Date)
  (sessionDirs : list (string * option (list (string * option Z))))
  (P : FoundFile -> Prop) :
  (forall dir entries file m,
      In (dir, Some entries) sessionDirs -> In (file, Some m) entries ->
      endsWith file ".jsonl" = true -> olderThan cutoff m = false ->
      P (mkFoundFile (join dir file) m)) ->
  forall files, Forall P files -> Forall P (scanDirs join cutoff sessionDirs files).
Proof.
  induction sessionDirs as [|[dir [entries|]] rest IH]; simpl;
    intros Hnew files Hfiles; [exact Hfiles | |].
  - apply IH.
    + intros d e f m Hin. apply Hnew. right. exact Hin.
    + apply scanDir_listed; [|exact Hfiles].
      intros file m Hin. apply (Hnew dir entries file m). left. reflexivity.
      exact Hin.
  - apply IH; [|exact Hfiles].
    intros d e f m Hin. apply Hnew. right. exact Hin.
Qed.

(** X24: Every file [findFilesToSync] returns is a [.jsonl] entry of a readable
    session directory, not older than the cut-off of a non-zero [days]; the
    files come newest first; and with a positive [limit] there are at most
    that many. *)
Theorem findFilesToSync_properties
  (now : Z) (sessionDirs : list (string * option (list (string * option Z))))
  (options : SyncOptions) :
  (forall f,
      In f (findFilesToSync join now sessionDirs options) ->
      listedIn join sessionDirs f
      /\ (forall n c,
             syncDays options = Some n -> n <> 0%Z ->
             dateOfNumber (now - n * msPerDay) = Some c -> (c <= mtime f)%Z))
  /\ (forall i j a b,
         i < j ->
         nth_error (findFilesToSync join now sessionDirs options) i = Some a ->
         nth_error (findFilesToSync join now sessionDirs options) j = Some b ->
         (mtime b <= mtime a)%Z)
  /\ (forall n,
         syncLimit options = Some n -> (0 < n)%Z ->
         (Z.of_nat (length (findFilesToSync join now sessionDirs options)) <= n)%Z).
Proof.
  unfold findFilesToSync.
  set (cutoffDate := match syncDays options with
                     | Some n =>
                         if (n =? 0)%Z then None
                         else Some (dateOfNumber (now - n * msPerDay))
                     | None => None
                     end).
  set (found := scanDirs join cutoffDate sessionDirs []).
  set (sorted := sortBy newestFirst found).
  assert (Hfound : Forall
                     (fun f =>
                        listedIn join sessionDirs f
                        /\ olderThan cutoffDate (mtime f) = false) found).
  { apply scanDirs_listed; [|constructor].
    intros dir entries file m Hdir Hfile Hend Hold. split; [|exact Hold].
    exists dir, entries, file. repeat split; assumption. }
  assert (Hsorted : StronglySorted
                      (fun a b => (newestFirst a b <= 0)%Z) sorted).
  { apply sortBy_is_sorted; unfold newestFirst; intros; lia. }
  assert (Hin : forall f,
             In f match syncLimit options with
                  | Some n => if (n =? 0)%Z then sorted else slice0 n sorted
                  | None => sorted
                  end -> In f found).
  { intros f Hf. apply (In_sortBy newestFirst).
    destruct (syncLimit options) as [n|]; [|exact Hf].
    destruct (n =? 0)%Z; [exact Hf | exact (In_slice0 _ _ _ Hf)]. }
  split; [|split].
  - intros f Hf. rewrite Forall_forall in Hfound.
    destruct (Hfound f (Hin f Hf)) as [Hlisted Hold].
    split; [exact Hlisted|].
    intros n c Hdays Hn Hc. unfold cutoffDate in Hold.
    rewrite Hdays in Hold. apply Z.eqb_neq in Hn. rewrite Hn in Hold.
    simpl in Hold. rewrite Hc in Hold. apply Z.ltb_ge in Hold. exact Hold.
  - intros i j a b Hij Ha Hb.
    assert (Hs : StronglySorted (fun a b => (newestFirst a b <= 0)%Z)
                   match syncLimit options with
                   | Some n => if (n =? 0)%Z then sorted else slice0 n sorted
                   | None => sorted
                   end).
    { destruct (syncLimit options) as [n|]; [|exact Hsorted].
      destruct (n =? 0)%Z; [exact Hsorted | apply slice0_sorted, Hsorted]. }
    pose proof (sorted_nth_error _ _ Hs i j a b Hij Ha Hb) as Hab.
    unfold newestFirst in Hab. lia.
  - intros n Hn Hpos. rewrite Hn.
    destruct (Z.eqb_spec n 0); [lia|]. apply length_slice0. lia.
Qed.

End FoundFiles.

Lemma findFilesToSync_witness :
  map path
    (findFilesToSync slashJoin 1000 someDirs
       (mkSyncOptions false None false (Some 2%Z)))
  = ["/p/a/two.jsonl"; "/p/b/three.jsonl"]%string
  /\ (Z.of_nat
        (length (findFilesToSync slashJoin 1000 someDirs
                   (mkSyncOptions false None false (Some 2%Z)))) <= 2)%Z.
Proof.
  split; [vm_compute; reflexivity|].
  apply (findFilesToSync_properties slashJoin 1000 someDirs
           (mkSyncOptions false None false (Some 2%Z))).
  - reflexivity.
  - lia.
Defined.

(** ** The files of a tool input, exactly *)

Lemma setAdd_In_iff (x y : string) (s : list string) :
  In y (setAdd x s) <-> y = x \/ In y s.
Proof.
  unfold setAdd. destruct (existsb (String.eqb x) s) eqn:E.
  - split; [intros H; right; exact H|]. intros [-> | H]; [|exact H].
    apply existsb_exists in E as (z & Hz & Heq).
    apply String.eqb_eq in Heq. subst z. exact Hz.
  - rewrite in_app_iff. simpl. split.
    + intros [H | [<- | []]]; [right; exact H | left; reflexivity].
    + intros [-> | H]; [right; left; reflexivity | left; exact H].
Qed.

Lemma pathIn_nil (s : string) : ~ pathIn (JObj []) s.
Proof. intros H. inversion H; subst; contradiction. Qed.

Lemma pathIn_cons (key : string) (value : JSON) (rest : list (string * JSON))
  (s : string) :
  pathIn (JObj ((key, value) :: rest)) s
  <-> (value = JStr s /\ isPathKey key = true /\ looksLikePath s = true)
      \/ (exists inner, value = JObj inner /\ pathIn (JObj inner) s)
      \/ pathIn (JObj rest) s.
Proof.
  split.
  - intros H. inversion H as [kvs k s0 Hin Hk Hs | kvs inner k s0 Hin Hs | ]; subst.
    + destruct Hin as [[= -> ->] | Hin].
      * left. repeat split; assumption.
      * right. right. exact (@pathIn_here rest k s Hin Hk Hs).
    + destruct Hin as [[= -> ->] | Hin].
      * right. left. exists inner. split; [reflexivity | exact Hs].
      * right. right. exact (@pathIn_nested rest inner k s Hin Hs).
  - intros [(-> & Hk & Hs) | [(inner & -> & Hs) | H]].
    + exact (@pathIn_here ((key, JStr s) :: rest) key s (or_introl eq_refl) Hk Hs).
    + exact (@pathIn_nested ((key, JObj inner) :: rest) inner key s
               (or_introl eq_refl) Hs).
    + inversion H as [kvs k s0 Hin Hk Hs | kvs inner k s0 Hin Hs | ]; subst.
      * exact (@pathIn_here ((key, value) :: rest) k s (or_intror Hin) Hk Hs).
      * exact (@pathIn_nested ((key, value) :: rest) inner k s (or_intror Hin) Hs).
Qed.

Lemma pathIn_elements_cons (value : JSON) (rest : list JSON) (s : string) :
  pathIn (JArr (value :: rest)) s
  <-> (exists inner, value = JObj inner /\ pathIn (JObj inner) s)
      \/ pathIn (JArr rest) s.
Proof.
  split.
  - intros H. inversion H as [ | | elems inner s0 Hin Hs]; subst.
    destruct Hin as [-> | Hin].
    + left. exists inner. split; [reflexivity | exact Hs].
    + right. exact (@pathIn_element rest inner s Hin Hs).
  - intros [(inner & -> & Hs) | H].
    + exact (@pathIn_element (JObj inner :: rest) inner s (or_introl eq_refl) Hs).
    + inversion H as [ | | elems inner s0 Hin Hs]; subst.
      exact (@pathIn_element (value :: rest) inner s (or_intror Hin) Hs).
Qed.

(** X25: The files [extractFilePaths] adds are exactly the strings with a path
    separator found under a path key ([file_path], [path], [file],
    [filename], [filePath]) of the input or of a plain object nested in it at
    any depth; what was in the set stays. *)
Theorem extractFilePaths_finds_exactly_the_paths (input : JSON) (s : string) :
  forall files,
    In s (extractFilePaths input files) <-> In s files \/ pathIn input s.
Proof.
  induction input as [ | b | z | t | elems IH | kvs IH ] using JSON_nested_ind;
    intros files; simpl;
    try (split; [intros H; left; exact H
                | intros [H|H]; [exact H | inversion H]]).
  - revert files.
    induction IH as [|value rest Hvalue _ IHrest]; intros files.
    + split; [intros H; left; exact H|].
      intros [H|H]; [exact H|]. inversion H; subst; contradiction.
    + rewrite IHrest, pathIn_elements_cons.
      destruct value as [ | | | | | inner];
        try (split; [intros [H|H]; [left; exact H | right; right; exact H]
                    | intros [H|[(i & Hi & _)|H]];
                      [left; exact H | discriminate | right; exact H]]).
      pose proof (Hvalue files) as [Hv1 Hv2]. split.
      * intros [H|H]; [|right; right; exact H].
        apply Hv1 in H as [H|H]; [left; exact H|].
        right. left. exists inner. split; [reflexivity | exact H].
      * intros [H|[(i & [= <-] & H)|H]];
          [left; apply Hv2; left; exact H | left; apply Hv2; right; exact H
          | right; exact H].
  - revert files.
    induction IH as [|[key value] rest Hvalue _ IHrest]; intros files.
    + split; [intros H; left; exact H|].
      intros [H|H]; [exact H | destruct (pathIn_nil s H)].
    + rewrite IHrest, pathIn_cons. simpl in Hvalue.
      destruct value as [ | | | t | | inner].
      * split; [intros [H|H]; [left; exact H | right; right; right; exact H]|].
        intros [H|[(Hv & _)|[(i & Hi & _)|H]]];
          [left; exact H | discriminate | discriminate | right; exact H].
      * split; [intros [H|H]; [left; exact H | right; right; right; exact H]|].
        intros [H|[(Hv & _)|[(i & Hi & _)|H]]];
          [left; exact H | discriminate | discriminate | right; exact H].
      * split; [intros [H|H]; [left; exact H | right; right; right; exact H]|].
        intros [H|[(Hv & _)|[(i & Hi & _)|H]]];
          [left; exact H | discriminate | discriminate | right; exact H].
      * destruct (isPathKey key) eqn:Ek; simpl;
          [destruct (looksLikePath t) eqn:Et|].
        -- rewrite setAdd_In_iff. split.
           ++ intros [[-> | H] | H];
                [right; left; repeat split; assumption
                | left; exact H | right; right; right; exact H].
           ++ intros [H|[([= ->] & _)|[(i & Hi & _)|H]]];
                [left; right; exact H | left; left; reflexivity
                | discriminate | right; exact H].
        -- split; [intros [H|H]; [left; exact H | right; right; right; exact H]|].
           intros [H|[([= ->] & _ & Hs)|[(i & Hi & _)|H]]];
             [left; exact H | rewrite Hs in Et; discriminate
             | discriminate | right; exact H].
        -- split; [intros [H|H]; [left; exact H | right; right; right; exact H]|].
           intros [H|[(_ & Hk & _)|[(i & Hi & _)|H]]];
             [left; exact H | discriminate | discriminate | right; exact H].
      * split; [intros [H|H]; [left; exact H | right; right; right; exact H]|].
        intros [H|[(Hv & _)|[(i & Hi & _)|H]]];
          [left; exact H | discriminate | discriminate | right; exact H].
      * pose proof (Hvalue files) as [Hv1 Hv2]. split.
        -- intros [H|H]; [|right; right; right; exact H].
           apply Hv1 in H as [H|H]; [left; exact H|].
           right. right. left. exists inner. split; [reflexivity | exact H].
        -- intros [H|[(Hv & _)|[(i & [= <-] & H)|H]]];
             [left; apply Hv2; left; exact H | discriminate
             | left; apply Hv2; right; exact H | right; exact H].
Qed.

Lemma extractFilePaths_exactly_witness :
  extractFilePaths deepInput [] = ["src/deep.ts"]
  /\ (In "src/deep.ts" (extractFilePaths deepInput [])
      <-> In "src/deep.ts" [] \/ pathIn deepInput "src/deep.ts").
Proof.
  split; [reflexivity|].
  apply (extractFilePaths_finds_exactly_the_paths deepInput "src/deep.ts").
Defined.

(** X26: When [statSync] throws on a [.jsonl] entry, the entries of that
    directory that come after it are not looked at: the files found are
    those found among the entries before it. *)
Theorem scanDir_stops_at_failed_stat
  (join : string -> string -> string) (cutoff : option Date) (dir file : string)
  (before after : list (string * option Z)) :
  endsWith file ".jsonl" = true ->
  forall files,
    scanDir join cutoff dir (before ++ (file, None) :: after) files
    = scanDir join cutoff dir before files.
Proof.
  intros Hend. induction before as [|[f stat] rest IH]; intros files; simpl.
  - rewrite Hend. reflexivity.
  - destruct (endsWith f ".jsonl"); simpl; [|apply IH].
    destruct stat as [m|]; [|reflexivity].
    destruct (olderThan cutoff m); apply IH.
Qed.

Lemma scanDir_stops_witness :
  map path
    (scanDir slashJoin None "/p/b"
       ([("three.jsonl", Some 200%Z)] ++ ("gone.jsonl", None)
          :: [("four.jsonl", Some 400%Z)]) [])
  = ["/p/b/three.jsonl"]%string
  /\ scanDir slashJoin None "/p/b"
       ([("three.jsonl", Some 200%Z)] ++ ("gone.jsonl", None)
          :: [("four.jsonl", Some 400%Z)]) []
     = scanDir slashJoin None "/p/b" [("three.jsonl", Some 200%Z)] [].
Proof.
  split; [reflexivity|].
  apply (scanDir_stops_at_failed_stat slashJoin None "/p/b" "gone.jsonl").
  reflexivity.
Defined.
